(** * Storefront write paths: default address, order numbers, checkout

    A shallow embedding of the trigger functions of the schema migration
    (ensure_single_default_address, set_order_number), of the table
    constraints they run under, and of the two client flows that write
    through them (setAsDefault of the address page, handlePaymentSubmit of
    the checkout page).

    Tables are lists of rows in storage order.  A write either commits and
    returns the new table, or is rejected with the SQLSTATE class of the
    failure and leaves the table as it was.  Statements run one after the
    other, each in its own transaction.  Row-level security policies and
    the references to [auth.users] only reject writes and are left out: a
    table they let through is a table reached here.  The policies that
    also decide what a statement reads are taken in where they matter, in
    the parts on orders under row-level security and on the address
    page. *)

From Stdlib Require Import String Ascii List ZArith QArith Qabs Qround Qpower
  Lia Lqa Bool Permutation DecimalString.
Import ListNotations.

Local Open Scope string_scope.
Local Open Scope Z_scope.
Local Open Scope list_scope.

(* ===================================================================== *)
(** * Outcomes of a statement *)
(* ===================================================================== *)

(** The error classes the modelled statements can end in. *)
Inductive sqlstate : Type :=
| unique_violation
| foreign_key_violation
| not_null_violation
| invalid_text_representation
| numeric_value_out_of_range
| triggered_data_change_violation
| insufficient_privilege.

Inductive result (A : Type) : Type :=
| Ok (a : A)
| Error (e : sqlstate).

Arguments Ok {A} a.
Arguments Error {A} e.

Definition bind {A B : Type} (m : result A) (k : A -> result B) : result B :=
  match m with
  | Ok a => k a
  | Error e => Error e
  end.

Notation "x <- m ;; k" := (bind m (fun x => k))
  (at level 61, m at next level, right associativity).

Fixpoint mapM {A B : Type} (f : A -> result B) (l : list A) : result (list B) :=
  match l with
  | [] => Ok []
  | x :: l' => y <- f x ;; ys <- mapM f l' ;; Ok (y :: ys)
  end.

(** Row identifiers are uuid values; only equality on them is used. *)
Definition uuid : Type := N.

(** A nullable column. *)
Definition nullable (A : Type) : Type := option A.

(* ===================================================================== *)
(** * SQL text functions used by set_order_number *)
(* ===================================================================== *)

Fixpoint drop (n : nat) (s : string) : string :=
  match n, s with
  | O, _ => s
  | S n', String _ s' => drop n' s'
  | S _, EmptyString => EmptyString
  end.

Fixpoint take (n : nat) (s : string) : string :=
  match n, s with
  | S n', String c s' => String c (take n' s')
  | _, _ => EmptyString
  end.

(** [SUBSTRING(s FROM start)]: the characters of [s] from the 1-based
    position [start] to the end. *)
Definition substring_from (s : string) (start : nat) : string :=
  drop (start - 1) s.

Fixpoint fill_with (fill : string) (rest : string) (n : nat) : string :=
  match n with
  | O => EmptyString
  | S n' =>
      match rest with
      | String c rest' => String c (fill_with fill rest' n')
      | EmptyString =>
          match fill with
          | String c fill' => String c (fill_with fill fill' n')
          | EmptyString => EmptyString
          end
      end
  end.

(** [LPAD(s, len, fill)]: [s] cut to its first [len] characters when it is
    that long already, otherwise [fill] repeated in front of it. *)
Definition lpad (s : string) (len : nat) (fill : string) : string :=
  if (len <=? String.length s)%nat then take len s
  else if (String.length fill =? 0)%nat then s
  else (fill_with fill fill (len - String.length s) ++ s)%string.

(** [pattern LIKE]: [%] matches any run of characters, [_] any one
    character, a backslash takes the next pattern character literally.
    (A pattern ending in a lone backslash matches nothing here.) *)
Fixpoint sql_like (p : string) : string -> bool :=
  match p with
  | EmptyString => fun s => match s with EmptyString => true | _ => false end
  | String c p' =>
      if Ascii.eqb c "%" then
        (fix any (s : string) : bool :=
           sql_like p' s
           || match s with
              | EmptyString => false
              | String _ s' => any s'
              end)
      else if Ascii.eqb c "_" then
        fun s => match s with
                 | EmptyString => false
                 | String _ s' => sql_like p' s'
                 end
      else if Ascii.eqb c "\" then
        match p' with
        | EmptyString => fun _ => false
        | String e p'' =>
            fun s => match s with
                     | EmptyString => false
                     | String d s' => Ascii.eqb d e && sql_like p'' s'
                     end
        end
      else
        fun s => match s with
                 | EmptyString => false
                 | String d s' => Ascii.eqb d c && sql_like p' s'
                 end
  end.

Definition isspace (c : ascii) : bool :=
  let n := nat_of_ascii c in
  ((n =? 32) || ((9 <=? n) && (n <=? 13)))%nat.

Definition digit_value (c : ascii) : option Z :=
  let n := N_of_ascii c in
  if ((48 <=? n) && (n <=? 57))%N then Some (Z.of_N (n - 48)) else None.

Fixpoint skip_spaces (s : string) : string :=
  match s with
  | String c s' => if isspace c then skip_spaces s' else s
  | EmptyString => EmptyString
  end.

Definition INT_MAX : Z := 2147483647.
Definition INT_MIN : Z := -2147483648.

(** The digit loop of the integer input routine: the magnitude read so
    far, the number of digits read, and the unread rest.  It gives up as
    soon as the magnitude passes 2^31. *)
Fixpoint read_digits (acc : Z) (count : nat) (s : string)
  : result (Z * nat * string) :=
  match s with
  | EmptyString => Ok (acc, count, s)
  | String c s' =>
      match digit_value c with
      | None => Ok (acc, count, s)
      | Some d =>
          let acc' := acc * 10 + d in
          if acc' >? - INT_MIN then Error numeric_value_out_of_range
          else read_digits acc' (S count) s'
      end
  end.

(** [CAST(s AS INTEGER)]: blanks, an optional sign, one or more decimal
    digits, blanks; anything else is a syntax error, a value outside 32
    bits a range error.  (Servers from version 16 on also read the
    prefixes 0x, 0o and 0b and digits grouped by underscores; the facts
    below that evaluate the cast do so on digits, on letters and on the
    empty text, where all versions agree.) *)
Definition cast_integer (s : string) : result Z :=
  let s1 := skip_spaces s in
  let '(neg, s2) :=
    match s1 with
    | String c s' =>
        if Ascii.eqb c "-" then (true, s')
        else if Ascii.eqb c "+" then (false, s')
        else (false, s1)
    | EmptyString => (false, s1)
    end in
  r <- read_digits 0 0 s2 ;;
  let '(acc, count, s3) := r in
  match count with
  | O => Error invalid_text_representation
  | S _ =>
      match skip_spaces s3 with
      | String _ _ => Error invalid_text_representation
      | EmptyString =>
          if neg then Ok (- acc)
          else if acc >? INT_MAX then Error numeric_value_out_of_range
          else Ok acc
      end
  end.

(** [n::TEXT] for an integer. *)
Definition int_to_text (n : Z) : string :=
  NilEmpty.string_of_int (Z.to_int n).

(** [a + b] on INTEGER. *)
Definition int4pl (a b : Z) : result Z :=
  let c := a + b in
  if (c <? INT_MIN) || (c >? INT_MAX) then Error numeric_value_out_of_range
  else Ok c.

(** [MAX] over a column: NULL on no rows. *)
Fixpoint sql_max (l : list Z) : nullable Z :=
  match l with
  | [] => None
  | x :: l' =>
      match sql_max l' with
      | None => Some x
      | Some m => Some (Z.max x m)
      end
  end.

Definition coalesce {A : Type} (x : nullable A) (d : A) : A :=
  match x with Some a => a | None => d end.

(* ===================================================================== *)
(** * Table addresses *)
(* ===================================================================== *)

Inductive address_type : Type := home | work | other.

Module Address.

(** One row of [addresses].  Columns declared NOT NULL carry a value,
    the others may be NULL. *)
Record row : Type := mk {
  id : uuid;
  user_id : uuid;
  type : nullable address_type;
  name : string;
  address_line_1 : string;
  address_line_2 : nullable string;
  city : string;
  state : nullable string;
  postal_code : string;
  country : string;
  phone : nullable string;
  is_default : nullable bool;
  created_at : nullable Z;
  updated_at : nullable Z
}.

Definition with_is_default (v : nullable bool) (r : row) : row :=
  mk (id r) (user_id r) (type r) (name r) (address_line_1 r)
     (address_line_2 r) (city r) (state r) (postal_code r) (country r)
     (phone r) v (created_at r) (updated_at r).

Definition with_id (i : uuid) (r : row) : row :=
  mk i (user_id r) (type r) (name r) (address_line_1 r)
     (address_line_2 r) (city r) (state r) (postal_code r) (country r)
     (phone r) (is_default r) (created_at r) (updated_at r).

Definition table : Type := list row.

End Address.

(** [x = true] on a nullable boolean, as an [IF] or [WHERE] condition takes
    it: NULL does not pass. *)
Definition is_true (x : nullable bool) : bool :=
  match x with Some true => true | _ => false end.

Definition has_id (i : uuid) (r : Address.row) : bool :=
  N.eqb (Address.id r) i.

(** The rows the trigger's UPDATE reaches:
    [WHERE user_id = NEW.user_id AND id != NEW.id]. *)
Definition sibling_of (NEW : Address.row) (r : Address.row) : bool :=
  N.eqb (Address.user_id r) (Address.user_id NEW)
  && negb (N.eqb (Address.id r) (Address.id NEW)).

(** [UPDATE addresses SET is_default = false WHERE ...] as the trigger
    issues it.  The row triggers this statement fires see
    [NEW.is_default = false] and do nothing (see
    [ensure_single_default_address_not_default]), so they are left out. *)
Definition clear_default_where (cond : Address.row -> bool)
    (t : Address.table) : Address.table :=
  map (fun r => if cond r then Address.with_is_default (Some false) r else r) t.

(** The trigger function: the row to store and the table as the function
    leaves it. *)
Definition ensure_single_default_address (NEW : Address.row)
    (t : Address.table) : Address.row * Address.table :=
  if is_true (Address.is_default NEW)
  then (NEW, clear_default_where (sibling_of NEW) t)
  else (NEW, t).

(** Identifiers of the rows the trigger's UPDATE wrote. *)
Definition rows_written_by_trigger (NEW : Address.row) (t : Address.table)
  : list uuid :=
  if is_true (Address.is_default NEW)
  then map Address.id (filter (sibling_of NEW) t)
  else [].

(** [INSERT INTO addresses]: the BEFORE INSERT trigger, then the primary
    key. *)
Definition insert_address (NEW : Address.row) (t : Address.table)
  : result Address.table :=
  let '(NEW', t1) := ensure_single_default_address NEW t in
  if existsb (has_id (Address.id NEW')) t1 then Error unique_violation
  else Ok (t1 ++ [NEW']).

Definition replace_row (i : uuid) (NEW : Address.row) (t : Address.table)
  : Address.table :=
  map (fun r => if has_id i r then NEW else r) t.

(** The table after the update of one row and its trigger, as one pass
    over the old table. *)
Definition after_row_update (NEW : Address.row) (r : Address.row)
  : Address.row :=
  if has_id (Address.id NEW) r then NEW
  else if is_true (Address.is_default NEW) && sibling_of NEW r
       then Address.with_is_default (Some false) r
       else r.

(** The row loop of [UPDATE addresses SET ... WHERE ...].  [targets] are
    the rows the statement selected, [written] the rows a trigger of this
    statement has written since.  A selected row that such a trigger wrote
    cannot be updated any more and fails the statement.  The SET clause
    [set] computes the new row from the old one; the primary key is not
    assigned. *)
Fixpoint update_rows (set : Address.row -> Address.row)
    (targets : list uuid) (written : list uuid) (t : Address.table)
  : result Address.table :=
  match targets with
  | [] => Ok t
  | i :: rest =>
      if existsb (N.eqb i) written then Error triggered_data_change_violation
      else
        match find (has_id i) t with
        | None => update_rows set rest written t
        | Some OLD =>
            let NEW := Address.with_id (Address.id OLD) (set OLD) in
            let '(NEW', t1) := ensure_single_default_address NEW t in
            update_rows set rest (written ++ rows_written_by_trigger NEW t)
              (replace_row i NEW' t1)
        end
  end.

Definition update_addresses (where_ : Address.row -> bool)
    (set : Address.row -> Address.row) (t : Address.table)
  : result Address.table :=
  update_rows set (map Address.id (filter where_ t)) [] t.

(** [DELETE FROM addresses WHERE ...]; no trigger is attached to it. *)
Definition delete_addresses (where_ : Address.row -> bool)
    (t : Address.table) : Address.table :=
  filter (fun r => negb (where_ r)) t.

(** The committed writes to [addresses]. *)
Inductive address_write : Type :=
| InsertAddress (NEW : Address.row)
| UpdateAddresses (where_ : Address.row -> bool) (set : Address.row -> Address.row)
| DeleteAddresses (where_ : Address.row -> bool).

Definition run_address_write (w : address_write) (t : Address.table)
  : result Address.table :=
  match w with
  | InsertAddress NEW => insert_address NEW t
  | UpdateAddresses where_ set => update_addresses where_ set t
  | DeleteAddresses where_ => Ok (delete_addresses where_ t)
  end.

(** Tables reached from the empty one by committed writes. *)
Inductive addresses_reachable : Address.table -> Prop :=
| addresses_empty : addresses_reachable []
| addresses_commit : forall w t t',
    addresses_reachable t ->
    run_address_write w t = Ok t' ->
    addresses_reachable t'.

(** The number of rows of [u] with [is_default = true]. *)
Definition is_default_of (u : uuid) (r : Address.row) : bool :=
  N.eqb (Address.user_id r) u && is_true (Address.is_default r).

Definition default_count (u : uuid) (t : Address.table) : nat :=
  List.length (filter (is_default_of u) t).

(** What every committed state of [addresses] satisfies: the primary key
    and at most one default address per user. *)
Definition addresses_ok (t : Address.table) : Prop :=
  NoDup (map Address.id t) /\ forall u, (default_count u t <= 1)%nat.

(** ** setAsDefault of the address page

    Two requests: clear the flag on all rows of the user, then set it on
    the chosen row.  The result of the first is not inspected; a failure
    of the second is shown as a message. *)
Definition setAsDefault (user : uuid) (addressId : uuid)
    (t : Address.table) : result Address.table :=
  let t1 :=
    match update_addresses (fun r => N.eqb (Address.user_id r) user)
            (Address.with_is_default (Some false)) t with
    | Ok t' => t'
    | Error _ => t
    end in
  update_addresses (has_id addressId) (Address.with_is_default (Some true)) t1.

(** What making one row the default of its user achieves: the operation
    commits, keeps the rows' identifiers, sets the flag on the row and
    clears it on the user's other rows. *)
Definition makes_default
    (op : uuid -> uuid -> Address.table -> result Address.table) : Prop :=
  forall u t OLD,
    NoDup (map Address.id t) -> In OLD t -> Address.user_id OLD = u ->
    exists t',
      op u (Address.id OLD) t = Ok t'
      /\ map Address.id t' = map Address.id t
      /\ In (Address.with_is_default (Some true) OLD) t'
      /\ (forall r, In r t -> Address.user_id r = u ->
                    Address.id r <> Address.id OLD ->
                    In (Address.with_is_default (Some false) r) t')
      /\ default_count u t' = 1%nat.

(* ===================================================================== *)
(** * Table orders *)
(* ===================================================================== *)

Inductive order_status : Type :=
| status_pending | status_confirmed | status_processing
| status_shipped | status_delivered | status_cancelled.

Inductive payment_status : Type :=
| payment_pending | payment_paid | payment_failed | payment_refunded.

(** The JSON object stored in [orders.shipping_address]. *)
Module ShippingAddress.

Record json : Type := mk {
  name : string;
  address_line_1 : string;
  address_line_2 : nullable string;
  city : string;
  state : nullable string;
  postal_code : string;
  country : string;
  phone : nullable string
}.

End ShippingAddress.

Module Order.

(** One row of [orders], over the type [T] of its [order_number]: a
    candidate row handed to the BEFORE INSERT trigger may still have it
    NULL, a stored row has a text.  The columns no modelled statement
    writes (billing_address, payment_id, notes, the timestamps) are left
    out. *)
Record row_ (T : Type) : Type := mk {
  id : uuid;
  order_number : T;
  user_id : uuid;
  status : order_status;
  payment_status : payment_status;
  total_amount : Q;
  shipping_amount : nullable Q;
  tax_amount : nullable Q;
  discount_amount : nullable Q;
  currency : nullable string;
  shipping_address : ShippingAddress.json;
  payment_method : nullable string
}.

Arguments mk {T}.
Arguments id {T}.
Arguments order_number {T}.
Arguments user_id {T}.
Arguments status {T}.
Arguments payment_status {T}.
Arguments total_amount {T}.
Arguments shipping_amount {T}.
Arguments tax_amount {T}.
Arguments discount_amount {T}.
Arguments currency {T}.
Arguments shipping_address {T}.
Arguments payment_method {T}.

Definition candidate : Type := row_ (nullable string).
Definition row : Type := row_ string.
Definition table : Type := list row.

Definition with_order_number {T U : Type} (n : U) (r : row_ T) : row_ U :=
  mk (id r) n (user_id r) (status r) (payment_status r) (total_amount r)
     (shipping_amount r) (tax_amount r) (discount_amount r) (currency r)
     (shipping_address r) (payment_method r).

End Order.

(** [x IS NULL OR x = ''] *)
Definition null_or_empty (x : nullable string) : bool :=
  match x with
  | None => true
  | Some s => String.eqb s ""
  end.

(** ['ORD-' || today || '-%'], where [today] is
    [TO_CHAR(NOW(), 'YYYYMMDD')]: the server's clock is an input. *)
Definition today_pattern (today : string) : string :=
  ("ORD-" ++ today ++ "-%")%string.

(** The scalar subquery of set_order_number:
    [SELECT COALESCE(MAX(CAST(SUBSTRING(order_number FROM 14) AS INTEGER)), 0) + 1
     FROM orders WHERE order_number LIKE 'ORD-' || today || '-%'].
    The cast is evaluated on every selected row and any failure of it
    fails the query. *)
Definition next_order_counter (today : string) (t : Order.table) : result Z :=
  suffixes <-
    mapM (fun r => cast_integer (substring_from (Order.order_number r) 14))
      (filter (fun r => sql_like (today_pattern today) (Order.order_number r)) t) ;;
  int4pl (coalesce (sql_max suffixes) 0) 1.

Definition generated_order_number (today : string) (t : Order.table)
  : result string :=
  n <- next_order_counter today t ;;
  Ok ("ORD-" ++ today ++ "-" ++ lpad (int_to_text n) 4 "0")%string.

(** The trigger function of the schema migration. *)
Definition set_order_number (today : string) (t : Order.table)
    (NEW : Order.candidate) : result Order.candidate :=
  if null_or_empty (Order.order_number NEW) then
    n <- generated_order_number today t ;;
    Ok (Order.with_order_number (Some n) NEW)
  else Ok NEW.

(** The function as the migration "Create order number function" defines
    it, without the test on [NEW.order_number]. *)
Module CreateOrderNumberFunction.

Definition set_order_number (today : string) (t : Order.table)
    (NEW : Order.candidate) : result Order.candidate :=
  n <- generated_order_number today t ;;
  Ok (Order.with_order_number (Some n) NEW).

End CreateOrderNumberFunction.

Definition has_order_id (i : uuid) (r : Order.row) : bool :=
  N.eqb (Order.id r) i.

Definition has_order_number (n : string) (r : Order.row) : bool :=
  String.eqb (Order.order_number r) n.

(** [INSERT INTO orders]: the BEFORE INSERT trigger, then
    [order_number NOT NULL], the primary key and [order_number UNIQUE].
    Returns the stored row (as [.select().single()] reads it back) and the
    new table. *)
Definition insert_order (today : string) (NEW : Order.candidate)
    (t : Order.table) : result (Order.row * Order.table) :=
  NEW' <- set_order_number today t NEW ;;
  match Order.order_number NEW' with
  | None => Error not_null_violation
  | Some n =>
      if existsb (has_order_id (Order.id NEW')) t
         || existsb (has_order_number n) t
      then Error unique_violation
      else
        let stored := Order.with_order_number n NEW' in
        Ok (stored, t ++ [stored])
  end.

(* ===================================================================== *)
(** * Orders under row-level security *)
(* ===================================================================== *)

(** The policy "Users can read own orders": the rows of [orders] a query
    sent with the session of [user] reads. *)
Definition own_orders (user : uuid) (t : Order.table) : Order.table :=
  filter (fun r => N.eqb (Order.user_id r) user) t.

(** How a statement sent with the session of a signed-in user ends: a
    row-level policy refuses the new row, or the statement runs to its
    result. *)
Inductive as_user (A : Type) : Type :=
| refused_by_policy
| ran (outcome : result A).

Arguments refused_by_policy {A}.
Arguments ran {A} outcome.

(** [INSERT INTO orders] sent by the signed-in [user], as the checkout
    page sends it.  set_order_number is not declared SECURITY DEFINER, so
    its query runs as the user and reads [orders] through the policy on
    reading; the policy "Users can create own orders" then checks the new
    row; NOT NULL, the primary key and [order_number UNIQUE] are checked
    on the table as a whole. *)
Definition insert_order_as (user : uuid) (today : string)
    (NEW : Order.candidate) (t : Order.table)
  : as_user (Order.row * Order.table) :=
  match set_order_number today (own_orders user t) NEW with
  | Error e => ran (Error e)
  | Ok NEW' =>
      if negb (N.eqb (Order.user_id NEW') user) then refused_by_policy
      else
        match Order.order_number NEW' with
        | None => ran (Error not_null_violation)
        | Some n =>
            if existsb (has_order_id (Order.id NEW')) t
               || existsb (has_order_number n) t
            then ran (Error unique_violation)
            else
              let stored := Order.with_order_number n NEW' in
              ran (Ok (stored, t ++ [stored]))
        end
  end.

(** [UPDATE orders SET ... WHERE id = i] of one row, the primary key not
    assigned; [order_number UNIQUE] is checked against the other rows.  No
    trigger is attached to updates of [orders]. *)
Definition update_order (i : uuid) (set : Order.row -> Order.row)
    (t : Order.table) : result Order.table :=
  match find (has_order_id i) t with
  | None => Ok t
  | Some OLD =>
      let NEW :=
        Order.mk (Order.id OLD) (Order.order_number (set OLD))
          (Order.user_id (set OLD)) (Order.status (set OLD))
          (Order.payment_status (set OLD)) (Order.total_amount (set OLD))
          (Order.shipping_amount (set OLD)) (Order.tax_amount (set OLD))
          (Order.discount_amount (set OLD)) (Order.currency (set OLD))
          (Order.shipping_address (set OLD)) (Order.payment_method (set OLD)) in
      if existsb (fun r => negb (has_order_id i r)
                           && has_order_number (Order.order_number NEW) r) t
      then Error unique_violation
      else Ok (map (fun r => if has_order_id i r then NEW else r) t)
  end.

Definition delete_orders (where_ : Order.row -> bool) (t : Order.table)
  : Order.table :=
  filter (fun r => negb (where_ r)) t.

Inductive order_write : Type :=
| InsertOrder (today : string) (NEW : Order.candidate)
| UpdateOrder (i : uuid) (set : Order.row -> Order.row)
| DeleteOrders (where_ : Order.row -> bool).

Definition run_order_write (w : order_write) (t : Order.table)
  : result Order.table :=
  match w with
  | InsertOrder today NEW => r <- insert_order today NEW t ;; Ok (snd r)
  | UpdateOrder i set => update_order i set t
  | DeleteOrders where_ => Ok (delete_orders where_ t)
  end.

Inductive orders_reachable : Order.table -> Prop :=
| orders_empty : orders_reachable []
| orders_commit : forall w t t',
    orders_reachable t ->
    run_order_write w t = Ok t' ->
    orders_reachable t'.

(** What every committed state of [orders] satisfies: the primary key and
    [order_number UNIQUE]. *)
Definition orders_ok (t : Order.table) : Prop :=
  NoDup (map Order.id t) /\ NoDup (map Order.order_number t).

(** ** The reading of the specification

    A counter written in decimal with zeros in front up to four digits,
    and the order number made of it. *)
Definition zero_padded_4 (n : nat) : string :=
  let s := NilEmpty.string_of_uint (Nat.to_uint n) in
  (fill_with "0" "0" (4 - String.length s) ++ s)%string.

Definition order_number_of (day : string) (n : nat) : string :=
  ("ORD-" ++ day ++ "-" ++ zero_padded_4 n)%string.

(** A day as [TO_CHAR(..., 'YYYYMMDD')] writes it: eight digits. *)
Definition is_digit (c : ascii) : bool :=
  match digit_value c with Some _ => true | None => false end.

Definition is_YYYYMMDD (day : string) : bool :=
  (String.length day =? 8)%nat && forallb is_digit (list_ascii_of_string day).

(** A pattern character that stands for itself. *)
Definition plain_char (c : ascii) : bool :=
  negb (Ascii.eqb c "%") && negb (Ascii.eqb c "_") && negb (Ascii.eqb c "\").

Definition plain_text (p : string) : bool :=
  forallb plain_char (list_ascii_of_string p).

(** The prefix of the order numbers of a day. *)
Definition day_prefix (day : string) : string :=
  ("ORD-" ++ day ++ "-")%string.

(** The order numbers of the rows of a day, in table order. *)
Definition numbers_of_day (day : string) (t : Order.table) : list string :=
  filter (String.prefix (day_prefix day)) (map Order.order_number t).

(** The value the subquery reads off a row; 0 where the cast fails. *)
Definition suffix_value (r : Order.row) : Z :=
  match cast_integer (substring_from (Order.order_number r) 14) with
  | Ok z => z
  | Error _ => 0
  end.

(** The checks behind the facts on counters up to 9999. *)
Definition counter_reads_back (k : nat) : bool :=
  match cast_integer (zero_padded_4 k) with
  | Ok z => Z.eqb z (Z.of_nat k)
  | Error _ => false
  end.

Definition counter_is_padded (k : nat) : bool :=
  String.eqb (lpad (int_to_text (Z.of_nat k)) 4 "0") (zero_padded_4 k).

(** A sample order row with the given identifier and order number. *)
Definition plain_address : ShippingAddress.json :=
  ShippingAddress.mk "Ada" "1 Main St" None "Springfield" None "12345"
    "United States" None.

Definition plain_order {T : Type} (i : uuid) (n : T) : Order.row_ T :=
  Order.mk i n 1%N status_confirmed payment_pending 0%Q (Some 0%Q) (Some 0%Q)
    (Some 0%Q) (Some "USD") plain_address (Some "cod").

(** The orders of one day numbered 1 to [n]. *)
Definition day_orders (day : string) (n : nat) : Order.table :=
  map (fun k => plain_order (N.of_nat k) (order_number_of day k)) (seq 1 n).

(* ===================================================================== *)
(** * Checkout *)
(* ===================================================================== *)

(** ** Numbers of the client

    Amounts on the client are JavaScript numbers, that is binary64
    floating point.  A finite number is taken by its value, a rational;
    [None] stands for the numbers that are not finite.  A literal and a
    product are the exact value rounded to the nearest number, ties to the
    even significand. *)

(** The [e] with [2^e <= |x| < 2^(e+1)], for [x] other than 0. *)
Definition binary_exponent (x : Q) : Z :=
  let k := Z.log2 (Z.abs (Qnum x)) - Z.log2 (Zpos (Qden x)) in
  if Qle_bool (2 ^ k) (Qabs x) then k else k - 1.

Definition round_half_even (x : Q) : Z :=
  let q := Qfloor x in
  match Qcompare (x - inject_Z q) (1 # 2) with
  | Lt => q
  | Gt => q + 1
  | Eq => if Z.even q then q else q + 1
  end.

(** The binary64 number nearest to [x]: 53 significant bits, steps of
    [2^-1074] at the least, and nothing finite from [2^1024] on. *)
Definition binary64 (x : Q) : option Q :=
  if Qeq_bool x 0 then Some 0%Q
  else
    let e := Z.max (binary_exponent x - 52) (-1074) in
    let r := (inject_Z (round_half_even (x / 2 ^ e)) * 2 ^ e)%Q in
    if Qle_bool (2 ^ 1024) (Qabs r) then None else Some r.

Module Js.

Definition number : Type := option Q.

(** A decimal literal of the source, and a decimal read by JSON.parse. *)
Definition literal (q : Q) : number := binary64 q.

(** [x * y] *)
Definition times (x y : number) : number :=
  match x, y with
  | Some a, Some b => binary64 (a * b)
  | _, _ => None
  end.

End Js.

(** ** Numbers as JSON.stringify writes them

    A finite number is written as the decimal with the fewest digits that
    reads back as the same number and, among those, the one nearest to
    it; a number that is not finite is written as null.  A decimal is
    taken by its value. *)

(** The [n] with [10^n <= x < 10^(n+1)], looked for around a guess. *)
Fixpoint lower_exponent (fuel : nat) (x : Q) (n : Z) : Z :=
  match fuel with
  | O => n
  | S fuel' => if Qle_bool (10 ^ n) x then n else lower_exponent fuel' x (n - 1)
  end.

Fixpoint raise_exponent (fuel : nat) (x : Q) (n : Z) : Z :=
  match fuel with
  | O => n
  | S fuel' =>
      if Qle_bool (10 ^ (n + 1)) x then raise_exponent fuel' x (n + 1) else n
  end.

Definition decimal_exponent (x : Q) : Z :=
  let guess := binary_exponent x * 1233 / 4096 in
  lower_exponent 4 (Qabs x) (raise_exponent 4 (Qabs x) guess).

Definition reads_back (x v : Q) : bool :=
  match binary64 v with
  | Some d => Qeq_bool d x
  | None => false
  end.

(** The decimal of [k] digits that reads back as [x], the nearer of the
    two next to [x] when both do; none when neither does. *)
Definition decimal_of_digits (x : Q) (k : Z) : option Q :=
  let unit := (10 ^ (decimal_exponent x + 1 - k))%Q in
  let s := Qfloor (Qabs x / unit) in
  let low := (inject_Z s * unit)%Q in
  let high := (inject_Z (s + 1) * unit)%Q in
  let signed (v : Q) := if Qle_bool 0 x then v else (- v)%Q in
  match reads_back (Qabs x) low, reads_back (Qabs x) high with
  | false, false => None
  | true, false => Some (signed low)
  | false, true => Some (signed high)
  | true, true =>
      match Qcompare (Qabs x - low) (high - Qabs x) with
      | Lt => Some (signed low)
      | Gt => Some (signed high)
      | Eq => Some (signed (if Z.even s then low else high))
      end
  end.

(** From [k] digits on, up to [fuel] more.  Seventeen digits tell any two
    numbers apart, so the search ends before the fuel does. *)
Fixpoint shortest_decimal (fuel : nat) (x : Q) (k : Z) : Q :=
  match fuel with
  | O => x
  | S fuel' =>
      match decimal_of_digits x k with
      | Some v => v
      | None => shortest_decimal fuel' x (k + 1)
      end
  end.

Definition number_text (x : Q) : Q :=
  if Qeq_bool x 0 then 0%Q else shortest_decimal 17 x 1.

(** [JSON.stringify] on a number: the value of the text, or null. *)
Definition JSON_number (x : Js.number) : nullable Q :=
  match x with
  | Some v => Some (number_text v)
  | None => None
  end.




(** ** Amounts of the server

    The columns are [decimal(10,2)]: a value written to one is rounded to
    two decimals, half away from zero, and must then have at most eight
    digits before the point. *)
Definition round_half_away (x : Q) : Z :=
  let n := Qnum x in
  let d := Zpos (Qden x) in
  Z.sgn n * ((2 * Z.abs n + d) / (2 * d)).

Definition numeric_10_2 (x : Q) : result Q :=
  let cents := round_half_away (x * 100) in
  if Z.abs cents <? 10 ^ 10 then Ok (cents # 100)
  else Error numeric_value_out_of_range.

(** A JSON value written to such a column: null is stored as NULL. *)
Definition numeric_10_2_of (x : nullable Q) : result (nullable Q) :=
  match x with
  | None => Ok None
  | Some q => y <- numeric_10_2 q ;; Ok (Some y)
  end.

Module Product.

(** A row of [products] as the client holds it, the columns the checkout
    reads; the price is a finite number. *)
Record row : Type := mk {
  id : uuid;
  name : string;
  sku : nullable string;
  price : Q
}.

End Product.

Module CartItem.

(** A cart item as the cart context holds it, its product embedded. *)
Record json : Type := mk {
  product_id : uuid;
  quantity : Z;
  product : Product.row
}.

End CartItem.

Module OrderItem.

(** The columns an order item is sent with, over the type [P] of the two
    prices: JSON values in the array sent, amounts in a stored row. *)
Record item_ (P : Type) : Type := mk_json {
  order_id : uuid;
  product_id : uuid;
  product_name : string;
  product_sku : nullable string;
  quantity : Z;
  unit_price : P;
  total_price : P
}.

Arguments mk_json {P}.
Arguments order_id {P}.
Arguments product_id {P}.
Arguments product_name {P}.
Arguments product_sku {P}.
Arguments quantity {P}.
Arguments unit_price {P}.
Arguments total_price {P}.

(** One element of the array sent to [order_items]. *)
Definition json : Type := item_ (nullable Q).

(** A stored row: the columns with the generated identifier. *)
Record row : Type := mk {
  id : uuid;
  item : item_ Q
}.

End OrderItem.

Module OrderData.

(** The object sent to [orders]; the amounts are JSON values. *)
Record json : Type := mk {
  user_id : uuid;
  total_amount : nullable Q;
  shipping_amount : nullable Q;
  tax_amount : nullable Q;
  discount_amount : nullable Q;
  currency : string;
  shipping_address : ShippingAddress.json;
  payment_method : string;
  payment_status : payment_status;
  status : order_status
}.

End OrderData.

Record database : Type := mk_database {
  addresses : Address.table;
  orders : Order.table;
  order_items : list OrderItem.row;
  products : list Product.row
}.

Definition with_addresses (t : Address.table) (db : database) : database :=
  mk_database t (orders db) (order_items db) (products db).

Definition with_orders (t : Order.table) (db : database) : database :=
  mk_database (addresses db) t (order_items db) (products db).

Definition with_order_items (t : list OrderItem.row) (db : database)
  : database :=
  mk_database (addresses db) (orders db) t (products db).

(** What the server decides on its own during one checkout: the day, the
    identifiers it generates, and the text of its error messages. *)
Record environment : Type := mk_environment {
  today : string;
  new_order_id : uuid;
  new_item_id : nat -> uuid;
  message : sqlstate -> string
}.

(** [supabase.from('orders').insert(orderData).select().single()].  The
    request goes out with the session of the signed-in user, whose
    identifier the page has put into [user_id]; the insert runs as that
    user.  The amounts are brought to their columns first; a total of
    null then fails [total_amount NOT NULL], once the trigger has run. *)
Definition orders_insert (env : environment) (d : OrderData.json)
    (db : database) : result (Order.row * database) :=
  total <- numeric_10_2_of (OrderData.total_amount d) ;;
  shipping <- numeric_10_2_of (OrderData.shipping_amount d) ;;
  tax <- numeric_10_2_of (OrderData.tax_amount d) ;;
  discount <- numeric_10_2_of (OrderData.discount_amount d) ;;
  let user := OrderData.user_id d in
  let NEW (total_amount : Q) : Order.candidate :=
    Order.mk (new_order_id env) None user
      (OrderData.status d) (OrderData.payment_status d) total_amount
      shipping tax discount
      (Some (OrderData.currency d)) (OrderData.shipping_address d)
      (Some (OrderData.payment_method d)) in
  match total with
  | Some total_amount =>
      match insert_order_as user (today env) (NEW total_amount) (orders db)
      with
      | refused_by_policy => Error insufficient_privilege
      | ran outcome => r <- outcome ;; Ok (fst r, with_orders (snd r) db)
      end
  | None =>
      match set_order_number (today env) (own_orders user (orders db))
              (NEW 0%Q) with
      | Ok _ => Error not_null_violation
      | Error e => Error e
      end
  end.

(** One row of the batch: the two prices go through [decimal(10,2)] and
    must not be NULL, the row must reference an order and a product that
    exist, and its identifier must be new. *)
Definition order_item_row (db : database) (stored : list OrderItem.row)
    (i : uuid) (x : OrderItem.json) : result OrderItem.row :=
  unit <- numeric_10_2_of (OrderItem.unit_price x) ;;
  total <- numeric_10_2_of (OrderItem.total_price x) ;;
  match unit, total with
  | Some unit_price, Some total_price =>
      if negb (existsb (has_order_id (OrderItem.order_id x)) (orders db))
         || negb (existsb
                    (fun p => N.eqb (Product.id p) (OrderItem.product_id x))
                    (products db))
      then Error foreign_key_violation
      else if existsb (fun r => N.eqb (OrderItem.id r) i) stored
      then Error unique_violation
      else
        Ok (OrderItem.mk i
              (OrderItem.mk_json (OrderItem.order_id x)
                 (OrderItem.product_id x) (OrderItem.product_name x)
                 (OrderItem.product_sku x) (OrderItem.quantity x)
                 unit_price total_price))
  | _, _ => Error not_null_violation
  end.

Fixpoint order_item_rows (env : environment) (db : database)
    (stored : list OrderItem.row) (k : nat) (xs : list OrderItem.json)
  : result (list OrderItem.row) :=
  match xs with
  | [] => Ok stored
  | x :: xs' =>
      r <- order_item_row db stored (new_item_id env k) x ;;
      order_item_rows env db (stored ++ [r]) (S k) xs'
  end.

(** [supabase.from('order_items').insert(orderItems)]: one statement, all
    rows or none. *)
Definition order_items_insert (env : environment)
    (xs : list OrderItem.json) (db : database) : result database :=
  rows <- order_item_rows env db (order_items db) 0 xs ;;
  Ok (with_order_items rows db).

(** What [useCart()] hands to the page; the total is a finite number. *)
Class CartContext (cart : Type) : Type := {
  cartItems : cart -> list CartItem.json;
  getCartTotal : cart -> Q;
  clearCart : cart -> cart
}.

Definition line_total (item : CartItem.json) : Q :=
  Product.price (CartItem.product item) * inject_Z (CartItem.quantity item).

Definition subtotal (items : list CartItem.json) : Q :=
  fold_right (fun item acc => (line_total item + acc)%Q) 0%Q items.

(** Modelled from the spec: the cart context, whose source is not among
    the files at hand.  The cart is its list of items, its total the sum
    over the items of unit price times quantity (for a cart of one item
    of quantity 1, as used below, the price itself), and clearing leaves
    no item. *)
#[export] Instance list_cart : CartContext (list CartItem.json) := {
  cartItems := fun c => c;
  getCartTotal := subtotal;
  clearCart := fun _ => []
}.

Record payment_form : Type := mk_payment_form {
  cardNumber : string;
  expiryDate : string;
  cvv : string;
  cardName : string
}.

(** The state of the page that handlePaymentSubmit writes. *)
Record page : Type := mk_page {
  currentStep : Z;
  loading : bool;
  error : string;
  orderPlaced : bool;
  newOrderId : nullable string
}.

(** The requests a submission makes, in order, each with its outcome. *)
Inductive request : Type :=
| orders_insert_request (outcome : result Order.row)
| order_items_insert_request (outcome : result unit)
| clearCart_request.

Record world (cart : Type) : Type := mk_world {
  db : database;
  cart_state : cart;
  ui : page;
  requests : list request
}.

Arguments mk_world {cart}.
Arguments db {cart}.
Arguments cart_state {cart}.
Arguments ui {cart}.
Arguments requests {cart}.

(** [!s.trim()]: nothing but blanks (those of ASCII). *)
Definition blank (s : string) : bool :=
  forallb isspace (list_ascii_of_string s).

(** The test in front of the try block: card payment with a field left
    blank. *)
Definition card_details_missing (paymentMethod : string)
    (paymentForm : payment_form) : bool :=
  String.eqb paymentMethod "card"
  && (blank (cardNumber paymentForm) || blank (expiryDate paymentForm)
      || blank (cvv paymentForm) || blank (cardName paymentForm)).

Definition shipping_address_of (a : Address.row) : ShippingAddress.json :=
  ShippingAddress.mk (Address.name a) (Address.address_line_1 a)
    (Address.address_line_2 a) (Address.city a) (Address.state a)
    (Address.postal_code a) (Address.country a) (Address.phone a).

(** The element of the array built from one cart item for an order, as
    JSON.stringify writes it: [unit_price] is the price, [total_price] the
    product [item.product.price * item.quantity] of two numbers. *)
Definition order_item_of (order : Order.row) (item : CartItem.json)
  : OrderItem.json :=
  let price : Js.number := Some (Product.price (CartItem.product item)) in
  let quantity : Js.number := Some (inject_Z (CartItem.quantity item)) in
  OrderItem.mk_json (Order.id order) (CartItem.product_id item)
    (Product.name (CartItem.product item))
    (Product.sku (CartItem.product item))
    (CartItem.quantity item)
    (JSON_number price)
    (JSON_number (Js.times price quantity)).

Section Checkout.

Context {cart : Type} `{CartContext cart}.

(** The object [orderData] of the try block, as JSON.stringify writes
    it: the total and the tax are the products [getCartTotal() * 1.08]
    and [getCartTotal() * 0.08] of two numbers. *)
Definition make_orderData (user : uuid) (selectedAddress : Address.row)
    (paymentMethod : string) (c : cart) : OrderData.json :=
  OrderData.mk user
    (JSON_number (Js.times (Some (getCartTotal c)) (Js.literal 1.08)))
    (JSON_number (Js.literal 0))
    (JSON_number (Js.times (Some (getCartTotal c)) (Js.literal 0.08)))
    (JSON_number (Js.literal 0))
    "USD"
    (shipping_address_of selectedAddress)
    paymentMethod
    (if String.eqb paymentMethod "cod" then payment_pending else payment_paid)
    status_confirmed.

(** The array [orderItems]: [cartItems.map(item => ...)]. *)
Definition make_orderItems (order : Order.row) (c : cart)
  : list OrderItem.json :=
  map (order_item_of order) (cartItems c).

(** The catch and finally blocks. *)
Definition placing_failed (env : environment) (e : sqlstate)
    (w : world cart) : world cart :=
  let text :=
    if String.eqb (message env e) "" then "Please try again."
    else message env e in
  mk_world (db w) (cart_state w)
    (mk_page (currentStep (ui w)) false
       ("Error placing order: " ++ text)%string
       (orderPlaced (ui w)) (newOrderId (ui w)))
    (requests w).

(** The handler of the payment form.  It resets the error and raises the
    loading flag, stops on missing card details, and otherwise inserts the
    order, inserts its items, clears the cart and shows the confirmation;
    a rejected insert leaves the rest undone and ends in the catch block.
    [clearCart] is taken not to fail. *)
Definition handlePaymentSubmit (env : environment) (user : uuid)
    (selectedAddress : Address.row) (paymentMethod : string)
    (paymentForm : payment_form) (w0 : world cart) : world cart :=
  let w :=
    mk_world (db w0) (cart_state w0)
      (mk_page (currentStep (ui w0)) true "" (orderPlaced (ui w0))
         (newOrderId (ui w0)))
      (requests w0) in
  if card_details_missing paymentMethod paymentForm
  then
    mk_world (db w) (cart_state w)
      (mk_page (currentStep (ui w)) false "Please fill in all card details"
         (orderPlaced (ui w)) (newOrderId (ui w)))
      (requests w)
  else
    let orderData :=
      make_orderData user selectedAddress paymentMethod (cart_state w) in
    match orders_insert env orderData (db w) with
    | Error e =>
        placing_failed env e
          (mk_world (db w) (cart_state w) (ui w)
             (requests w ++ [orders_insert_request (Error e)]))
    | Ok (order, db1) =>
        let w1 :=
          mk_world db1 (cart_state w) (ui w)
            (requests w ++ [orders_insert_request (Ok order)]) in
        let orderItems := make_orderItems order (cart_state w1) in
        match order_items_insert env orderItems (db w1) with
        | Error e =>
            placing_failed env e
              (mk_world (db w1) (cart_state w1) (ui w1)
                 (requests w1 ++ [order_items_insert_request (Error e)]))
        | Ok db2 =>
            mk_world db2 (clearCart (cart_state w1))
              (mk_page 3 false (error (ui w1)) true
                 (Some (Order.order_number order)))
              (requests w1
                 ++ [order_items_insert_request (Ok tt); clearCart_request])
        end
    end.

End Checkout.

(** Writes to [addresses] seen from the whole database. *)
Definition run_address_write_db (w : address_write) (d : database)
  : result database :=
  t <- run_address_write w (addresses d) ;;
  Ok (with_addresses t d).

Fixpoint run_address_writes (ws : list address_write) (d : database)
  : result database :=
  match ws with
  | [] => Ok d
  | w :: ws' => d' <- run_address_write_db w d ;; run_address_writes ws' d'
  end.

(* ===================================================================== *)
(** * Sample data *)
(* ===================================================================== *)

(** Two addresses of user 1 and one of user 2. *)
Definition address_A : Address.row :=
  Address.mk 10%N 1%N (Some home) "Ada" "1 Main St" None "Springfield" None
    "12345" "United States" None (Some true) None None.

Definition address_B : Address.row :=
  Address.mk 11%N 1%N (Some work) "Ada" "2 Side St" None "Springfield" None
    "12345" "United States" None (Some false) None None.

Definition address_C : Address.row :=
  Address.mk 12%N 2%N (Some other) "Bob" "3 High St" None "Shelbyville" None
    "54321" "United States" None (Some true) None None.

(** How an element of the array sent to [order_items] reads once stored:
    the two prices through [decimal(10,2)], the rest as sent. *)
Definition stored_as (x : OrderItem.json) (r : OrderItem.row) : Prop :=
  OrderItem.order_id (OrderItem.item r) = OrderItem.order_id x
  /\ OrderItem.product_id (OrderItem.item r) = OrderItem.product_id x
  /\ OrderItem.product_name (OrderItem.item r) = OrderItem.product_name x
  /\ OrderItem.product_sku (OrderItem.item r) = OrderItem.product_sku x
  /\ OrderItem.quantity (OrderItem.item r) = OrderItem.quantity x
  /\ numeric_10_2_of (OrderItem.unit_price x)
     = Ok (Some (OrderItem.unit_price (OrderItem.item r)))
  /\ numeric_10_2_of (OrderItem.total_price x)
     = Ok (Some (OrderItem.total_price (OrderItem.item r))).

(** An amount in whole cents. *)
Definition whole_cents (x : Q) : Prop := exists c : Z, (x == c # 100)%Q.


(** The requests of a submission that came as far as clearing the cart. *)
Definition completed_requests (order : Order.row) : list request :=
  [orders_insert_request (Ok order); order_items_insert_request (Ok tt);
   clearCart_request].

(** A yoga mat at 0.99, one of it in the cart of user 1, on the payment
    step of the checkout.  The price is 0.99 as the client reads it, the
    number [Js.literal 0.99]. *)
Definition yoga_mat : Product.row :=
  Product.mk 7%N "Yoga Mat Premium" (Some "YMP-006")
    (4458563631096791 # 4503599627370496).

Definition checkout_env : environment :=
  mk_environment "20250917" 100%N (fun k => N.of_nat (200 + k)) (fun _ => "").

Definition no_card : payment_form := mk_payment_form "" "" "" "".

Definition checkout_world : world (list CartItem.json) :=
  mk_world (mk_database [address_A; address_B; address_C] [] [] [yoga_mat])
    [CartItem.mk 7%N 1 yoga_mat]
    (mk_page 2 false "" false None) [].

(** The order that checkout stores for [checkout_world], and a rewrite of
    the address it was shipped to. *)
Definition yoga_order : Order.row :=
  Order.mk 100%N "ORD-20250917-0001" 1%N status_confirmed payment_pending
    (107 # 100) (Some (0 # 100)) (Some (8 # 100)) (Some (0 # 100))
    (Some "USD") (shipping_address_of address_A) (Some "cod").

Definition rewrite_address_A : address_write :=
  UpdateAddresses (has_id 10%N) (fun a =>
    Address.mk (Address.id a) (Address.user_id a) (Address.type a)
      "Ada L." "9 New Rd" None "Ogdenville" (Address.state a) "99999"
      (Address.country a) (Address.phone a) (Address.is_default a)
      (Address.created_at a) (Address.updated_at a)).

(** The same with a cart item whose product is gone from [products]. *)
Definition stale_cart_world : world (list CartItem.json) :=
  mk_world (mk_database [address_A; address_B; address_C] [] [] [])
    [CartItem.mk 7%N 1 yoga_mat]
    (mk_page 2 false "" false None) [].

(* ===================================================================== *)
(** * Orders inserted in a row *)
(* ===================================================================== *)

(** [INSERT INTO orders] once per candidate, one statement after the
    other on the same day; the first rejection ends the run. *)
Fixpoint insert_orders (today : string) (NEWs : list Order.candidate)
    (t : Order.table) : result Order.table :=
  match NEWs with
  | [] => Ok t
  | NEW :: rest =>
      r <- insert_order today NEW t ;;
      insert_orders today rest (snd r)
  end.

(* ===================================================================== *)
(** * The card form of the checkout page *)
(* ===================================================================== *)

(** Texts are taken character by character; the patterns [\s] and [\D]
    and [trim] are modelled on ASCII, where [\s] is [isspace]. *)

(** [s.replace(/p/g, '')] for a pattern [p] of one character class. *)
Fixpoint remove_where (p : ascii -> bool) (s : string) : string :=
  match s with
  | EmptyString => EmptyString
  | String c s' =>
      if p c then remove_where p s' else String c (remove_where p s')
  end.

(** [\D]: not a digit. *)
Definition not_digit (c : ascii) : bool := negb (is_digit c).

(** [.]: any character but a line terminator. *)
Definition dot (c : ascii) : bool :=
  negb (Ascii.eqb c "010" || Ascii.eqb c "013").

(** [s.replace(/(.{4})/g, '$1 ')]: from left to right, each run of four
    characters matched by [.] gets a blank after it; where no such run
    starts the character is copied. *)
Fixpoint group_of_four (s : string) : string :=
  match s with
  | EmptyString => EmptyString
  | String a s' =>
      match s' with
      | String b (String c (String d rest)) =>
          if dot a && dot b && dot c && dot d
          then String a (String b (String c (String d
                 (String " " (group_of_four rest)))))
          else String a (group_of_four s')
      | _ => String a (group_of_four s')
      end
  end.

Fixpoint trim_end (s : string) : string :=
  match s with
  | EmptyString => EmptyString
  | String c s' =>
      match trim_end s' with
      | EmptyString => if isspace c then EmptyString else String c EmptyString
      | rest => String c rest
      end
  end.

(** [s.trim()] *)
Definition trim (s : string) : string := trim_end (skip_spaces s).

(** The value the card-number input keeps of what was typed. *)
Definition format_card_number (value : string) : string :=
  trim (group_of_four (remove_where isspace value)).

(** The value the expiry input keeps: the digits, and from two digits on
    [substring(0, 2) + '/' + substring(2, 4)]. *)
Definition format_expiry_date (value : string) : string :=
  let digits := remove_where not_digit value in
  if (2 <=? String.length digits)%nat
  then (take 2 digits ++ "/" ++ take 2 (drop 2 digits))%string
  else digits.

(** The value the CVV input keeps. *)
Definition format_cvv (value : string) : string :=
  remove_where not_digit value.

(** The three [onChange] handlers that format, and the one that does
    not. *)
Definition change_cardNumber (value : string) (f : payment_form)
  : payment_form :=
  mk_payment_form (format_card_number value) (expiryDate f) (cvv f)
    (cardName f).

Definition change_expiryDate (value : string) (f : payment_form)
  : payment_form :=
  mk_payment_form (cardNumber f) (format_expiry_date value) (cvv f)
    (cardName f).

Definition change_cvv (value : string) (f : payment_form) : payment_form :=
  mk_payment_form (cardNumber f) (expiryDate f) (format_cvv value)
    (cardName f).

Definition change_cardName (value : string) (f : payment_form)
  : payment_form :=
  mk_payment_form (cardNumber f) (expiryDate f) (cvv f) value.

(** No character of [s] is matched by [p]. *)
Definition free_of (p : ascii -> bool) (s : string) : bool :=
  forallb (fun c => negb (p c)) (list_ascii_of_string s).

(* ===================================================================== *)
(** * The checkout page around the payment handler *)
(* ===================================================================== *)

(** [ORDER BY is_default DESC, created_at DESC], where DESC puts NULL
    first: rows with a NULL flag, then the flagged, then the others, each
    group from the newest to the oldest.  (The server leaves the order of
    rows that tie open; here they stay in table order.) *)
Definition flag_rank (a : Address.row) : nat :=
  match Address.is_default a with
  | None => 0
  | Some true => 1
  | Some false => 2
  end.

Definition created_not_before (a b : Address.row) : bool :=
  match Address.created_at a, Address.created_at b with
  | None, _ => true
  | Some _, None => false
  | Some x, Some y => y <=? x
  end.

Definition listed_before (a b : Address.row) : bool :=
  (flag_rank a <? flag_rank b)%nat
  || ((flag_rank a =? flag_rank b)%nat && created_not_before a b).

Fixpoint insert_listed (a : Address.row) (l : list Address.row)
  : list Address.row :=
  match l with
  | [] => [a]
  | b :: l' => if listed_before a b then a :: l else b :: insert_listed a l'
  end.

Definition order_addresses (l : list Address.row) : list Address.row :=
  fold_right insert_listed [] l.

(** [from('addresses').select('*').eq('user_id', user.id)
     .order('is_default', { ascending: false })
     .order('created_at', { ascending: false })] *)
Definition select_addresses_of (user : uuid) (t : Address.table)
  : list Address.row :=
  order_addresses (filter (fun r => N.eqb (Address.user_id r) user) t).

Module CheckoutPage.

(** The state of the page: what handlePaymentSubmit works on, and the
    rest of the [useState] values. *)
Record state (cart : Type) : Type := mk {
  site : world cart;
  addresses : list Address.row;
  selectedAddress : nullable Address.row;
  paymentMethod : string;
  paymentForm : payment_form
}.

Arguments mk {cart}.
Arguments site {cart}.
Arguments addresses {cart}.
Arguments selectedAddress {cart}.
Arguments paymentMethod {cart}.
Arguments paymentForm {cart}.

End CheckoutPage.

(** The page as it is mounted. *)
Definition checkout_start {cart : Type} (base : database) (c : cart)
  : CheckoutPage.state cart :=
  CheckoutPage.mk (mk_world base c (mk_page 1 false "" false None) [])
    [] None "cod" (mk_payment_form "" "" "" "").

Definition with_page {cart : Type} (p : page) (st : CheckoutPage.state cart)
  : CheckoutPage.state cart :=
  CheckoutPage.mk
    (mk_world (db (CheckoutPage.site st)) (cart_state (CheckoutPage.site st))
       p (requests (CheckoutPage.site st)))
    (CheckoutPage.addresses st) (CheckoutPage.selectedAddress st)
    (CheckoutPage.paymentMethod st) (CheckoutPage.paymentForm st).

Definition page_of {cart : Type} (st : CheckoutPage.state cart) : page :=
  ui (CheckoutPage.site st).

(** loadAddresses: the addresses of the user are fetched and shown, and
    the first of them with a true flag, if any, becomes the selected one.
    [fetched] tells whether the request came back with rows; when it did
    not, nothing changes. *)
Definition loadAddresses {cart : Type} (user : uuid) (fetched : bool)
    (st : CheckoutPage.state cart) : CheckoutPage.state cart :=
  if fetched then
    let data :=
      select_addresses_of user (addresses (db (CheckoutPage.site st))) in
    CheckoutPage.mk (CheckoutPage.site st) data
      (match find (fun addr => is_true (Address.is_default addr)) data with
       | Some defaultAddress => Some defaultAddress
       | None => CheckoutPage.selectedAddress st
       end)
      (CheckoutPage.paymentMethod st) (CheckoutPage.paymentForm st)
  else st.

(** handleAddressSubmit *)
Definition handleAddressSubmit {cart : Type} (st : CheckoutPage.state cart)
  : CheckoutPage.state cart :=
  let p := page_of st in
  match CheckoutPage.selectedAddress st with
  | None =>
      with_page
        (mk_page (currentStep p) (loading p) "Please select a shipping address"
           (orderPlaced p) (newOrderId p)) st
  | Some _ =>
      with_page (mk_page 2 (loading p) "" (orderPlaced p) (newOrderId p)) st
  end.

(** What can happen on the page: a request of loadAddresses comes back,
    the radio button of the [k]-th listed address is chosen, a button is
    pressed, a field is typed into. *)
Inductive checkout_event : Type :=
| addresses_loaded (fetched : bool)
| address_chosen (k : nat)
| address_submitted
| back_to_shipping
| method_chosen (value : string)
| cardNumber_typed (value : string)
| expiryDate_typed (value : string)
| cvv_typed (value : string)
| cardName_typed (value : string)
| payment_submitted (env : environment).

Section CheckoutEvents.

Context {cart : Type} `{CartContext cart}.

(** handlePaymentSubmit on the state of the page.  Without a selected
    address the object literal of the try block throws a TypeError, whose
    text [type_error] is the engine's, and the catch block shows it. *)
Definition submit_payment (env : environment) (user : uuid)
    (type_error : string) (st : CheckoutPage.state cart)
  : CheckoutPage.state cart :=
  match CheckoutPage.selectedAddress st with
  | Some selected =>
      CheckoutPage.mk
        (handlePaymentSubmit env user selected (CheckoutPage.paymentMethod st)
           (CheckoutPage.paymentForm st) (CheckoutPage.site st))
        (CheckoutPage.addresses st) (CheckoutPage.selectedAddress st)
        (CheckoutPage.paymentMethod st) (CheckoutPage.paymentForm st)
  | None =>
      let p := page_of st in
      if card_details_missing (CheckoutPage.paymentMethod st)
           (CheckoutPage.paymentForm st)
      then
        with_page
          (mk_page (currentStep p) false "Please fill in all card details"
             (orderPlaced p) (newOrderId p)) st
      else
        with_page
          (mk_page (currentStep p) false
             ("Error placing order: "
              ++ (if String.eqb type_error "" then "Please try again."
                  else type_error))%string
             (orderPlaced p) (newOrderId p)) st
  end.

Definition with_form (f : payment_form) (st : CheckoutPage.state cart)
  : CheckoutPage.state cart :=
  CheckoutPage.mk (CheckoutPage.site st) (CheckoutPage.addresses st)
    (CheckoutPage.selectedAddress st) (CheckoutPage.paymentMethod st) f.

(** One event on the page; [None] when the view on screen does not offer
    it: the address list and its form belong to step 1, the payment form
    and its buttons to step 2, and the confirmation offers neither. *)
Definition checkout_handle (user : uuid) (type_error : string)
    (ev : checkout_event) (st : CheckoutPage.state cart)
  : option (CheckoutPage.state cart) :=
  let p := page_of st in
  if orderPlaced p then
    match ev with
    | addresses_loaded fetched => Some (loadAddresses user fetched st)
    | _ => None
    end
  else
    match ev with
    | addresses_loaded fetched => Some (loadAddresses user fetched st)
    | address_chosen k =>
        match nth_error (CheckoutPage.addresses st) k with
        | Some address =>
            if currentStep p =? 1
            then Some (CheckoutPage.mk (CheckoutPage.site st)
                         (CheckoutPage.addresses st) (Some address)
                         (CheckoutPage.paymentMethod st)
                         (CheckoutPage.paymentForm st))
            else None
        | None => None
        end
    | address_submitted =>
        if (currentStep p =? 1)
           && negb (Nat.eqb (List.length (CheckoutPage.addresses st)) 0)
        then Some (handleAddressSubmit st) else None
    | back_to_shipping =>
        if currentStep p =? 2
        then Some (with_page (mk_page 1 (loading p) (error p) (orderPlaced p)
                                (newOrderId p)) st)
        else None
    | method_chosen value =>
        if (currentStep p =? 2)
           && (String.eqb value "cod" || String.eqb value "card")
        then Some (CheckoutPage.mk (CheckoutPage.site st)
                     (CheckoutPage.addresses st)
                     (CheckoutPage.selectedAddress st) value
                     (CheckoutPage.paymentForm st))
        else None
    | cardNumber_typed value =>
        if (currentStep p =? 2)
           && String.eqb (CheckoutPage.paymentMethod st) "card"
        then Some (with_form (change_cardNumber value
                                (CheckoutPage.paymentForm st)) st)
        else None
    | expiryDate_typed value =>
        if (currentStep p =? 2)
           && String.eqb (CheckoutPage.paymentMethod st) "card"
        then Some (with_form (change_expiryDate value
                                (CheckoutPage.paymentForm st)) st)
        else None
    | cvv_typed value =>
        if (currentStep p =? 2)
           && String.eqb (CheckoutPage.paymentMethod st) "card"
        then Some (with_form (change_cvv value
                                (CheckoutPage.paymentForm st)) st)
        else None
    | cardName_typed value =>
        if (currentStep p =? 2)
           && String.eqb (CheckoutPage.paymentMethod st) "card"
        then Some (with_form (change_cardName value
                                (CheckoutPage.paymentForm st)) st)
        else None
    | payment_submitted env =>
        if (currentStep p =? 2) && negb (loading p)
        then Some (submit_payment env user type_error st) else None
    end.

(** The states of the page from its mounting on. *)
Inductive checkout_reachable (user : uuid) (type_error : string)
  : CheckoutPage.state cart -> Prop :=
| checkout_mounted : forall base c,
    checkout_reachable user type_error (checkout_start base c)
| checkout_next : forall ev st st',
    checkout_reachable user type_error st ->
    checkout_handle user type_error ev st = Some st' ->
    checkout_reachable user type_error st'.

End CheckoutEvents.

(** What holds of the page in each of these states. *)
Definition checkout_page_ok {cart : Type} (st : CheckoutPage.state cart)
  : Prop :=
  let p := page_of st in
  (currentStep p = 1 \/ currentStep p = 2 \/ currentStep p = 3)
  /\ (currentStep p <> 1 -> CheckoutPage.selectedAddress st <> None)
  /\ (orderPlaced p = true <-> currentStep p = 3)
  /\ loading p = false.

(** The addresses on the page are the user's own. *)
Definition own_addresses {cart : Type} (user : uuid)
    (st : CheckoutPage.state cart) : Prop :=
  Forall (fun a => Address.user_id a = user) (CheckoutPage.addresses st)
  /\ forall a, CheckoutPage.selectedAddress st = Some a ->
               Address.user_id a = user.

(** The page of [checkout_world] as it is mounted, and after the
    addresses came in and the first step was submitted. *)
Definition checkout_page_mounted : CheckoutPage.state (list CartItem.json) :=
  checkout_start (db checkout_world) (cart_state checkout_world).

Definition checkout_page_on_payment : CheckoutPage.state (list CartItem.json) :=
  handleAddressSubmit (loadAddresses 1%N true checkout_page_mounted).

(* ===================================================================== *)
(** * Sample orders of two users *)
(* ===================================================================== *)

(** An order of another user numbered 0001 on 2025-09-17, and the first
    order of that day of user 2. *)
Definition order_of_user_1 : Order.row :=
  plain_order 1%N "ORD-20250917-0001".

Definition candidate_of_user_2 : Order.candidate :=
  Order.mk 2%N None 2%N status_confirmed payment_pending 0%Q (Some 0%Q)
    (Some 0%Q) (Some 0%Q) (Some "USD") plain_address (Some "cod").

(* ===================================================================== *)
(** * The address page *)
(* ===================================================================== *)

(** The policy "Users can manage own addresses": the rows of [addresses]
    a statement sent with the session of [user] reaches. *)
Definition own_row (user : uuid) (r : Address.row) : bool :=
  N.eqb (Address.user_id r) user.

(** What a handler catches: an object, of which formatSupabaseError reads
    the properties [message], [error] and [msg] (absent ones are [None])
    and, failing those, the text [String(error)]. *)
Module JsError.

Record t : Type := mk {
  message : nullable string;
  error : nullable string;
  msg : nullable string;
  as_string : string
}.

End JsError.

(** [new Error(text)] *)
Definition js_Error (text : string) : JsError.t :=
  JsError.mk (Some text) None None ("Error: " ++ text)%string.

(** A text that counts as true: present and not empty. *)
Definition truthy (x : nullable string) : bool :=
  match x with
  | Some s => negb (String.eqb s "")
  | None => false
  end.

(** Letters compared without regard to case, as the flag [i] of a regular
    expression does on ASCII. *)
Definition to_lower (c : ascii) : ascii :=
  let n := N_of_ascii c in
  if ((65 <=? n) && (n <=? 90))%N then ascii_of_N (n + 32) else c.

Fixpoint starts_with_ci (p s : string) : bool :=
  match p, s with
  | EmptyString, _ => true
  | String _ _, EmptyString => false
  | String a p', String b s' =>
      Ascii.eqb (to_lower a) (to_lower b) && starts_with_ci p' s'
  end.

(** [/p/i.test(s)] for a pattern [p] of literal characters. *)
Fixpoint icontains (p s : string) : bool :=
  starts_with_ci p s
  || match s with
     | EmptyString => false
     | String _ s' => icontains p s'
     end.

Definition network_error_text : string :=
  "Network error: failed to contact Supabase. Check your VITE_SUPABASE_URL and VITE_SUPABASE_ANON_KEY, network connection, and CORS settings (Supabase project settings).".

Definition missing_table_text : string :=
  "Address service is not available. Please apply the database migrations (see `supabase/migrations/20250917164827_super_band.sql`) and reload the Supabase schema cache.".

(** formatSupabaseError *)
Definition formatSupabaseError (error : JsError.t) : string :=
  let raw :=
    if truthy (JsError.message error) then coalesce (JsError.message error) ""
    else if truthy (JsError.error error) then coalesce (JsError.error error) ""
    else if truthy (JsError.msg error) then coalesce (JsError.msg error) ""
    else JsError.as_string error in
  if icontains "failed to fetch" raw || icontains "network request failed" raw
  then network_error_text
  else if icontains
            "Could not find the table 'public.addresses' in the schema cache"
            raw
  then missing_table_text
  else if truthy (JsError.message error)
  then coalesce (JsError.message error) ""
  else "An unexpected error occurred. Please try again.".

Module AddressForm.

(** [formData].  The texts come from inputs; [type] and [is_default] come
    from the radio buttons and the checkbox, or from the row handleEdit
    was given, where they may be NULL. *)
Record data : Type := mk {
  type : nullable address_type;
  name : string;
  address_line_1 : string;
  address_line_2 : string;
  city : string;
  state : string;
  postal_code : string;
  country : string;
  phone : string;
  is_default : nullable bool
}.

End AddressForm.

Module AddressesPage.

Record state : Type := mk {
  addresses : list Address.row;
  loading : bool;
  showForm : bool;
  editingAddress : nullable Address.row;
  saving : bool;
  message : string;
  formData : AddressForm.data
}.

End AddressesPage.

(** What the page does not decide: the identifier and the time the server
    gives a new row, the time of the browser, the text of the server's
    error messages, and whether the request of loadAddresses comes back
    with rows. *)
Record address_environment : Type := mk_address_environment {
  new_address_id : uuid;
  server_now : Z;
  browser_now : Z;
  error_text : sqlstate -> string;
  list_fetched : bool
}.

(** The error object of a rejected request. *)
Definition request_error (env : address_environment) (e : sqlstate)
  : JsError.t :=
  JsError.mk (Some (error_text env e)) None None "[object Object]".

(** resetForm *)
Definition blank_form : AddressForm.data :=
  AddressForm.mk (Some home) "" "" "" "" "" "" "United States" ""
    (Some false).

(** [x || ''] on a nullable text. *)
Definition or_empty (x : nullable string) : string :=
  coalesce x "".

(** handleEdit *)
Definition handleEdit (address : Address.row) (st : AddressesPage.state)
  : AddressesPage.state :=
  AddressesPage.mk (AddressesPage.addresses st) (AddressesPage.loading st)
    true (Some address) (AddressesPage.saving st) (AddressesPage.message st)
    (AddressForm.mk (Address.type address) (Address.name address)
       (Address.address_line_1 address)
       (or_empty (Address.address_line_2 address))
       (Address.city address) (or_empty (Address.state address))
       (Address.postal_code address) (Address.country address)
       (or_empty (Address.phone address)) (Address.is_default address)).

(** loadAddresses of the address page. *)
Definition load_address_list (env : address_environment) (user : uuid)
    (t : Address.table) (st : AddressesPage.state) : AddressesPage.state :=
  AddressesPage.mk
    (if list_fetched env then select_addresses_of user t
     else AddressesPage.addresses st)
    false (AddressesPage.showForm st) (AddressesPage.editingAddress st)
    (AddressesPage.saving st) (AddressesPage.message st)
    (AddressesPage.formData st).

(** The row of [.insert({...formData, user_id: user.id})]: the columns not
    sent take their defaults. *)
Definition inserted_row (env : address_environment) (user : uuid)
    (f : AddressForm.data) : Address.row :=
  Address.mk (new_address_id env) user (AddressForm.type f)
    (AddressForm.name f) (AddressForm.address_line_1 f)
    (Some (AddressForm.address_line_2 f)) (AddressForm.city f)
    (Some (AddressForm.state f)) (AddressForm.postal_code f)
    (AddressForm.country f) (Some (AddressForm.phone f))
    (AddressForm.is_default f) (Some (server_now env))
    (Some (server_now env)).

(** The SET clause of
    [.update({...formData, updated_at: new Date().toISOString()})]. *)
Definition updated_row (env : address_environment) (f : AddressForm.data)
    (OLD : Address.row) : Address.row :=
  Address.mk (Address.id OLD) (Address.user_id OLD) (AddressForm.type f)
    (AddressForm.name f) (AddressForm.address_line_1 f)
    (Some (AddressForm.address_line_2 f)) (AddressForm.city f)
    (Some (AddressForm.state f)) (AddressForm.postal_code f)
    (AddressForm.country f) (Some (AddressForm.phone f))
    (AddressForm.is_default f) (Address.created_at OLD)
    (Some (browser_now env)).

(** The catch and finally blocks of handleSubmit. *)
Definition saving_failed (error : JsError.t) (st : AddressesPage.state)
  : AddressesPage.state :=
  AddressesPage.mk (AddressesPage.addresses st) (AddressesPage.loading st)
    (AddressesPage.showForm st) (AddressesPage.editingAddress st) false
    ("Error: " ++ formatSupabaseError error)%string
    (AddressesPage.formData st).

(** The end of the try block of handleSubmit, and its finally block. *)
Definition saving_done (env : address_environment) (user : uuid)
    (text : string) (t' : Address.table) (st : AddressesPage.state)
  : AddressesPage.state :=
  load_address_list env user t'
    (AddressesPage.mk (AddressesPage.addresses st) (AddressesPage.loading st)
       false None false text blank_form).

(** A required field left blank. *)
Definition required_missing (f : AddressForm.data) : bool :=
  blank (AddressForm.name f) || blank (AddressForm.address_line_1 f)
  || blank (AddressForm.city f) || blank (AddressForm.postal_code f).

(** handleSubmit: the table and the page after it. *)
Definition handleSubmit (env : address_environment) (user : uuid)
    (t : Address.table) (st : AddressesPage.state)
  : Address.table * AddressesPage.state :=
  let f := AddressesPage.formData st in
  if required_missing f
  then (t, saving_failed (js_Error "Please fill in all required fields") st)
  else
    match AddressesPage.editingAddress st with
    | Some editing =>
        match update_addresses
                (fun r => own_row user r && has_id (Address.id editing) r)
                (updated_row env f) t with
        | Error e => (t, saving_failed (request_error env e) st)
        | Ok t' =>
            (t', saving_done env user "Address updated successfully!" t' st)
        end
    | None =>
        match insert_address (inserted_row env user f) t with
        | Error e => (t, saving_failed (request_error env e) st)
        | Ok t' =>
            (t', saving_done env user "Address added successfully!" t' st)
        end
    end.

(** handleDelete; [confirmed] is the answer to [window.confirm].  The
    statement has nothing it could be rejected for. *)
Definition handleDelete (env : address_environment) (user : uuid)
    (confirmed : bool) (addressId : uuid) (t : Address.table)
    (st : AddressesPage.state) : Address.table * AddressesPage.state :=
  if confirmed then
    let t' :=
      delete_addresses (fun r => own_row user r && has_id addressId r) t in
    (t', load_address_list env user t'
           (AddressesPage.mk (AddressesPage.addresses st)
              (AddressesPage.loading st) (AddressesPage.showForm st)
              (AddressesPage.editingAddress st) (AddressesPage.saving st)
              "Address deleted successfully!" (AddressesPage.formData st)))
  else (t, st).

(** The four columns the form requires are filled in. *)
Definition required_filled (r : Address.row) : Prop :=
  blank (Address.name r) = false
  /\ blank (Address.address_line_1 r) = false
  /\ blank (Address.city r) = false
  /\ blank (Address.postal_code r) = false.

(** The writes the address page sends, for any user and any content of
    the form. *)
Inductive address_page_write : Type :=
| form_submitted (env : address_environment) (user : uuid)
    (st : AddressesPage.state)
| delete_confirmed (env : address_environment) (user : uuid)
    (addressId : uuid) (st : AddressesPage.state)
| default_chosen (user : uuid) (addressId : uuid).

Definition run_address_page_write (w : address_page_write)
    (t : Address.table) : Address.table :=
  match w with
  | form_submitted env user st => fst (handleSubmit env user t st)
  | delete_confirmed env user addressId st =>
      fst (handleDelete env user true addressId t st)
  | default_chosen user addressId =>
      match setAsDefault user addressId t with
      | Ok t' => t'
      | Error _ => t
      end
  end.

(** Tables written through the address page only. *)
Inductive written_by_address_page : Address.table -> Prop :=
| address_page_empty : written_by_address_page []
| address_page_next : forall w t,
    written_by_address_page t ->
    written_by_address_page (run_address_page_write w t).

(** The page with nothing loaded, and the row [handleEdit] and an
    unchanged save make of a row. *)
Definition address_page_start : AddressesPage.state :=
  AddressesPage.mk [] true false None false "" blank_form.

Definition saved_unchanged (env : address_environment) (a : Address.row)
  : Address.row :=
  Address.mk (Address.id a) (Address.user_id a) (Address.type a)
    (Address.name a) (Address.address_line_1 a)
    (Some (or_empty (Address.address_line_2 a))) (Address.city a)
    (Some (or_empty (Address.state a))) (Address.postal_code a)
    (Address.country a) (Some (or_empty (Address.phone a)))
    (Address.is_default a) (Address.created_at a) (Some (browser_now env)).

Definition address_page_env : address_environment :=
  mk_address_environment 13%N 1000 1001 (fun _ => "rejected") true.

(** A form filled in for a first address, and the page showing it. *)
Definition ada_form : AddressForm.data :=
  AddressForm.mk (Some home) "Ada" "1 Main St" "" "Springfield" ""
    "12345" "United States" "" (Some true).

Definition ada_form_open : AddressesPage.state :=
  AddressesPage.mk [] false true None false "" ada_form.

(** [s.includes(p)] *)
Fixpoint includes (p s : string) : bool :=
  String.prefix p s
  || match s with
     | EmptyString => false
     | String _ s' => includes p s'
     end.

(** The banner over the address list is drawn as an error when
    [message.includes('Error')], and as a success otherwise. *)
Definition shown_as_error (message : string) : bool :=
  includes "Error" message.

(** The two checks on counters run over a range in one pass: [k] is the
    counter, [kz] the same as an integer, [lu] its decimal digits from the
    last to the first; [fuel] counters are gone through. *)
Fixpoint counters_check (fuel k : nat) (kz : Z) (lu : Decimal.uint) : bool :=
  match fuel with
  | O => true
  | S fuel' =>
      let s := NilEmpty.string_of_uint (Decimal.rev lu) in
      let padded := (fill_with "0" "0" (4 - String.length s) ++ s)%string in
      match cast_integer padded with
      | Ok z => Z.eqb z kz
      | Error _ => false
      end
      && String.eqb (lpad (int_to_text kz) 4 "0") padded
      && counters_check fuel' (S k) (kz + 1) (Decimal.Little.succ lu)
  end.

(* ===================================================================== *)
(** * Properties of the default-address trigger *)
(* ===================================================================== *)

Section AddressFacts.

Implicit Types (t : Address.table) (r NEW OLD : Address.row) (u i : uuid).

Lemma has_id_true i r : has_id i r = true <-> Address.id r = i.
Proof. unfold has_id. apply N.eqb_eq. Qed.

Lemma has_id_false i r : has_id i r = false <-> Address.id r <> i.
Proof. unfold has_id. apply N.eqb_neq. Qed.

Lemma filter_length_le (p q : Address.row -> bool) (f : Address.row -> Address.row) t :
  (forall r, In r t -> p (f r) = true -> q r = true) ->
  (List.length (filter p (map f t)) <= List.length (filter q t))%nat.
Proof.
  induction t as [|r t IH]; intros Hpq; simpl; [lia|].
  assert (IH' := IH (fun x Hx => Hpq x (or_intror Hx))).
  destruct (p (f r)) eqn:Hp.
  - rewrite (Hpq r (or_introl eq_refl) Hp). simpl. lia.
  - destruct (q r); simpl; lia.
Qed.

(** Under the primary key at most one row has a given identifier. *)
Lemma rows_with_id_le_1 i t :
  NoDup (map Address.id t) ->
  (List.length (filter (has_id i) t) <= 1)%nat.
Proof.
  induction t as [|r t IH]; simpl; intros Hnd; [lia|].
  inversion Hnd as [|? ? Hnotin Hnd']; subst.
  destruct (has_id i r) eqn:Hr; [|auto].
  apply has_id_true in Hr. simpl.
  assert (Hnone : filter (has_id i) t = []).
  { clear - Hnotin Hr. induction t as [|x t IHt]; simpl in *; [reflexivity|].
    destruct (has_id i x) eqn:Hx.
    - apply has_id_true in Hx. exfalso. apply Hnotin. left. congruence.
    - apply IHt. tauto. }
  rewrite Hnone. simpl. lia.
Qed.

Lemma rows_with_id_none i t :
  ~ In i (map Address.id t) -> filter (has_id i) t = [].
Proof.
  induction t as [|x t IHt]; simpl; intros Hnotin; [reflexivity|].
  destruct (has_id i x) eqn:Hx.
  - apply has_id_true in Hx. exfalso. apply Hnotin. left. exact Hx.
  - apply IHt. tauto.
Qed.

Lemma same_id_same_row t r r' :
  NoDup (map Address.id t) -> In r t -> In r' t ->
  Address.id r = Address.id r' -> r = r'.
Proof.
  induction t as [|x t IH]; simpl; intros Hnd Hr Hr' Hid; [contradiction|].
  inversion Hnd as [|? ? Hnotin Hnd']; subst.
  destruct Hr as [-> | Hr], Hr' as [-> | Hr']; auto.
  - exfalso. apply Hnotin. rewrite Hid. now apply in_map.
  - exfalso. apply Hnotin. rewrite <- Hid. now apply in_map.
Qed.

Lemma find_row t OLD :
  NoDup (map Address.id t) -> In OLD t ->
  find (has_id (Address.id OLD)) t = Some OLD.
Proof.
  intros Hnd Hin.
  destruct (find (has_id (Address.id OLD)) t) as [r|] eqn:Hf.
  - apply find_some in Hf as [Hr Hid]. apply has_id_true in Hid.
    f_equal. eapply same_id_same_row; eauto.
  - exfalso. apply (find_none _ _ Hf) in Hin.
    apply has_id_false in Hin. congruence.
Qed.

Lemma existsb_has_id i t :
  existsb (has_id i) t = true <-> In i (map Address.id t).
Proof.
  rewrite existsb_exists, in_map_iff. split.
  - intros [r [Hin Hid]]. exists r. split; [now apply has_id_true|exact Hin].
  - intros [r [Hid Hin]]. exists r. split; [exact Hin|now apply has_id_true].
Qed.

(** *** What the trigger function does to the table *)

Lemma ensure_single_default_address_not_default NEW t :
  is_true (Address.is_default NEW) = false ->
  ensure_single_default_address NEW t = (NEW, t).
Proof. intros Hd. unfold ensure_single_default_address. now rewrite Hd. Qed.

Lemma ensure_single_default_address_row NEW t :
  fst (ensure_single_default_address NEW t) = NEW.
Proof.
  unfold ensure_single_default_address.
  now destruct (is_true (Address.is_default NEW)).
Qed.

Lemma ensure_single_default_address_ids NEW t :
  map Address.id (snd (ensure_single_default_address NEW t))
  = map Address.id t.
Proof.
  unfold ensure_single_default_address, clear_default_where.
  destruct (is_true (Address.is_default NEW)); simpl; [|reflexivity].
  rewrite map_map. apply map_ext. intros r.
  now destruct (sibling_of NEW r).
Qed.

Lemma replace_row_ids i NEW t :
  Address.id NEW = i ->
  map Address.id (replace_row i NEW t) = map Address.id t.
Proof.
  intros Hid. unfold replace_row. rewrite map_map.
  apply map_ext. intros r. destruct (has_id i r) eqn:Hr; [|reflexivity].
  apply has_id_true in Hr. congruence.
Qed.

Lemma row_update_as_map NEW t :
  replace_row (Address.id NEW) NEW (snd (ensure_single_default_address NEW t))
  = map (after_row_update NEW) t.
Proof.
  unfold ensure_single_default_address, replace_row, clear_default_where,
    after_row_update.
  destruct (is_true (Address.is_default NEW)); simpl.
  - rewrite map_map. apply map_ext. intros r.
    destruct (sibling_of NEW r); reflexivity.
  - apply map_ext. intros r. reflexivity.
Qed.

Lemma after_row_update_count u NEW t :
  NoDup (map Address.id t) ->
  (default_count u t <= 1)%nat ->
  (default_count u (map (after_row_update NEW) t) <= 1)%nat.
Proof.
  intros Hnd Hle. unfold default_count.
  destruct (is_default_of u NEW) eqn:Hnew.
  - (* the written row is the default of [u]: every other row of [u]
       has been cleared *)
    etransitivity; [|apply (rows_with_id_le_1 (Address.id NEW) t Hnd)].
    apply filter_length_le. intros r _.
    unfold after_row_update, is_default_of in *.
    apply andb_true_iff in Hnew as [Hu Hd]. rewrite Hd. simpl.
    destruct (has_id (Address.id NEW) r) eqn:Hr; [reflexivity|].
    unfold sibling_of. unfold has_id in Hr. rewrite Hr. simpl.
    apply N.eqb_eq in Hu. rewrite Hu, andb_true_r.
    destruct (N.eqb (Address.user_id r) u) eqn:Hru; simpl.
    + rewrite andb_false_r. discriminate.
    + rewrite Hru. discriminate.
  - etransitivity; [|exact Hle].
    apply filter_length_le. intros r _.
    unfold after_row_update.
    destruct (has_id (Address.id NEW) r); [congruence|].
    destruct (is_true (Address.is_default NEW) && sibling_of NEW r);
      [|auto].
    unfold is_default_of. simpl. rewrite andb_false_r. discriminate.
Qed.

(** *** The invariant and its preservation *)

Lemma insert_address_inv NEW t t' :
  addresses_ok t -> insert_address NEW t = Ok t' -> addresses_ok t'.
Proof.
  intros [Hnd Hcount]. unfold insert_address.
  destruct (ensure_single_default_address NEW t) as [NEW' t1] eqn:Htrig.
  assert (HNEW : NEW' = NEW)
    by (rewrite <- (ensure_single_default_address_row NEW t); now rewrite Htrig).
  assert (Hids : map Address.id t1 = map Address.id t)
    by (rewrite <- (ensure_single_default_address_ids NEW t); now rewrite Htrig).
  subst NEW'.
  destruct (existsb (has_id (Address.id NEW)) t1) eqn:Hpk; [discriminate|].
  intros [= <-].
  assert (Hfresh : ~ In (Address.id NEW) (map Address.id t)).
  { rewrite <- Hids, <- existsb_has_id. congruence. }
  split.
  - rewrite map_app, Hids. simpl.
    apply NoDup_app; [exact Hnd|repeat constructor; simpl; tauto|].
    intros x Hx [<- | []]. contradiction.
  - intros u. unfold default_count. rewrite filter_app, length_app. simpl.
    assert (Ht1 : t1 = snd (ensure_single_default_address NEW t))
      by now rewrite Htrig.
    unfold ensure_single_default_address in Ht1.
    destruct (is_default_of u NEW) eqn:Hnew; simpl.
    + (* every row of [u] has been cleared and [NEW] is the only default *)
      unfold is_default_of in Hnew. apply andb_true_iff in Hnew as [Hu Hd].
      rewrite Hd in Ht1. simpl in Ht1. subst t1.
      unfold clear_default_where.
      assert (H0 : (List.length
                      (filter (is_default_of u)
                         (map (fun r => if sibling_of NEW r
                                        then Address.with_is_default (Some false) r
                                        else r) t))
                    <= List.length (filter (has_id (Address.id NEW)) t))%nat).
      { apply filter_length_le. intros r _.
        unfold is_default_of, sibling_of, has_id.
        apply N.eqb_eq in Hu. rewrite Hu.
        destruct (N.eqb (Address.user_id r) u) eqn:Hru; simpl.
        - destruct (N.eqb (Address.id r) (Address.id NEW)); simpl; [reflexivity|].
          rewrite andb_false_r. discriminate.
        - rewrite Hru. discriminate. }
      rewrite (rows_with_id_none _ _ Hfresh) in H0. simpl in H0. lia.
    + specialize (Hcount u). unfold default_count in Hcount.
      destruct (is_true (Address.is_default NEW)); simpl in Ht1; subst t1.
      * unfold clear_default_where.
        assert (H0 := filter_length_le (is_default_of u) (is_default_of u)
                        (fun r => if sibling_of NEW r
                                  then Address.with_is_default (Some false) r
                                  else r) t).
        assert (H1 : forall r, In r t ->
                  is_default_of u (if sibling_of NEW r
                                   then Address.with_is_default (Some false) r
                                   else r) = true ->
                  is_default_of u r = true).
        { intros r _. destruct (sibling_of NEW r); [|auto].
          unfold is_default_of. simpl. rewrite andb_false_r. discriminate. }
        specialize (H0 H1). lia.
      * lia.
Qed.

Lemma update_rows_inv set targets : forall written t t',
  addresses_ok t -> update_rows set targets written t = Ok t' ->
  addresses_ok t'.
Proof.
  induction targets as [|i rest IH]; intros written t t' Hok; simpl.
  - now intros [= <-].
  - destruct (existsb (N.eqb i) written); [discriminate|].
    destruct (find (has_id i) t) as [OLD|] eqn:Hfind; [|now apply IH].
    apply find_some in Hfind as [_ Hid]. apply has_id_true in Hid.
    set (NEW := Address.with_id (Address.id OLD) (set OLD)).
    destruct (ensure_single_default_address NEW t) as [NEW' t1] eqn:Htrig.
    assert (HNEW : NEW' = NEW)
      by (rewrite <- (ensure_single_default_address_row NEW t); now rewrite Htrig).
    assert (Ht1 : t1 = snd (ensure_single_default_address NEW t))
      by now rewrite Htrig.
    subst NEW' t1. apply IH.
    assert (HidNEW : Address.id NEW = i) by (subst NEW; exact Hid).
    rewrite <- HidNEW, row_update_as_map.
    destruct Hok as [Hnd Hcount]. split.
    + rewrite <- row_update_as_map, replace_row_ids by reflexivity.
      now rewrite ensure_single_default_address_ids.
    + intros u. now apply after_row_update_count.
Qed.

Lemma delete_addresses_inv where_ t :
  addresses_ok t -> addresses_ok (delete_addresses where_ t).
Proof.
  intros [Hnd Hcount]. unfold delete_addresses. split.
  - clear Hcount. induction t as [|r t IH]; simpl; [constructor|].
    inversion Hnd as [|? ? Hnotin Hnd']; subst.
    destruct (negb (where_ r)); simpl; [|auto].
    constructor; [|auto].
    intros Hin. apply Hnotin. apply in_map_iff in Hin as [x [Hx Hin]].
    apply filter_In in Hin as [Hin _]. apply in_map_iff. eauto.
  - intros u. specialize (Hcount u). unfold default_count in *.
    assert (H0 : (List.length (filter (is_default_of u)
                     (filter (fun r => negb (where_ r)) t))
                  <= List.length (filter (is_default_of u) t))%nat).
    { clear. induction t as [|r t IH]; simpl; [lia|].
      destruct (negb (where_ r)); simpl;
        destruct (is_default_of u r); simpl; lia. }
    lia.
Qed.

Lemma run_address_write_inv w t t' :
  addresses_ok t -> run_address_write w t = Ok t' -> addresses_ok t'.
Proof.
  destruct w as [NEW|where_ set|where_]; simpl; intros Hok Hrun.
  - eapply insert_address_inv; eauto.
  - eapply update_rows_inv; eauto.
  - injection Hrun as <-. now apply delete_addresses_inv.
Qed.

Lemma addresses_reachable_ok t : addresses_reachable t -> addresses_ok t.
Proof.
  induction 1 as [|w t t' _ IH Hrun].
  - split; [constructor|intros u; unfold default_count; simpl; lia].
  - eapply run_address_write_inv; eauto.
Qed.

End AddressFacts.

Section AddressClaims.

Implicit Types (t : Address.table) (r NEW OLD : Address.row) (u i : uuid).

Lemma filter_has_id t OLD :
  NoDup (map Address.id t) -> In OLD t ->
  filter (has_id (Address.id OLD)) t = [OLD].
Proof.
  induction t as [|x t IH]; simpl; intros Hnd Hin; [contradiction|].
  inversion Hnd as [|? ? Hnotin Hnd']; subst.
  destruct Hin as [-> | Hin].
  - unfold has_id at 1. rewrite N.eqb_refl.
    now rewrite (rows_with_id_none _ _ Hnotin).
  - destruct (has_id (Address.id OLD) x) eqn:Hx; [|auto].
    apply has_id_true in Hx. exfalso. apply Hnotin. rewrite Hx.
    now apply in_map.
Qed.

(** An update of one row by its identifier: the trigger on the new row,
    then the row itself. *)
Lemma update_one_row set t OLD :
  NoDup (map Address.id t) -> In OLD t ->
  update_addresses (has_id (Address.id OLD)) set t
  = Ok (map (after_row_update (Address.with_id (Address.id OLD) (set OLD))) t).
Proof.
  intros Hnd Hin. unfold update_addresses.
  rewrite (filter_has_id _ _ Hnd Hin). simpl.
  rewrite (find_row _ _ Hnd Hin).
  set (NEW := Address.with_id (Address.id OLD) (set OLD)).
  rewrite <- (row_update_as_map NEW t).
  destruct (ensure_single_default_address NEW t) as [NEW' t1] eqn:Htrig.
  assert (HNEW : NEW' = NEW)
    by (rewrite <- (ensure_single_default_address_row NEW t); now rewrite Htrig).
  subst NEW'. reflexivity.
Qed.

Lemma default_count_ge_1 u r t :
  In r t -> is_default_of u r = true -> (1 <= default_count u t)%nat.
Proof.
  intros Hin Hd. unfold default_count.
  assert (Hin' : In r (filter (is_default_of u) t))
    by (apply filter_In; auto).
  destruct (filter (is_default_of u) t); [contradiction|simpl; lia].
Qed.

End AddressClaims.

(** C1.  In every table reached by committed inserts, updates and deletes
    of addresses, each user has no or exactly one row with
    [is_default = true]. *)
Theorem default_address_count_0_or_1 :
  forall (t : Address.table) (u : uuid),
    addresses_reachable t ->
    default_count u t = 0%nat \/ default_count u t = 1%nat.
Proof.
  intros t u Hreach.
  destruct (addresses_reachable_ok t Hreach) as [_ Hcount].
  specialize (Hcount u). lia.
Qed.

Lemma default_address_count_0_or_1_witness :
  addresses_reachable
    [Address.with_is_default (Some false) address_A;
     Address.with_is_default (Some true) address_B; address_C]
  /\ (default_count 1%N
        [Address.with_is_default (Some false) address_A;
         Address.with_is_default (Some true) address_B; address_C] = 0%nat
      \/ default_count 1%N
           [Address.with_is_default (Some false) address_A;
            Address.with_is_default (Some true) address_B; address_C] = 1%nat).
Proof.
  assert (Hreach : addresses_reachable
            [Address.with_is_default (Some false) address_A;
             Address.with_is_default (Some true) address_B; address_C]).
  { apply (addresses_commit (InsertAddress address_C)
             [Address.with_is_default (Some false) address_A;
              Address.with_is_default (Some true) address_B]);
      [|reflexivity].
    apply (addresses_commit
             (InsertAddress (Address.with_is_default (Some true) address_B))
             [address_A]); [|reflexivity].
    apply (addresses_commit (InsertAddress address_A) []); [|reflexivity].
    apply addresses_empty. }
  split; [exact Hreach|].
  apply default_address_count_0_or_1. exact Hreach.
Defined.

Section NotDefault.

Implicit Types (t : Address.table) (r NEW OLD : Address.row).

Lemma insert_address_not_default NEW t :
  is_true (Address.is_default NEW) = false ->
  ~ In (Address.id NEW) (map Address.id t) ->
  insert_address NEW t = Ok (t ++ [NEW]).
Proof.
  intros Hd Hfresh. unfold insert_address.
  rewrite (ensure_single_default_address_not_default _ _ Hd).
  destruct (existsb (has_id (Address.id NEW)) t) eqn:Hpk; [|reflexivity].
  apply existsb_has_id in Hpk. contradiction.
Qed.

Lemma default_count_other_users u t :
  (forall r, In r t -> Address.user_id r <> u) -> default_count u t = 0%nat.
Proof.
  intros Hnone. unfold default_count.
  induction t as [|r t IH]; simpl; [reflexivity|].
  unfold is_default_of at 1.
  destruct (N.eqb (Address.user_id r) u) eqn:Hu.
  - apply N.eqb_eq in Hu. exfalso. apply (Hnone r); simpl; auto.
  - simpl. apply IH. intros x Hx. apply Hnone. simpl. auto.
Qed.

End NotDefault.

Section UpdateManyRows.

Implicit Types (t : Address.table) (r NEW OLD : Address.row).

Lemma NoDup_keys_filter {Row Key : Type} (key : Row -> Key)
  (keep : Row -> bool) (rows : list Row) :
  NoDup (map key rows) -> NoDup (map key (filter keep rows)).
Proof.
intros Hnd. induction rows as [|r rows IH]; simpl; [constructor|].
inversion Hnd as [|? ? Hnotin Hnd']; subst.
destruct (keep r); simpl; [|auto].
constructor; [|auto].
intros Hin. apply Hnotin. apply in_map_iff in Hin as [x [Hx Hin]].
apply filter_In in Hin as [Hin _]. apply in_map_iff. eauto.
Qed.

Lemma existsb_eqb_in (i : uuid) (l : list uuid) :
  existsb (N.eqb i) l = true <-> In i l.
Proof.
  rewrite existsb_exists. split.
  - intros [x [Hin Heq]]. apply N.eqb_eq in Heq. now subst.
  - intros Hin. exists i. split; [exact Hin|apply N.eqb_refl].
Qed.

(** When no selected row is to become a default, the trigger stays idle
    and the statement rewrites exactly the selected rows. *)
Lemma update_rows_not_default set : forall targets t,
  NoDup targets ->
  NoDup (map Address.id t) ->
  (forall r, In r t -> In (Address.id r) targets ->
             is_true (Address.is_default (set r)) = false) ->
  update_rows set targets [] t
  = Ok (map (fun r => if existsb (N.eqb (Address.id r)) targets
                      then Address.with_id (Address.id r) (set r)
                      else r) t).
Proof.
  induction targets as [|i rest IH]; intros t Hnt Hnd Hset; simpl.
  - f_equal. symmetry. rewrite <- (map_id t) at 2.
    apply map_ext. reflexivity.
  - inversion Hnt as [|? ? Hirest Hnrest]; subst.
    destruct (find (has_id i) t) as [OLD|] eqn:Hfind.
    + pose proof (find_some _ _ Hfind) as [HOLD Hid].
      apply has_id_true in Hid.
      set (NEW := Address.with_id (Address.id OLD) (set OLD)).
      assert (Hd : is_true (Address.is_default NEW) = false).
      { subst NEW. simpl. apply Hset; [exact HOLD|]. left. now symmetry. }
      rewrite (ensure_single_default_address_not_default _ _ Hd).
      unfold rows_written_by_trigger. rewrite Hd. simpl.
      assert (HidNEW : Address.id NEW = i) by (subst NEW; exact Hid).
      rewrite IH.
      * f_equal. unfold replace_row. rewrite map_map.
        apply map_ext_in. intros r Hr.
        destruct (has_id i r) eqn:Hri.
        -- apply has_id_true in Hri.
           assert (r = OLD)
             by (eapply same_id_same_row; eauto; congruence).
           subst r. rewrite HidNEW.
           destruct (existsb (N.eqb i) rest) eqn:Hex.
           ++ apply existsb_eqb_in in Hex. contradiction.
           ++ rewrite Hid, N.eqb_refl. simpl. subst NEW. now rewrite Hid.
        -- unfold has_id in Hri. rewrite Hri. reflexivity.
      * exact Hnrest.
      * now rewrite replace_row_ids.
      * intros r Hr Hin. unfold replace_row in Hr.
        apply in_map_iff in Hr as [x [Hx Hxin]].
        destruct (has_id i x).
        -- subst r. rewrite HidNEW in Hin. contradiction.
        -- subst x. apply Hset; [exact Hxin|now right].
    + rewrite IH.
      * f_equal. apply map_ext_in. intros r Hr.
        pose proof (find_none _ _ Hfind r Hr) as Hri.
        unfold has_id in Hri. rewrite Hri. reflexivity.
      * exact Hnrest.
      * exact Hnd.
      * intros r Hr Hin. apply Hset; [exact Hr|now right].
Qed.

Lemma update_addresses_not_default where_ set t :
  NoDup (map Address.id t) ->
  (forall r, In r t -> where_ r = true ->
             is_true (Address.is_default (set r)) = false) ->
  update_addresses where_ set t
  = Ok (map (fun r => if where_ r
                      then Address.with_id (Address.id r) (set r)
                      else r) t).
Proof.
  intros Hnd Hset. unfold update_addresses.
  assert (Hsel : forall r, In r t ->
            existsb (N.eqb (Address.id r))
              (map Address.id (filter where_ t)) = where_ r).
  { intros r Hr. destruct (where_ r) eqn:Hw.
    - apply existsb_eqb_in. apply in_map. apply filter_In. auto.
    - destruct (existsb _ _) eqn:Hex; [|reflexivity].
      apply existsb_eqb_in in Hex.
      apply in_map_iff in Hex as [x [Hx Hxin]].
      apply filter_In in Hxin as [Hxin Hwx].
      assert (x = r) by (eapply same_id_same_row; eauto).
      subst x. congruence. }
  rewrite update_rows_not_default.
  - f_equal. apply map_ext_in. intros r Hr. now rewrite Hsel.
  - now apply NoDup_keys_filter.
  - exact Hnd.
  - intros r Hr Hin. apply Hset; [exact Hr|].
    rewrite <- (Hsel r Hr). now apply existsb_eqb_in.
Qed.

End UpdateManyRows.

(** C7.  A write whose candidate row does not have [is_default = true]
    (false, or NULL) leaves every other row as it was: the trigger function
    returns the table unchanged, an insert only appends the candidate, and
    an update statement all of whose new rows are such rewrites the rows it
    selects and no other.  A first address of a user inserted this way is
    stored as given and the user has no default. *)
Theorem not_default_write_leaves_other_rows :
  forall (NEW : Address.row) (t : Address.table),
    is_true (Address.is_default NEW) = false ->
    NoDup (map Address.id t) ->
    ensure_single_default_address NEW t = (NEW, t)
    /\ (~ In (Address.id NEW) (map Address.id t) ->
        insert_address NEW t = Ok (t ++ [NEW]))
    /\ (forall where_ set,
          (forall r, In r t -> where_ r = true ->
                     is_true (Address.is_default (set r)) = false) ->
          update_addresses where_ set t
          = Ok (map (fun r => if where_ r
                              then Address.with_id (Address.id r) (set r)
                              else r) t))
    /\ (~ In (Address.id NEW) (map Address.id t) ->
        (forall r, In r t -> Address.user_id r <> Address.user_id NEW) ->
        insert_address NEW t = Ok (t ++ [NEW])
        /\ default_count (Address.user_id NEW) (t ++ [NEW]) = 0%nat).
Proof.
  intros NEW t Hd Hnd.
  split; [now apply ensure_single_default_address_not_default|].
  split; [intros Hfresh; now apply insert_address_not_default|].
  split; [intros where_ set Hset; now apply update_addresses_not_default|].
  intros Hfresh Hfirst.
  split; [now apply insert_address_not_default|].
  unfold default_count. rewrite filter_app, length_app.
  fold (default_count (Address.user_id NEW) t).
  rewrite (default_count_other_users _ _ Hfirst). simpl.
  unfold is_default_of. rewrite Hd, andb_false_r. reflexivity.
Qed.

Lemma not_default_write_leaves_other_rows_witness :
  ensure_single_default_address address_B [address_A; address_C]
  = (address_B, [address_A; address_C])
  /\ insert_address address_B [address_A; address_C]
     = Ok [address_A; address_C; address_B].
Proof.
  assert (Hd : is_true (Address.is_default address_B) = false) by reflexivity.
  assert (Hnd : NoDup (map Address.id [address_A; address_C])).
  { simpl. repeat constructor; simpl; intuition discriminate. }
  destruct (not_default_write_leaves_other_rows address_B
              [address_A; address_C] Hd Hnd) as [Hhook [Hinsert _]].
  split; [exact Hhook|].
  apply Hinsert. simpl. intuition discriminate.
Defined.

Section SetDefault.

Implicit Types (t : Address.table) (r NEW OLD A B : Address.row) (u : uuid).

Lemma set_default_properties t OLD :
  NoDup (map Address.id t) -> In OLD t ->
  let NEW := Address.with_is_default (Some true) OLD in
  let t' := map (after_row_update NEW) t in
  map Address.id t' = map Address.id t
  /\ In NEW t'
  /\ (forall r, In r t -> Address.user_id r = Address.user_id OLD ->
                Address.id r <> Address.id OLD ->
                In (Address.with_is_default (Some false) r) t')
  /\ default_count (Address.user_id OLD) t' = 1%nat.
Proof.
  intros Hnd Hin NEW t'.
  assert (Hids : map Address.id t' = map Address.id t).
  { subst t'. rewrite <- row_update_as_map, replace_row_ids by reflexivity.
    apply ensure_single_default_address_ids. }
  assert (HNEW : In NEW t').
  { subst t'. apply in_map_iff. exists OLD. split; [|exact Hin].
    unfold after_row_update, has_id. simpl. now rewrite N.eqb_refl. }
  split; [exact Hids|]. split; [exact HNEW|]. split.
  - intros r Hr Hu Hid. subst t'. apply in_map_iff. exists r.
    split; [|exact Hr].
    unfold after_row_update, has_id, sibling_of. simpl.
    apply N.eqb_neq in Hid. rewrite Hid. simpl.
    apply N.eqb_eq in Hu. now rewrite Hu.
  - assert (Hle : (default_count (Address.user_id OLD) t' <= 1)%nat).
    { unfold default_count. subst t'.
      etransitivity; [|apply (rows_with_id_le_1 (Address.id OLD) t Hnd)].
      apply filter_length_le. intros r _.
      unfold after_row_update, is_default_of, has_id, sibling_of. simpl.
      destruct (N.eqb (Address.id r) (Address.id OLD)); [reflexivity|].
      simpl. rewrite andb_true_r.
      destruct (N.eqb (Address.user_id r) (Address.user_id OLD)) eqn:Hu;
        simpl.
      - rewrite andb_false_r. discriminate.
      - rewrite Hu. discriminate. }
    assert (Hge : (1 <= default_count (Address.user_id OLD) t')%nat).
    { apply (default_count_ge_1 _ NEW); [exact HNEW|].
      unfold is_default_of. simpl. now rewrite N.eqb_refl. }
    lia.
Qed.

(** A plain [UPDATE ... SET is_default = true WHERE id = ...]. *)
Lemma update_makes_default :
  makes_default (fun _ i =>
    update_addresses (has_id i) (Address.with_is_default (Some true))).
Proof.
  intros u t OLD Hnd Hin Hu.
  exists (map (after_row_update (Address.with_is_default (Some true) OLD)) t).
  split.
  - rewrite (update_one_row _ t OLD Hnd Hin). reflexivity.
  - subst u. apply (set_default_properties t OLD Hnd Hin).
Qed.

Lemma setAsDefault_makes_default : makes_default setAsDefault.
Proof.
  intros u t OLD Hnd Hin Hu. unfold setAsDefault.
  set (clear := fun r : Address.row =>
                  if N.eqb (Address.user_id r) u
                  then Address.with_id (Address.id r)
                         (Address.with_is_default (Some false) r)
                  else r).
  assert (Hfirst :
            update_addresses (fun r => N.eqb (Address.user_id r) u)
              (Address.with_is_default (Some false)) t
            = Ok (map clear t)).
  { apply update_addresses_not_default; [exact Hnd|].
    intros r _ _. reflexivity. }
  rewrite Hfirst.
  assert (Hclear_id : forall r, Address.id (clear r) = Address.id r).
  { intros r. unfold clear. now destruct (N.eqb (Address.user_id r) u). }
  assert (Hclear_user : forall r, Address.user_id (clear r) = Address.user_id r).
  { intros r. unfold clear. now destruct (N.eqb (Address.user_id r) u). }
  assert (Hids : map Address.id (map clear t) = map Address.id t).
  { rewrite map_map. apply map_ext. exact Hclear_id. }
  assert (Hnd1 : NoDup (map Address.id (map clear t))) by now rewrite Hids.
  assert (Hin1 : In (clear OLD) (map clear t)) by now apply in_map.
  pose proof (update_one_row (Address.with_is_default (Some true))
                (map clear t) (clear OLD) Hnd1 Hin1) as Hrun.
  rewrite Hclear_id in Hrun. rewrite Hrun.
  eexists. split; [reflexivity|].
  destruct (set_default_properties (map clear t) (clear OLD) Hnd1 Hin1)
    as [Hids' [HNEW [Hothers Hcount]]].
  assert (Hsame : Address.with_id (Address.id OLD)
                    (Address.with_is_default (Some true) (clear OLD))
                  = Address.with_is_default (Some true) OLD).
  { unfold clear. destruct (N.eqb (Address.user_id OLD) u); reflexivity. }
  rewrite Hclear_id in *. rewrite Hclear_user in *.
  assert (Hsame' : Address.with_is_default (Some true) (clear OLD)
                   = Address.with_is_default (Some true) OLD).
  { unfold clear. destruct (N.eqb (Address.user_id OLD) u); reflexivity. }
  rewrite Hsame. rewrite Hsame' in *.
  split; [now rewrite Hids', Hids|]. split; [exact HNEW|]. split.
  - intros r Hr Hru Hid.
    assert (Hcr : Address.with_is_default (Some false) (clear r)
                  = Address.with_is_default (Some false) r).
    { unfold clear. destruct (N.eqb (Address.user_id r) u); reflexivity. }
    rewrite <- Hcr. apply Hothers.
    + now apply in_map.
    + rewrite Hclear_user. congruence.
    + now rewrite Hclear_id.
  - now rewrite <- Hu.
Qed.

(** Making [A] the default and then [B], whatever the operation. *)
Lemma two_steps_move_the_default op :
  makes_default op ->
  forall t A B u,
    NoDup (map Address.id t) -> In A t -> In B t ->
    Address.user_id A = u -> Address.user_id B = u ->
    Address.id A <> Address.id B ->
    exists t1 t2,
      op u (Address.id A) t = Ok t1
      /\ op u (Address.id B) t1 = Ok t2
      /\ map Address.id t2 = map Address.id t
      /\ In (Address.with_is_default (Some true) B) t2
      /\ In (Address.with_is_default (Some false) A) t2
      /\ default_count u t2 = 1%nat.
Proof.
  intros Hop t A B u Hnd HA HB HuA HuB Hne.
  destruct (Hop u t A Hnd HA HuA) as [t1 [Hrun1 [Hids1 [HA1 [Hoth1 _]]]]].
  assert (HB1 : In (Address.with_is_default (Some false) B) t1)
    by (apply Hoth1; auto).
  assert (Hnd1 : NoDup (map Address.id t1)) by now rewrite Hids1.
  destruct (Hop u t1 (Address.with_is_default (Some false) B) Hnd1 HB1 HuB)
    as [t2 [Hrun2 [Hids2 [HB2 [Hoth2 Hcount]]]]].
  exists t1, t2. repeat split; auto.
  - now rewrite Hids2.
  - apply (Hoth2 (Address.with_is_default (Some true) A)); auto.
Qed.

End SetDefault.

(** C6.  For a user owning the addresses [A] and [B], making [A] the
    default and then [B] leaves [B] stored with [is_default = true], [A]
    with [is_default = false], and exactly one default for the user.  This
    holds for two plain updates of the flag, through the trigger, and for
    two runs of setAsDefault of the address page. *)
Theorem default_moves_from_A_to_B_by_update_and_by_page :
  forall (t : Address.table) (A B : Address.row) (u : uuid),
    NoDup (map Address.id t) -> In A t -> In B t ->
    Address.user_id A = u -> Address.user_id B = u ->
    Address.id A <> Address.id B ->
    (exists t1 t2,
       update_addresses (has_id (Address.id A))
         (Address.with_is_default (Some true)) t = Ok t1
       /\ update_addresses (has_id (Address.id B))
            (Address.with_is_default (Some true)) t1 = Ok t2
       /\ map Address.id t2 = map Address.id t
       /\ In (Address.with_is_default (Some true) B) t2
       /\ In (Address.with_is_default (Some false) A) t2
       /\ default_count u t2 = 1%nat)
    /\ (exists t1 t2,
          setAsDefault u (Address.id A) t = Ok t1
          /\ setAsDefault u (Address.id B) t1 = Ok t2
          /\ map Address.id t2 = map Address.id t
          /\ In (Address.with_is_default (Some true) B) t2
          /\ In (Address.with_is_default (Some false) A) t2
          /\ default_count u t2 = 1%nat).
Proof.
  intros t A B u Hnd HA HB HuA HuB Hne. split.
  - exact (two_steps_move_the_default _ update_makes_default
             t A B u Hnd HA HB HuA HuB Hne).
  - exact (two_steps_move_the_default _ setAsDefault_makes_default
             t A B u Hnd HA HB HuA HuB Hne).
Qed.

Lemma default_moves_from_A_to_B_witness :
  exists t1 t2,
    setAsDefault 1%N 10%N [address_A; address_B; address_C] = Ok t1
    /\ setAsDefault 1%N 11%N t1 = Ok t2
    /\ map Address.id t2 = [10%N; 11%N; 12%N]
    /\ In (Address.with_is_default (Some true) address_B) t2
    /\ In (Address.with_is_default (Some false) address_A) t2
    /\ default_count 1%N t2 = 1%nat.
Proof.
  assert (Hnd : NoDup (map Address.id [address_A; address_B; address_C])).
  { simpl. repeat constructor; simpl; intuition discriminate. }
  assert (HA : In address_A [address_A; address_B; address_C])
    by (simpl; auto).
  assert (HB : In address_B [address_A; address_B; address_C])
    by (simpl; auto).
  assert (Hne : Address.id address_A <> Address.id address_B)
    by discriminate.
  exact (proj2 (default_moves_from_A_to_B_by_update_and_by_page
                  [address_A; address_B; address_C] address_A address_B 1%N
                  Hnd HA HB eq_refl eq_refl Hne)).
Defined.

(** The scenario of the specification: [A] is the default, [B] is not;
    [B] is updated to be the default. *)
Example update_B_to_default :
  update_addresses (has_id 11%N) (Address.with_is_default (Some true))
    [address_A; address_B; address_C]
  = Ok [Address.with_is_default (Some false) address_A;
        Address.with_is_default (Some true) address_B;
        address_C].
Proof. reflexivity. Qed.

(** One statement that makes two rows of a user the default is rejected:
    the trigger of the first row has written the second. *)
Example update_all_to_default_rejected :
  update_addresses (fun r => N.eqb (Address.user_id r) 1%N)
    (Address.with_is_default (Some true))
    [address_A; address_B; address_C]
  = Error triggered_data_change_violation.
Proof. reflexivity. Qed.

(* ===================================================================== *)
(** * Properties of the order-number trigger *)
(* ===================================================================== *)

Section TextFacts.

Lemma append_assoc (a b c : string) :
  ((a ++ b) ++ c = a ++ (b ++ c))%string.
Proof. induction a as [|x a IH]; simpl; [reflexivity|now rewrite IH]. Qed.

Lemma append_length (a b : string) :
  String.length (a ++ b) = (String.length a + String.length b)%nat.
Proof. induction a as [|x a IH]; simpl; [reflexivity|now rewrite IH]. Qed.

Lemma drop_append (a b : string) : drop (String.length a) (a ++ b) = b.
Proof. induction a as [|x a IH]; simpl; [now destruct b|exact IH]. Qed.

Lemma prefix_append (a b : string) : String.prefix a (a ++ b) = true.
Proof.
  induction a as [|x a IH]; simpl; [now destruct b|].
  destruct (ascii_dec x x); [exact IH|congruence].
Qed.

Lemma sql_like_percent (s : string) : sql_like "%" s = true.
Proof.
  induction s as [|c s IH]; [reflexivity|].
  simpl in *. exact IH.
Qed.

(** A pattern of plain characters followed by [%] tests for a prefix. *)
Lemma sql_like_plain_prefix (p : string) : forall s,
  plain_text p = true ->
  sql_like (p ++ "%") s = String.prefix p s.
Proof.
  induction p as [|c p IH]; intros s Hplain.
  - rewrite sql_like_percent. now destruct s.
  - unfold plain_text in Hplain. simpl in Hplain.
    apply andb_true_iff in Hplain as [Hc Hp].
    unfold plain_char in Hc.
    apply andb_true_iff in Hc as [Hc H3].
    apply andb_true_iff in Hc as [H1 H2].
    apply negb_true_iff in H1, H2, H3.
    change (sql_like (String c p ++ "%") s)
      with (sql_like (String c (p ++ "%")) s).
    cbn [sql_like]. rewrite H1, H2, H3.
    destruct s as [|d s]; [reflexivity|].
    cbn [String.prefix].
    destruct (ascii_dec c d) as [->|Hne].
    + rewrite Ascii.eqb_refl. simpl. now apply IH.
    + destruct (Ascii.eqb d c) eqn:Hdc; [|reflexivity].
      apply Ascii.eqb_eq in Hdc. congruence.
Qed.

Lemma is_digit_plain (c : ascii) : is_digit c = true -> plain_char c = true.
Proof.
  destruct c as [[] [] [] [] [] [] [] []]; vm_compute; congruence.
Qed.

Lemma plain_text_append (a b : string) :
  plain_text (a ++ b) = plain_text a && plain_text b.
Proof.
  unfold plain_text. induction a as [|x a IH]; simpl; [reflexivity|].
  now rewrite IH, andb_assoc.
Qed.

Lemma digits_plain (s : string) :
  forallb is_digit (list_ascii_of_string s) = true -> plain_text s = true.
Proof.
  unfold plain_text. induction s as [|c s IH]; simpl; [reflexivity|].
  intros H. apply andb_true_iff in H as [Hc Hs].
  now rewrite (is_digit_plain c Hc), IH.
Qed.

Lemma day_prefix_length (day : string) :
  is_YYYYMMDD day = true -> String.length (day_prefix day) = 13%nat.
Proof.
  unfold is_YYYYMMDD, day_prefix. intros H.
  apply andb_true_iff in H as [Hlen _]. apply Nat.eqb_eq in Hlen.
  simpl. rewrite append_length, Hlen. reflexivity.
Qed.

(** On a day written with digits the LIKE condition of the trigger is
    the test for the prefix [ORD-day-]. *)
Lemma like_today_is_prefix (day s : string) :
  is_YYYYMMDD day = true ->
  sql_like (today_pattern day) s = String.prefix (day_prefix day) s.
Proof.
  intros H. unfold today_pattern, day_prefix.
  change ("ORD-" ++ day ++ "-%")%string
    with ("ORD-" ++ (day ++ ("-" ++ "%")))%string.
  rewrite <- (append_assoc day "-" "%").
  change ("ORD-" ++ ((day ++ "-") ++ "%"))%string
    with (String "O" (String "R" (String "D" (String "-" ((day ++ "-") ++ "%")))))%string.
  change ("ORD-" ++ day ++ "-")%string
    with (String "O" (String "R" (String "D" (String "-" (day ++ "-")))))%string.
  change (String "O" (String "R" (String "D" (String "-" ((day ++ "-") ++ "%")))))
    with (("ORD-" ++ (day ++ "-")) ++ "%")%string.
  apply sql_like_plain_prefix.
  change (String "O" (String "R" (String "D" (String "-" (day ++ "-")))))
    with ("ORD-" ++ (day ++ "-"))%string.
  rewrite !plain_text_append.
  unfold is_YYYYMMDD in H. apply andb_true_iff in H as [_ Hd].
  now rewrite (digits_plain day Hd).
Qed.

Lemma substring_of_order_number (day x : string) :
  is_YYYYMMDD day = true ->
  substring_from (day_prefix day ++ x) 14 = x.
Proof.
  intros H. unfold substring_from.
  change (14 - 1)%nat with 13%nat.
  rewrite <- (day_prefix_length day H). apply drop_append.
Qed.

Lemma order_number_of_split (day : string) (k : nat) :
  order_number_of day k = (day_prefix day ++ zero_padded_4 k)%string.
Proof.
  unfold order_number_of, day_prefix.
  change ("ORD-" ++ day ++ "-" ++ zero_padded_4 k)%string
    with ("ORD-" ++ (day ++ ("-" ++ zero_padded_4 k)))%string.
  rewrite <- (append_assoc day "-"). reflexivity.
Qed.

Lemma to_little_uint_succ (n : nat) : forall acc,
  Nat.to_little_uint n (Decimal.Little.succ acc)
  = Decimal.Little.succ (Nat.to_little_uint n acc).
Proof.
  induction n as [|n IH]; intros acc; [reflexivity|].
  cbn [Nat.to_little_uint]. now rewrite IH.
Qed.

Lemma counters_check_sound (fuel : nat) : forall k,
  counters_check fuel k (Z.of_nat k) (Nat.to_little_uint k Decimal.zero)
  = true ->
  forall j, (k <= j < k + fuel)%nat ->
    counter_reads_back j = true /\ counter_is_padded j = true.
Proof.
  induction fuel as [|fuel IH]; intros k Hcheck j Hj; [lia|].
  cbn [counters_check] in Hcheck.
  apply andb_true_iff in Hcheck as [Hcheck Hrest].
  apply andb_true_iff in Hcheck as [Hread Hpad].
  destruct (Nat.eq_dec j k) as [-> | Hne].
  - split; [exact Hread|exact Hpad].
  - apply (IH (S k)); [|lia].
    rewrite Nat2Z.inj_succ. unfold Z.succ.
    cbn [Nat.to_little_uint]. rewrite to_little_uint_succ. exact Hrest.
Qed.

Lemma counters_checked :
  counters_check (Z.to_nat 10000) 0 0 Decimal.zero = true.
Proof. vm_compute. reflexivity. Qed.

Lemma counters_read_back :
  forallb counter_reads_back (seq 0 (Z.to_nat 10000)) = true.
Proof.
  apply forallb_forall. intros k Hk. apply in_seq in Hk.
  apply (counters_check_sound _ 0%nat counters_checked k). lia.
Qed.

Lemma counters_are_padded :
  forallb counter_is_padded (seq 0 (Z.to_nat 10000)) = true.
Proof.
  apply forallb_forall. intros k Hk. apply in_seq in Hk.
  apply (counters_check_sound _ 0%nat counters_checked k). lia.
Qed.

Lemma cast_zero_padded (k : nat) :
  Z.of_nat k <= 9999 -> cast_integer (zero_padded_4 k) = Ok (Z.of_nat k).
Proof.
  intros Hk. pose proof counters_read_back as H.
  rewrite forallb_forall in H. specialize (H k).
  unfold counter_reads_back in H.
  destruct (cast_integer (zero_padded_4 k)) as [z|e].
  - f_equal. apply Z.eqb_eq. apply H. apply in_seq. lia.
  - assert (false = true) by (apply H; apply in_seq; lia). discriminate.
Qed.

Lemma lpad_counter (k : nat) :
  Z.of_nat k <= 9999 ->
  lpad (int_to_text (Z.of_nat k)) 4 "0" = zero_padded_4 k.
Proof.
  intros Hk. pose proof counters_are_padded as H.
  rewrite forallb_forall in H. apply String.eqb_eq.
  apply (H k). apply in_seq. lia.
Qed.

End TextFacts.

Section OrderFacts.

Implicit Types (t : Order.table) (r : Order.row) (day : string).

Lemma mapM_ok_map {A B : Type} (f : A -> result B) (g : A -> B) (l : list A) :
  (forall x, In x l -> f x = Ok (g x)) -> mapM f l = Ok (map g l).
Proof.
  induction l as [|x l IH]; intros Hf; simpl; [reflexivity|].
  rewrite (Hf x (or_introl eq_refl)). simpl.
  rewrite IH by (intros y Hy; apply Hf; now right). reflexivity.
Qed.


Lemma sql_max_upper (l : list Z) m :
  sql_max l = Some m -> In m l /\ forall x, In x l -> x <= m.
Proof.
  revert m. induction l as [|y l IH]; intros m; simpl; [discriminate|].
  destruct (sql_max l) as [m'|] eqn:Hmax.
  - intros [= <-]. destruct (IH m' eq_refl) as [Hin Hle]. split.
    + destruct (Z.max_spec y m') as [[_ ->] | [_ ->]]; auto.
    + intros x [-> | Hx]; [lia|]. specialize (Hle x Hx). lia.
  - intros [= <-]. destruct l as [|z l].
    + split; [now left|]. intros x [-> | []]. lia.
    + simpl in Hmax. destruct (sql_max l); discriminate.
Qed.

Lemma sql_max_none (l : list Z) : sql_max l = None -> l = [].
Proof.
  destruct l as [|y l]; [reflexivity|]. simpl.
  destruct (sql_max l); discriminate.
Qed.

Lemma coalesce_sql_max (l : list Z) m :
  (forall x, In x l -> x <= m) ->
  (l = [] -> m = 0) ->
  (l <> [] -> In m l) ->
  coalesce (sql_max l) 0 = m.
Proof.
  intros Hle Hnil Hin. destruct (sql_max l) as [m'|] eqn:Hmax; simpl.
  - destruct (sql_max_upper l m' Hmax) as [Hin' Hle'].
    assert (Hne : l <> []) by (intros ->; contradiction).
    specialize (Hin Hne). specialize (Hle m' Hin'). specialize (Hle' m Hin).
    lia.
  - symmetry. apply Hnil. now apply sql_max_none.
Qed.

Lemma filter_map_commute {A B : Type} (f : A -> B) (p : B -> bool) (l : list A) :
  map f (filter (fun x => p (f x)) l) = filter p (map f l).
Proof.
  induction l as [|x l IH]; simpl; [reflexivity|].
  destruct (p (f x)); simpl; now rewrite IH.
Qed.

(** The rows the subquery selects are the rows of the day. *)
Lemma selected_rows_of_day day t :
  is_YYYYMMDD day = true ->
  map Order.order_number
    (filter (fun r => sql_like (today_pattern day) (Order.order_number r)) t)
  = numbers_of_day day t.
Proof.
  intros Hday. unfold numbers_of_day.
  rewrite <- filter_map_commute. f_equal.
  apply filter_ext. intros r. now apply like_today_is_prefix.
Qed.

Lemma suffix_of_order_number day (k : nat) r :
  is_YYYYMMDD day = true ->
  Z.of_nat k <= 9999 ->
  Order.order_number r = order_number_of day k ->
  cast_integer (substring_from (Order.order_number r) 14) = Ok (Z.of_nat k).
Proof.
  intros Hday Hk ->.
  rewrite order_number_of_split, substring_of_order_number by exact Hday.
  now apply cast_zero_padded.
Qed.

Lemma order_number_of_inj day (j k : nat) :
  is_YYYYMMDD day = true ->
  Z.of_nat j <= 9999 -> Z.of_nat k <= 9999 ->
  order_number_of day j = order_number_of day k -> j = k.
Proof.
  intros Hday Hj Hk Heq.
  assert (H : cast_integer (substring_from (order_number_of day j) 14)
              = cast_integer (substring_from (order_number_of day k) 14))
    by now rewrite Heq.
  rewrite !order_number_of_split, !substring_of_order_number in H
    by exact Hday.
  rewrite !cast_zero_padded in H by assumption.
  injection H. lia.
Qed.

(** With the orders of the day numbered 1 to [n], the subquery yields
    [n + 1]. *)
Lemma next_order_counter_of_day day t (n : nat) :
  is_YYYYMMDD day = true ->
  Permutation (numbers_of_day day t) (map (order_number_of day) (seq 1 n)) ->
  Z.of_nat n <= 9999 ->
  next_order_counter day t = Ok (Z.of_nat n + 1).
Proof.
  intros Hday Hperm Hn. unfold next_order_counter.
  set (rows := filter (fun r => sql_like (today_pattern day)
                                  (Order.order_number r)) t).
  assert (Hrows : forall r, In r rows ->
            exists k : nat, (1 <= k <= n)%nat
              /\ Order.order_number r = order_number_of day k).
  { intros r Hr.
    assert (Hin : In (Order.order_number r) (numbers_of_day day t)).
    { rewrite <- (selected_rows_of_day day t Hday). now apply in_map. }
    apply (Permutation_in _ Hperm) in Hin.
    apply in_map_iff in Hin as [k [Hk Hin]]. apply in_seq in Hin.
    exists k. split; [lia|now symmetry]. }
  assert (Hcast : forall r, In r rows ->
            cast_integer (substring_from (Order.order_number r) 14)
            = Ok (suffix_value r)).
  { intros r Hr. destruct (Hrows r Hr) as [k [Hk Hnum]].
    unfold suffix_value.
    rewrite (suffix_of_order_number day k r Hday); [reflexivity|lia|exact Hnum]. }
  change (bind
            (mapM (fun r => cast_integer
                              (substring_from (Order.order_number r) 14)) rows)
            (fun suffixes => int4pl (coalesce (sql_max suffixes) 0) 1)
          = Ok (Z.of_nat n + 1)).
  rewrite (mapM_ok_map _ suffix_value rows Hcast). simpl.
  rewrite (coalesce_sql_max (map suffix_value rows) (Z.of_nat n)).
  - unfold int4pl, INT_MIN, INT_MAX.
    destruct (Z.of_nat n + 1 <? -2147483648) eqn:H1; [lia|].
    destruct (Z.of_nat n + 1 >? 2147483647) eqn:H2; [lia|]. reflexivity.
  - intros x Hx. apply in_map_iff in Hx as [r [<- Hr]].
    destruct (Hrows r Hr) as [k [Hk Hnum]]. unfold suffix_value.
    rewrite (suffix_of_order_number day k r Hday); [lia|lia|exact Hnum].
  - intros Hnil. destruct n as [|n']; [reflexivity|]. exfalso.
    assert (Hin : In (order_number_of day 1) (numbers_of_day day t)).
    { apply (Permutation_in _ (Permutation_sym Hperm)).
      apply in_map. apply in_seq. lia. }
    rewrite <- (selected_rows_of_day day t Hday) in Hin.
    fold rows in Hin. apply map_eq_nil in Hnil. rewrite Hnil in Hin.
    contradiction.
  - intros Hne. destruct n as [|n'].
    + exfalso. apply Hne. simpl in Hperm.
      apply Permutation_sym, Permutation_nil in Hperm.
      rewrite <- (selected_rows_of_day day t Hday) in Hperm.
      fold rows in Hperm. apply map_eq_nil in Hperm. now rewrite Hperm.
    + assert (Hin : In (order_number_of day (S n')) (numbers_of_day day t)).
      { apply (Permutation_in _ (Permutation_sym Hperm)).
        apply in_map. apply in_seq. lia. }
      rewrite <- (selected_rows_of_day day t Hday) in Hin.
      fold rows in Hin. apply in_map_iff in Hin as [r [Hnum Hr]].
      apply in_map_iff. exists r. split; [|exact Hr].
      unfold suffix_value.
      rewrite (suffix_of_order_number day (S n') r Hday);
        [reflexivity|lia|exact Hnum].
Qed.

End OrderFacts.

Section OrderNumberClaims.

Implicit Types (t : Order.table) (r : Order.row) (NEW : Order.candidate)
  (day today : string).

Lemma null_or_empty_set (n : string) :
  n <> "" -> null_or_empty (Some n) = false.
Proof.
  intros Hn. simpl. destruct (String.eqb n "") eqn:H; [|reflexivity].
  apply String.eqb_eq in H. contradiction.
Qed.

Lemma existsb_has_order_number (n : string) t :
  existsb (has_order_number n) t = true
  <-> In n (map Order.order_number t).
Proof.
  rewrite existsb_exists, in_map_iff. unfold has_order_number. split.
  - intros [r [Hin Heq]]. apply String.eqb_eq in Heq. eauto.
  - intros [r [Heq Hin]]. exists r. split; [exact Hin|].
    now apply String.eqb_eq.
Qed.

(** The next number of the day is not taken yet. *)
Lemma next_number_is_new day t (n : nat) :
  is_YYYYMMDD day = true ->
  Permutation (numbers_of_day day t) (map (order_number_of day) (seq 1 n)) ->
  Z.of_nat n <= 9998 ->
  existsb (has_order_number (order_number_of day (n + 1))) t = false.
Proof.
  intros Hday Hperm Hn.
  destruct (existsb _ t) eqn:Hex; [|reflexivity]. exfalso.
  apply existsb_has_order_number in Hex.
  assert (Hin : In (order_number_of day (n + 1)) (numbers_of_day day t)).
  { unfold numbers_of_day. apply filter_In. split; [exact Hex|].
    rewrite order_number_of_split. apply prefix_append. }
  apply (Permutation_in _ Hperm) in Hin.
  apply in_map_iff in Hin as [k [Hk Hin]]. apply in_seq in Hin.
  apply order_number_of_inj in Hk; [lia|exact Hday|lia|lia].
Qed.

(** An insert whose order number, after the trigger, is taken is
    rejected. *)
Lemma insert_order_taken today NEW t (NEW' : Order.candidate) (n : string) :
  set_order_number today t NEW = Ok NEW' ->
  Order.order_number NEW' = Some n ->
  existsb (has_order_number n) t = true ->
  insert_order today NEW t = Error unique_violation.
Proof.
  intros Hset Hn Htaken. unfold insert_order. rewrite Hset. simpl.
  rewrite Hn, Htaken, orb_true_r. reflexivity.
Qed.

End OrderNumberClaims.



(** The scenario of the specification: the first two orders of
    2025-09-17. *)
Example first_two_orders_of_a_day :
  insert_order "20250917" (plain_order 1%N None) []
  = Ok (plain_order 1%N "ORD-20250917-0001",
        [plain_order 1%N "ORD-20250917-0001"])
  /\ insert_order "20250917" (plain_order 2%N (Some ""))
       [plain_order 1%N "ORD-20250917-0001"]
     = Ok (plain_order 2%N "ORD-20250917-0002",
           [plain_order 1%N "ORD-20250917-0001";
            plain_order 2%N "ORD-20250917-0002"]).
Proof. split; reflexivity. Qed.



(** C3.  An order inserted with a non-empty order number keeps it: the
    trigger returns the row as it came, and the insert, unless the
    identifier or the number is taken, stores the row under that number. *)
Theorem preset_order_number_is_kept :
  forall (today : string) (t : Order.table) (NEW : Order.candidate)
         (n : string),
    Order.order_number NEW = Some n ->
    n <> "" ->
    set_order_number today t NEW = Ok NEW
    /\ insert_order today NEW t
       = (if existsb (has_order_id (Order.id NEW)) t
             || existsb (has_order_number n) t
          then Error unique_violation
          else Ok (Order.with_order_number n NEW,
                   t ++ [Order.with_order_number n NEW]))
    /\ (forall stored t',
          insert_order today NEW t = Ok (stored, t') ->
          Order.order_number stored = n /\ In stored t').
Proof.
  intros today t NEW n Hn Hne.
  assert (Hset : set_order_number today t NEW = Ok NEW).
  { unfold set_order_number. now rewrite Hn, (null_or_empty_set n Hne). }
  assert (Hins : insert_order today NEW t
                 = (if existsb (has_order_id (Order.id NEW)) t
                       || existsb (has_order_number n) t
                    then Error unique_violation
                    else Ok (Order.with_order_number n NEW,
                             t ++ [Order.with_order_number n NEW]))).
  { unfold insert_order. rewrite Hset. simpl. now rewrite Hn. }
  split; [exact Hset|]. split; [exact Hins|].
  intros stored t'. rewrite Hins.
  destruct (existsb (has_order_id (Order.id NEW)) t
            || existsb (has_order_number n) t); [discriminate|].
  intros [= <- <-]. split; [reflexivity|].
  apply in_or_app. right. now left.
Qed.

Lemma preset_order_number_is_kept_witness :
  insert_order "20250917" (plain_order 9%N (Some "ORD-20250101-0007"))
    (day_orders "20250917" 2)
  = Ok (plain_order 9%N "ORD-20250101-0007",
        day_orders "20250917" 2 ++ [plain_order 9%N "ORD-20250101-0007"]).
Proof.
  assert (Hne : "ORD-20250101-0007" <> "") by discriminate.
  exact (proj1 (proj2 (preset_order_number_is_kept "20250917"
                         (day_orders "20250917" 2)
                         (plain_order 9%N (Some "ORD-20250101-0007"))
                         "ORD-20250101-0007" eq_refl Hne))).
Defined.

(** The function of the migration "Create order number function" assigns
    a number whatever the row came with. *)
Example create_order_number_function_overwrites :
  CreateOrderNumberFunction.set_order_number "20250917" []
    (plain_order 9%N (Some "ORD-20250101-0007"))
  = Ok (plain_order 9%N (Some "ORD-20250917-0001")).
Proof. reflexivity. Qed.






Section OrdersUnique.

Implicit Types (t : Order.table) (r : Order.row).

Lemma existsb_has_order_id (i : uuid) t :
  existsb (has_order_id i) t = true <-> In i (map Order.id t).
Proof.
  rewrite existsb_exists, in_map_iff. unfold has_order_id. split.
  - intros [r [Hin Heq]]. apply N.eqb_eq in Heq. eauto.
  - intros [r [Heq Hin]]. exists r. split; [exact Hin|].
    now apply N.eqb_eq.
Qed.

Lemma NoDup_snoc {A : Type} (l : list A) (x : A) :
  NoDup l -> ~ In x l -> NoDup (l ++ [x]).
Proof.
  intros Hl Hx. apply NoDup_app; [exact Hl|repeat constructor; simpl; tauto|].
  intros y Hy [<- | []]. contradiction.
Qed.

Lemma insert_order_ok today NEW t stored t' :
  orders_ok t -> insert_order today NEW t = Ok (stored, t') -> orders_ok t'.
Proof.
  intros [Hid Hnum]. unfold insert_order.
  destruct (set_order_number today t NEW) as [NEW'|e]; [|discriminate].
  simpl. destruct (Order.order_number NEW') as [n|]; [|discriminate].
  destruct (existsb (has_order_id (Order.id NEW')) t) eqn:Hpk;
    [discriminate|].
  destruct (existsb (has_order_number n) t) eqn:Huq; [discriminate|].
  simpl. intros [= <- <-]. split; rewrite map_app; simpl.
  - apply NoDup_snoc; [exact Hid|].
    rewrite <- existsb_has_order_id. congruence.
  - apply NoDup_snoc; [exact Hnum|].
    rewrite <- existsb_has_order_number. congruence.
Qed.

Lemma replace_order_ok (i : uuid) (NEW : Order.row) t :
  Order.id NEW = i ->
  (forall r, In r t -> Order.id r <> i ->
             Order.order_number r <> Order.order_number NEW) ->
  orders_ok t ->
  orders_ok (map (fun r => if has_order_id i r then NEW else r) t).
Proof.
  intros HidNEW Hother [Hid Hnum].
  assert (Hids : map Order.id (map (fun r => if has_order_id i r then NEW else r) t)
                 = map Order.id t).
  { rewrite map_map. apply map_ext. intros r. unfold has_order_id.
    destruct (N.eqb (Order.id r) i) eqn:Hr; [|reflexivity].
    apply N.eqb_eq in Hr. congruence. }
  split; [now rewrite Hids|]. clear Hids.
  induction t as [|x t IH]; simpl; [constructor|].
  simpl in Hid, Hnum.
  inversion Hid as [|? ? Hxid Hid']; subst.
  inversion Hnum as [|? ? Hxnum Hnum']; subst.
  assert (IH' := IH (fun r Hr => Hother r (or_intror Hr)) Hid' Hnum').
  constructor; [|exact IH'].
  rewrite map_map. intros Hin. apply in_map_iff in Hin as [y [Hy Hin]].
  unfold has_order_id in *.
  destruct (N.eqb (Order.id x) (Order.id NEW)) eqn:Hx;
    destruct (N.eqb (Order.id y) (Order.id NEW)) eqn:Hyi.
  - apply N.eqb_eq in Hx, Hyi. apply Hxid. rewrite Hx, <- Hyi.
    now apply in_map.
  - apply N.eqb_neq in Hyi.
    apply (Hother y (or_intror Hin) Hyi). exact Hy.
  - apply N.eqb_neq in Hx.
    apply (Hother x (or_introl eq_refl) Hx). now symmetry.
  - apply Hxnum. rewrite <- Hy. now apply in_map.
Qed.

Lemma update_order_ok i set t t' :
  orders_ok t -> update_order i set t = Ok t' -> orders_ok t'.
Proof.
  intros Hok. unfold update_order.
  destruct (find (has_order_id i) t) as [OLD|] eqn:Hfind;
    [|now intros [= <-]].
  apply find_some in Hfind as [_ HOLD].
  unfold has_order_id in HOLD. apply N.eqb_eq in HOLD.
  match goal with
  | |- context [existsb ?f t] => destruct (existsb f t) eqn:Hex
  end; [discriminate|].
  intros [= <-]. apply replace_order_ok; [exact HOLD| |exact Hok].
  intros r Hr Hri Heq.
  assert (Hfalse : existsb
            (fun r0 => negb (has_order_id i r0)
                       && has_order_number (Order.order_number (set OLD)) r0)
            t = true).
  { apply existsb_exists. exists r. split; [exact Hr|].
    unfold has_order_id, has_order_number.
    apply N.eqb_neq in Hri. rewrite Hri. simpl.
    apply String.eqb_eq. exact Heq. }
  simpl in Hex. congruence.
Qed.

Lemma delete_orders_ok where_ t :
  orders_ok t -> orders_ok (delete_orders where_ t).
Proof.
  intros [Hid Hnum]. unfold delete_orders.
  split; now apply NoDup_keys_filter.
Qed.

Lemma orders_reachable_ok t : orders_reachable t -> orders_ok t.
Proof.
  induction 1 as [|w t t' _ IH Hrun].
  - split; constructor.
  - destruct w as [today NEW|i set|where_]; simpl in Hrun.
    + destruct (insert_order today NEW t) as [[stored t1]|e] eqn:Hins;
        [|discriminate].
      simpl in Hrun. injection Hrun as <-.
      eapply insert_order_ok; eauto.
    + eapply update_order_ok; eauto.
    + injection Hrun as <-. now apply delete_orders_ok.
Qed.

End OrdersUnique.

(** C5.  In every table reached by committed inserts, updates and deletes
    of orders, no two rows have the same order number; an insert whose
    order number, given or generated, is that of a stored row is rejected
    as a violation of the unique constraint. *)
Theorem order_numbers_are_distinct :
  forall (t : Order.table),
    orders_reachable t ->
    NoDup (map Order.order_number t)
    /\ (forall today NEW NEW' n,
          set_order_number today t NEW = Ok NEW' ->
          Order.order_number NEW' = Some n ->
          In n (map Order.order_number t) ->
          insert_order today NEW t = Error unique_violation).
Proof.
  intros t Hreach. split.
  - exact (proj2 (orders_reachable_ok t Hreach)).
  - intros today NEW NEW' n Hset Hn Hin.
    apply (insert_order_taken today NEW t NEW' n Hset Hn).
    now apply existsb_has_order_number.
Qed.

Lemma order_numbers_are_distinct_witness :
  NoDup (map Order.order_number
           [plain_order 1%N "ORD-20250917-0001";
            plain_order 2%N "ORD-20250917-0002"])
  /\ insert_order "20250917" (plain_order 3%N (Some "ORD-20250917-0002"))
       [plain_order 1%N "ORD-20250917-0001";
        plain_order 2%N "ORD-20250917-0002"]
     = Error unique_violation.
Proof.
  assert (Hreach : orders_reachable
            [plain_order 1%N "ORD-20250917-0001";
             plain_order 2%N "ORD-20250917-0002"]).
  { apply (orders_commit (InsertOrder "20250917" (plain_order 2%N None))
             [plain_order 1%N "ORD-20250917-0001"]); [|reflexivity].
    apply (orders_commit (InsertOrder "20250917" (plain_order 1%N None)) []);
      [|reflexivity].
    apply orders_empty. }
  destruct (order_numbers_are_distinct _ Hreach) as [Hnd Hrej].
  split; [exact Hnd|].
  apply (Hrej "20250917" (plain_order 3%N (Some "ORD-20250917-0002"))
           (plain_order 3%N (Some "ORD-20250917-0002")) "ORD-20250917-0002");
    [reflexivity|reflexivity|].
  simpl. auto.
Defined.

(* ===================================================================== *)
(** * Properties of the checkout *)
(* ===================================================================== *)

Section Decimal.


Lemma round_half_away_exact (x : Q) (c : Z) :
  (x == inject_Z c)%Q -> round_half_away x = c.
Proof.
destruct x as [n d]. unfold round_half_away, Qeq, inject_Z.
cbn [Qnum Qden]. rewrite Z.mul_1_r. intros ->.
set (q := (2 * Z.abs (c * Z.pos d) + Z.pos d) / (2 * Z.pos d)).
assert (Hd : 0 < 2 * Z.pos d) by lia.
pose proof (Z.mul_div_le (2 * Z.abs (c * Z.pos d) + Z.pos d) (2 * Z.pos d) Hd)
  as Hq1.
pose proof (Z.mul_succ_div_gt (2 * Z.abs (c * Z.pos d) + Z.pos d)
              (2 * Z.pos d) Hd) as Hq2.
fold q in Hq1, Hq2. clearbody q.
rewrite Z.abs_mul, (Z.abs_eq (Z.pos d)) in Hq1, Hq2 by lia.
rewrite Z.sgn_mul. change (Z.sgn (Z.pos d)) with 1. rewrite Z.mul_1_r.
assert (Hq : q = Z.abs c) by nia.
rewrite Hq. destruct (Z.sgn_spec c) as [[Hn ->] | [[Hn ->] | [Hn ->]]]; lia.
Qed.

Lemma numeric_10_2_cents (x y : Q) :
  numeric_10_2 x = Ok y -> y = (round_half_away (x * 100) # 100).
Proof.
unfold numeric_10_2.
destruct (Z.abs (round_half_away (x * 100)) <? 10 ^ 10); [|discriminate].
now intros [= <-].
Qed.


(** An amount in whole cents is stored as it is. *)
Lemma numeric_10_2_exact (x y : Q) :
  numeric_10_2 x = Ok y -> whole_cents x -> (y == x)%Q.
Proof.
intros Hy [c Hc]. rewrite (numeric_10_2_cents x y Hy).
assert (H100 : (x * 100 == inject_Z c)%Q).
{ rewrite Hc, (Qmake_Qdiv c 100). field. }
rewrite (round_half_away_exact _ c H100). now rewrite Hc.
Qed.


End Decimal.

Section Numbers.



















End Numbers.

Section CheckoutFacts.

(** An order insert that commits: the amounts have gone through their
    columns, the total is not NULL, the trigger has given the number, and
    the row is appended. *)
Lemma orders_insert_committed (env : environment) (d : OrderData.json)
  (base : database) (order : Order.row) (db1 : database) :
  orders_insert env d base = Ok (order, db1) ->
  exists total shipping tax discount n,
    numeric_10_2_of (OrderData.total_amount d) = Ok (Some total)
    /\ numeric_10_2_of (OrderData.shipping_amount d) = Ok shipping
    /\ numeric_10_2_of (OrderData.tax_amount d) = Ok tax
    /\ numeric_10_2_of (OrderData.discount_amount d) = Ok discount
    /\ order
       = Order.mk (new_order_id env) n (OrderData.user_id d)
           (OrderData.status d) (OrderData.payment_status d) total
           shipping tax discount (Some (OrderData.currency d))
           (OrderData.shipping_address d)
           (Some (OrderData.payment_method d))
    /\ db1 = with_orders (orders base ++ [order]) base.
Proof.
unfold orders_insert.
destruct (numeric_10_2_of (OrderData.total_amount d)) as [total|e];
  [|discriminate].
destruct (numeric_10_2_of (OrderData.shipping_amount d)) as [shipping|e];
  [|discriminate].
destruct (numeric_10_2_of (OrderData.tax_amount d)) as [tax|e];
  [|discriminate].
destruct (numeric_10_2_of (OrderData.discount_amount d)) as [discount|e];
  [|discriminate].
cbn [bind]. destruct total as [total|].
2:{ match goal with
    | |- context [set_order_number ?day ?t ?NEW] =>
        destruct (set_order_number day t NEW)
    end; discriminate. }
unfold insert_order_as, set_order_number.
cbn [null_or_empty Order.order_number].
match goal with
| |- context [generated_order_number ?day ?t] =>
    destruct (generated_order_number day t) as [n|e]
end; [|discriminate].
cbn [bind Order.order_number Order.with_order_number Order.id Order.user_id].
rewrite N.eqb_refl. cbn [negb].
match goal with
| |- context [if ?c then ran (Error unique_violation) else _] => destruct c
end; [discriminate|].
cbn [bind fst snd]. intros [= <- <-].
exists total, shipping, tax, discount, n. auto 10.
Qed.

Lemma orders_insert_stores (env : environment) (d : OrderData.json)
  (base : database) (order : Order.row) (db1 : database) :
  orders_insert env d base = Ok (order, db1) ->
  numeric_10_2_of (OrderData.total_amount d)
  = Ok (Some (Order.total_amount order))
  /\ (numeric_10_2_of (OrderData.shipping_amount d)
      = Ok (Order.shipping_amount order)
      /\ numeric_10_2_of (OrderData.tax_amount d)
         = Ok (Order.tax_amount order)
      /\ numeric_10_2_of (OrderData.discount_amount d)
         = Ok (Order.discount_amount order))
  /\ Order.shipping_address order = OrderData.shipping_address d
  /\ Order.user_id order = OrderData.user_id d
  /\ db1 = with_orders (orders base ++ [order]) base.
Proof.
intros Hins.
destruct (orders_insert_committed _ _ _ _ _ Hins)
  as [total [shipping [tax [discount [n [Ht [Hs [Hx [Hd [-> ->]]]]]]]]]].
cbn. auto 10.
Qed.

Lemma order_item_row_stores (base : database) (stored : list OrderItem.row)
  (i : uuid) (x : OrderItem.json) (r : OrderItem.row) :
  order_item_row base stored i x = Ok r -> stored_as x r.
Proof.
unfold order_item_row, stored_as.
destruct (numeric_10_2_of (OrderItem.unit_price x)) as [unit|e];
  [|discriminate].
destruct (numeric_10_2_of (OrderItem.total_price x)) as [total|e];
  [|discriminate].
cbn [bind]. destruct unit as [unit|]; [|discriminate].
destruct total as [total|]; [|discriminate].
match goal with |- (if ?c then _ else _) = _ -> _ => destruct c end;
  [discriminate|].
match goal with |- (if ?c then _ else _) = _ -> _ => destruct c end;
  [discriminate|].
intros [= <-]. cbn. auto 10.
Qed.

Lemma order_item_rows_store (env : environment) (base : database)
  (xs : list OrderItem.json) : forall stored k rows,
  order_item_rows env base stored k xs = Ok rows ->
  exists new, rows = stored ++ new /\ Forall2 stored_as xs new.
Proof.
induction xs as [|x xs IH]; intros stored k rows; cbn [order_item_rows].
- intros [= <-]. exists []. split; [now rewrite app_nil_r|constructor].
- destruct (order_item_row base stored (new_item_id env k) x) as [r|e] eqn:Hr;
    [|discriminate].
  cbn [bind]. intros Hrest.
  destruct (IH _ _ _ Hrest) as [new [-> Hnew]].
  exists (r :: new). split; [now rewrite <- app_assoc|].
  constructor; [|exact Hnew]. eapply order_item_row_stores; eauto.
Qed.

Lemma order_items_insert_stores (env : environment)
  (xs : list OrderItem.json) (base db2 : database) :
  order_items_insert env xs base = Ok db2 ->
  exists new,
    db2 = with_order_items (order_items base ++ new) base
    /\ Forall2 stored_as xs new.
Proof.
unfold order_items_insert.
destruct (order_item_rows env base (order_items base) 0 xs) as [rows|e] eqn:Hrows;
  [|discriminate].
cbn [bind]. intros [= <-].
destruct (order_item_rows_store _ _ _ _ _ _ Hrows) as [new [-> Hnew]].
exists new. auto.
Qed.

Context {cart : Type} `{CartContext cart}.

Variables (env : environment) (user : uuid) (selectedAddress : Address.row)
  (paymentMethod : string) (paymentForm : payment_form) (w0 : world cart).

Let c : cart := cart_state w0.
Let d : OrderData.json := make_orderData user selectedAddress paymentMethod c.


(** The four ways through handlePaymentSubmit. *)
Lemma handlePaymentSubmit_card_details_missing :
  card_details_missing paymentMethod paymentForm = true ->
  handlePaymentSubmit env user selectedAddress paymentMethod paymentForm w0
  = mk_world (db w0) c
      (mk_page (currentStep (ui w0)) false "Please fill in all card details"
         (orderPlaced (ui w0)) (newOrderId (ui w0)))
      (requests w0).
Proof. intros Hcard. unfold handlePaymentSubmit. now rewrite Hcard. Qed.

Lemma handlePaymentSubmit_order_rejected (e : sqlstate) :
  card_details_missing paymentMethod paymentForm = false ->
  orders_insert env d (db w0) = Error e ->
  handlePaymentSubmit env user selectedAddress paymentMethod paymentForm w0
  = placing_failed env e
      (mk_world (db w0) c
         (mk_page (currentStep (ui w0)) true "" (orderPlaced (ui w0))
            (newOrderId (ui w0)))
         (requests w0 ++ [orders_insert_request (Error e)])).
Proof.
intros Hcard Horder. unfold handlePaymentSubmit. rewrite Hcard.
cbn [db cart_state ui requests]. fold c. fold d. now rewrite Horder.
Qed.

Lemma handlePaymentSubmit_items_rejected (order : Order.row)
  (db1 : database) (e : sqlstate) :
  card_details_missing paymentMethod paymentForm = false ->
  orders_insert env d (db w0) = Ok (order, db1) ->
  order_items_insert env (make_orderItems order c) db1 = Error e ->
  handlePaymentSubmit env user selectedAddress paymentMethod paymentForm w0
  = placing_failed env e
      (mk_world db1 c
         (mk_page (currentStep (ui w0)) true "" (orderPlaced (ui w0))
            (newOrderId (ui w0)))
         (requests w0 ++ [orders_insert_request (Ok order);
                          order_items_insert_request (Error e)])).
Proof.
intros Hcard Horder Hitems. unfold handlePaymentSubmit. rewrite Hcard.
cbn [db cart_state ui requests]. fold c. fold d. rewrite Horder.
cbn [db cart_state ui requests]. fold c. rewrite Hitems.
now rewrite <- app_assoc.
Qed.

Lemma handlePaymentSubmit_completed (order : Order.row) (db1 db2 : database) :
  card_details_missing paymentMethod paymentForm = false ->
  orders_insert env d (db w0) = Ok (order, db1) ->
  order_items_insert env (make_orderItems order c) db1 = Ok db2 ->
  handlePaymentSubmit env user selectedAddress paymentMethod paymentForm w0
  = mk_world db2 (clearCart c)
      (mk_page 3 false "" true (Some (Order.order_number order)))
      (requests w0 ++ completed_requests order).
Proof.
intros Hcard Horder Hitems. unfold handlePaymentSubmit. rewrite Hcard.
cbn [db cart_state ui requests]. fold c. fold d. rewrite Horder.
cbn [db cart_state ui requests]. fold c. rewrite Hitems.
cbn [error]. now rewrite <- app_assoc.
Qed.

End CheckoutFacts.

(** C8.  The order that handlePaymentSubmit stores carries a shipping
    address of its own whose eight fields (name, the two address lines,
    city, state, postal code, country, phone) hold what the same fields of
    the selected address row held when the order was placed.  No write to
    [addresses] that follows, update or delete of that row included,
    changes a row of [orders]: the order is still stored, with those
    fields. *)
Theorem shipping_address_is_a_copy :
  forall (cart : Type) (C : CartContext cart) (env : environment)
         (user : uuid) (selectedAddress : Address.row)
         (paymentMethod : string) (c : cart)
         (base : database) (order : Order.row) (db1 : database),
    orders_insert env
      (make_orderData user selectedAddress paymentMethod c) base
    = Ok (order, db1) ->
    (ShippingAddress.name (Order.shipping_address order)
        = Address.name selectedAddress
     /\ ShippingAddress.address_line_1 (Order.shipping_address order)
        = Address.address_line_1 selectedAddress
     /\ ShippingAddress.address_line_2 (Order.shipping_address order)
        = Address.address_line_2 selectedAddress
     /\ ShippingAddress.city (Order.shipping_address order)
        = Address.city selectedAddress
     /\ ShippingAddress.state (Order.shipping_address order)
        = Address.state selectedAddress
     /\ ShippingAddress.postal_code (Order.shipping_address order)
        = Address.postal_code selectedAddress
     /\ ShippingAddress.country (Order.shipping_address order)
        = Address.country selectedAddress
     /\ ShippingAddress.phone (Order.shipping_address order)
        = Address.phone selectedAddress)
    /\ In order (orders db1)
    /\ (forall (ws : list address_write) (db2 : database),
          run_address_writes ws db1 = Ok db2 ->
          orders db2 = orders db1 /\ In order (orders db2)).
Proof.
intros cart C env user selectedAddress paymentMethod c base order db1 Hins.
destruct (orders_insert_stores _ _ _ _ _ Hins)
  as [_ [_ [Haddr [_ ->]]]].
assert (Hin : In order (orders (with_orders (orders base ++ [order]) base))).
{ cbn. apply in_or_app. right. now left. }
split; [rewrite Haddr; cbn; auto 10|]. split; [exact Hin|].
revert Hin. generalize (with_orders (orders base ++ [order]) base). clear.
intros db1 Hin ws db2 Hrun.
assert (Hsame : orders db2 = orders db1).
{ clear Hin. revert db1 db2 Hrun.
  induction ws as [|w ws IH]; intros db1 db2; cbn [run_address_writes].
  - now intros [= <-].
  - unfold run_address_write_db.
    destruct (run_address_write w (addresses db1)) as [t|e]; [|discriminate].
    cbn [bind]. intros Hrest. now rewrite (IH _ _ Hrest). }
split; [exact Hsame|]. now rewrite Hsame.
Qed.

Lemma shipping_address_is_a_copy_witness :
  orders_insert checkout_env
    (make_orderData 1%N address_A "cod" (cart_state checkout_world))
    (db checkout_world)
  = Ok (yoga_order, with_orders [yoga_order] (db checkout_world))
  /\ Order.shipping_address yoga_order
     = ShippingAddress.mk "Ada" "1 Main St" None "Springfield" None "12345"
         "United States" None
  /\ ShippingAddress.city (Order.shipping_address yoga_order)
     = Address.city address_A
  /\ run_address_writes [rewrite_address_A; DeleteAddresses (has_id 10%N)]
       (with_orders [yoga_order] (db checkout_world))
     = Ok (mk_database [address_B; address_C] [yoga_order] [] [yoga_mat])
  /\ orders (mk_database [address_B; address_C] [yoga_order] [] [yoga_mat])
     = orders (with_orders [yoga_order] (db checkout_world)).
Proof.
assert (Hins : orders_insert checkout_env
                 (make_orderData 1%N address_A "cod" (cart_state checkout_world))
                 (db checkout_world)
               = Ok (yoga_order, with_orders [yoga_order] (db checkout_world)))
  by reflexivity.
assert (Hrun : run_address_writes
                 [rewrite_address_A; DeleteAddresses (has_id 10%N)]
                 (with_orders [yoga_order] (db checkout_world))
               = Ok (mk_database [address_B; address_C] [yoga_order] []
                       [yoga_mat]))
  by reflexivity.
destruct (shipping_address_is_a_copy _ _ checkout_env 1%N address_A
            "cod" (cart_state checkout_world) (db checkout_world)
            yoga_order _ Hins)
  as [[_ [_ [_ [Hcity _]]]] [_ Hframe]].
split; [exact Hins|]. split; [reflexivity|]. split; [exact Hcity|].
split; [exact Hrun|]. exact (proj1 (Hframe _ _ Hrun)).
Defined.


Section CheckoutAmounts.

Local Open Scope Q_scope.


















End CheckoutAmounts.



(** C10.  A submission clears the cart only at the end of the one path on
    which the order insert and then the order-items insert have both
    committed; on every other path the cart is as it was.  When the
    order-items insert is rejected, the order inserted before stays
    stored, without items, the cart is as it was, and the page shows the
    failure as an error message instead of the confirmation. *)
Theorem cart_cleared_only_after_both_inserts :
  forall (cart : Type) (C : CartContext cart) (env : environment)
         (user : uuid) (selectedAddress : Address.row)
         (paymentMethod : string) (paymentForm : payment_form)
         (w0 : world cart),
    let w1 :=
      handlePaymentSubmit env user selectedAddress paymentMethod paymentForm
        w0 in
    ((exists order,
        requests w1 = requests w0 ++ completed_requests order
        /\ cart_state w1 = clearCart (cart_state w0)
        /\ In order (orders (db w1)))
     \/ (exists new,
           requests w1 = requests w0 ++ new
           /\ ~ In clearCart_request new
           /\ cart_state w1 = cart_state w0))
    /\ (forall (order : Order.row) (db1 : database) (e : sqlstate),
          card_details_missing paymentMethod paymentForm = false ->
          orders_insert env
            (make_orderData user selectedAddress paymentMethod (cart_state w0))
            (db w0) = Ok (order, db1) ->
          order_items_insert env (make_orderItems order (cart_state w0)) db1
          = Error e ->
          orders (db w1) = orders (db w0) ++ [order]
          /\ order_items (db w1) = order_items (db w0)
          /\ cart_state w1 = cart_state w0
          /\ requests w1
             = requests w0 ++ [orders_insert_request (Ok order);
                               order_items_insert_request (Error e)]
          /\ error (ui w1)
             = ("Error placing order: "
                ++ (if String.eqb (message env e) "" then "Please try again."
                    else message env e))%string
          /\ orderPlaced (ui w1) = orderPlaced (ui w0)
          /\ currentStep (ui w1) = currentStep (ui w0)
          /\ loading (ui w1) = false).
Proof.
intros cart C env user selectedAddress paymentMethod paymentForm w0 w1.
split.
- destruct (card_details_missing paymentMethod paymentForm) eqn:Hcard.
  { right. exists []. unfold w1.
    rewrite handlePaymentSubmit_card_details_missing by exact Hcard.
    cbn [requests cart_state]. rewrite app_nil_r. auto. }
  destruct (orders_insert env
              (make_orderData user selectedAddress paymentMethod (cart_state w0))
              (db w0)) as [[order db1]|e] eqn:Horder.
  2:{ right. exists [orders_insert_request (Error e)]. unfold w1.
      rewrite (handlePaymentSubmit_order_rejected _ _ _ _ _ _ e Hcard Horder).
      cbn [placing_failed requests cart_state db ui].
      split; [reflexivity|]. split; [|reflexivity].
      intros [Hin | []]. discriminate Hin. }
  destruct (order_items_insert env (make_orderItems order (cart_state w0)) db1)
    as [db2|e] eqn:Hitems.
  + left. exists order. unfold w1.
    rewrite (handlePaymentSubmit_completed _ _ _ _ _ _ order db1 db2
               Hcard Horder Hitems).
    cbn [requests cart_state db].
    split; [reflexivity|]. split; [reflexivity|].
    destruct (orders_insert_stores _ _ _ _ _ Horder) as [_ [_ [_ [_ Hdb1]]]].
    destruct (order_items_insert_stores _ _ _ _ Hitems) as [rows [Hdb2 _]].
    rewrite Hdb2, Hdb1. cbn. apply in_or_app. right. now left.
  + right.
    exists [orders_insert_request (Ok order);
            order_items_insert_request (Error e)].
    unfold w1.
    rewrite (handlePaymentSubmit_items_rejected _ _ _ _ _ _ order db1 e
               Hcard Horder Hitems).
    cbn [placing_failed requests cart_state db ui].
    split; [reflexivity|]. split; [|reflexivity].
    intros [Hin | [Hin | []]]; discriminate Hin.
- intros order db1 e Hcard Horder Hitems. unfold w1.
  rewrite (handlePaymentSubmit_items_rejected _ _ _ _ _ _ order db1 e
             Hcard Horder Hitems).
  cbn [placing_failed requests cart_state db ui error orderPlaced
       currentStep loading].
  destruct (orders_insert_stores _ _ _ _ _ Horder) as [_ [_ [_ [_ Hdb1]]]].
  rewrite Hdb1. cbn. auto 10.
Qed.

Lemma cart_cleared_only_after_both_inserts_witness :
  orders (db (handlePaymentSubmit checkout_env 1%N address_A "cod" no_card
                stale_cart_world))
  = [] ++ [yoga_order]
  /\ order_items (db (handlePaymentSubmit checkout_env 1%N address_A "cod"
                        no_card stale_cart_world))
     = []
  /\ cart_state (handlePaymentSubmit checkout_env 1%N address_A "cod" no_card
                   stale_cart_world)
     = [CartItem.mk 7%N 1 yoga_mat]
  /\ error (ui (handlePaymentSubmit checkout_env 1%N address_A "cod" no_card
                  stale_cart_world))
     = "Error placing order: Please try again.".
Proof.
assert (Horder : orders_insert checkout_env
                   (make_orderData 1%N address_A "cod"
                      (cart_state stale_cart_world))
                   (db stale_cart_world)
                 = Ok (yoga_order,
                       with_orders [yoga_order] (db stale_cart_world)))
  by reflexivity.
assert (Hitems : order_items_insert checkout_env
                   (make_orderItems yoga_order (cart_state stale_cart_world))
                   (with_orders [yoga_order] (db stale_cart_world))
                 = Error foreign_key_violation)
  by reflexivity.
destruct (proj2 (cart_cleared_only_after_both_inserts _ _ checkout_env 1%N
                   address_A "cod" no_card stale_cart_world)
            yoga_order _ foreign_key_violation eq_refl Horder Hitems)
  as [Hord [Hit [Hcart [_ [Herr _]]]]].
split; [exact Hord|]. split; [exact Hit|]. split; [exact Hcart|exact Herr].
Defined.

(* ===================================================================== *)
(** * Further properties of the default-address trigger *)
(* ===================================================================== *)

Section TriggerFrame.

Implicit Types (t : Address.table) (r NEW OLD : Address.row).

Lemma trigger_keeps_or_clears NEW t r :
  In r t ->
  In r (snd (ensure_single_default_address NEW t))
  \/ (In (Address.with_is_default (Some false) r)
        (snd (ensure_single_default_address NEW t))
      /\ Address.user_id r = Address.user_id NEW
      /\ Address.id r <> Address.id NEW
      /\ Address.is_default NEW = Some true).
Proof.
intros Hin. unfold ensure_single_default_address.
destruct (Address.is_default NEW) as [[|]|] eqn:Hd; cbn [is_true snd]; auto.
unfold clear_default_where.
destruct (sibling_of NEW r) eqn:Hs.
- right. split.
  + apply in_map_iff. exists r. now rewrite Hs.
  + unfold sibling_of in Hs. apply andb_true_iff in Hs as [Hu Hi].
    apply N.eqb_eq in Hu. apply negb_true_iff, N.eqb_neq in Hi. auto.
- left. apply in_map_iff. exists r. now rewrite Hs.
Qed.

Lemma update_rows_keeps_or_clears set targets : forall written t t' r,
  update_rows set targets written t = Ok t' ->
  In r t -> ~ In (Address.id r) targets ->
  In r t' \/ In (Address.with_is_default (Some false) r) t'.
Proof.
induction targets as [|i rest IH]; intros written t t' r; cbn [update_rows].
- intros [= <-]. auto.
- destruct (existsb (N.eqb i) written); [discriminate|].
  intros Hrun Hin Hnot.
  assert (Hi : Address.id r <> i) by (intros <-; apply Hnot; now left).
  assert (Hrest : ~ In (Address.id r) rest)
    by (intros H; apply Hnot; now right).
  destruct (find (has_id i) t) as [OLD|] eqn:Hfind; [|eauto].
  set (NEW := Address.with_id (Address.id OLD) (set OLD)) in *.
  destruct (ensure_single_default_address NEW t) as [NEW' t1] eqn:Htrig.
  assert (Ht1 : t1 = snd (ensure_single_default_address NEW t))
    by now rewrite Htrig.
  assert (Hstep : forall x, In x t1 -> Address.id x <> i ->
            In x (replace_row i NEW' t1)).
  { intros x Hx Hxi. unfold replace_row. apply in_map_iff. exists x.
    split; [|exact Hx]. apply has_id_false in Hxi. now rewrite Hxi. }
  destruct (trigger_keeps_or_clears NEW t r Hin) as [Hkeep | [Hclear _]];
    rewrite <- Ht1 in *.
  + eapply IH; eauto.
  + destruct (IH _ _ _ (Address.with_is_default (Some false) r) Hrun)
      as [H1 | H1]; auto.
Qed.

End TriggerFrame.

(** X1.  A committed write to [addresses] leaves every row it does not
    address either as it was or with nothing but its flag cleared: an
    insert for the rows of the table, an update for the rows it does not
    select, a delete for the rows it does not select. *)
Theorem address_write_keeps_or_clears_other_rows :
  forall (w : address_write) (t t' : Address.table) (r : Address.row),
    NoDup (map Address.id t) ->
    run_address_write w t = Ok t' ->
    In r t ->
    match w with
    | InsertAddress _ => True
    | UpdateAddresses where_ _ => where_ r = false
    | DeleteAddresses where_ => where_ r = false
    end ->
    In r t' \/ In (Address.with_is_default (Some false) r) t'.
Proof.
intros w t t' r Hnd Hrun Hin Hsel.
destruct w as [NEW|where_ set|where_]; cbn [run_address_write] in Hrun.
- unfold insert_address in Hrun.
  destruct (ensure_single_default_address NEW t) as [NEW' t1] eqn:Htrig.
  destruct (existsb (has_id (Address.id NEW')) t1); [discriminate|].
  injection Hrun as <-.
  destruct (trigger_keeps_or_clears NEW t r Hin) as [H | [H _]];
    rewrite Htrig in H; cbn [snd] in H; [left|right];
    apply in_or_app; now left.
- unfold update_addresses in Hrun.
  apply (update_rows_keeps_or_clears _ _ _ _ _ r Hrun Hin).
  intros Hsome. apply in_map_iff in Hsome as [x [Hx Hxin]].
  apply filter_In in Hxin as [Hxin Hwx].
  assert (x = r) by (eapply same_id_same_row; eauto). subst x. congruence.
- injection Hrun as <-. left. unfold delete_addresses.
  apply filter_In. split; [exact Hin|]. now rewrite Hsel.
Qed.

Lemma address_write_keeps_or_clears_other_rows_witness :
  In address_C
    [Address.with_is_default (Some false) address_A;
     Address.with_is_default (Some true) address_B; address_C]
  \/ In (Address.with_is_default (Some false) address_C)
       [Address.with_is_default (Some false) address_A;
        Address.with_is_default (Some true) address_B; address_C].
Proof.
assert (Hnd : NoDup (map Address.id [address_A; address_B; address_C])).
{ simpl. repeat constructor; simpl; intuition discriminate. }
apply (address_write_keeps_or_clears_other_rows
         (UpdateAddresses (has_id 11%N) (Address.with_is_default (Some true)))
         [address_A; address_B; address_C] _ address_C Hnd).
- reflexivity.
- simpl. auto.
- reflexivity.
Defined.

(** X2.  An address inserted with [is_default = true] is, once the insert
    has committed, the one default of its user: it is stored as given, the
    user's other rows all have [is_default = false], and the rows of other
    users are as they were. *)
Theorem inserted_default_is_the_default :
  forall (NEW : Address.row) (t t' : Address.table),
    NoDup (map Address.id t) ->
    Address.is_default NEW = Some true ->
    insert_address NEW t = Ok t' ->
    default_count (Address.user_id NEW) t' = 1%nat
    /\ t' = map (fun r => if N.eqb (Address.user_id r) (Address.user_id NEW)
                          then Address.with_is_default (Some false) r
                          else r) t ++ [NEW].
Proof.
intros NEW t t' Hnd Hd Hins.
assert (Hfresh : ~ In (Address.id NEW) (map Address.id t)).
{ unfold insert_address, ensure_single_default_address in Hins.
  rewrite Hd in Hins. cbn [is_true] in Hins.
  destruct (existsb _ _) eqn:Hpk in Hins; [discriminate|].
  intros Hin. apply existsb_has_id in Hin.
  pose proof (ensure_single_default_address_ids NEW t) as Hids.
  unfold ensure_single_default_address in Hids. rewrite Hd in Hids.
  cbn [is_true snd] in Hids.
  assert (Hin' : existsb (has_id (Address.id NEW))
                   (clear_default_where (sibling_of NEW) t) = true).
  { apply existsb_has_id. rewrite Hids. now apply existsb_has_id. }
  cbn [Address.id] in Hpk. congruence. }
assert (Hshape : t' = map (fun r => if N.eqb (Address.user_id r)
                                         (Address.user_id NEW)
                                    then Address.with_is_default (Some false) r
                                    else r) t ++ [NEW]).
{ unfold insert_address, ensure_single_default_address in Hins.
  rewrite Hd in Hins. cbn [is_true] in Hins.
  destruct (existsb _ _) in Hins; [discriminate|].
  injection Hins as <-. f_equal. unfold clear_default_where.
  apply map_ext_in. intros r Hr. unfold sibling_of.
  destruct (N.eqb (Address.id r) (Address.id NEW)) eqn:Hid.
  - apply N.eqb_eq in Hid. exfalso. apply Hfresh. rewrite <- Hid.
    now apply in_map.
  - now rewrite andb_true_r. }
split; [|exact Hshape].
rewrite Hshape. unfold default_count. rewrite filter_app, length_app.
assert (H0 : filter (is_default_of (Address.user_id NEW))
               (map (fun r => if N.eqb (Address.user_id r) (Address.user_id NEW)
                              then Address.with_is_default (Some false) r
                              else r) t) = []).
{ clear. induction t as [|r t IH]; [reflexivity|]. cbn [map filter].
  rewrite IH. unfold is_default_of.
  destruct (N.eqb (Address.user_id r) (Address.user_id NEW)) eqn:Hu.
  - cbn. now rewrite Hu.
  - now rewrite Hu. }
rewrite H0. cbn [filter]. unfold is_default_of.
rewrite N.eqb_refl, Hd. reflexivity.
Qed.

Lemma inserted_default_is_the_default_witness :
  default_count 1%N
    [Address.with_is_default (Some false) address_A;
     Address.with_is_default (Some true) address_B] = 1%nat.
Proof.
assert (Hnd : NoDup (map Address.id [address_A])).
{ simpl. repeat constructor; simpl; intuition discriminate. }
exact (proj1 (inserted_default_is_the_default
                (Address.with_is_default (Some true) address_B)
                [address_A] _ Hnd eq_refl eq_refl)).
Defined.

(* ===================================================================== *)
(** * Further properties of the order-number trigger *)
(* ===================================================================== *)

Section OrderNumberSequence.

Implicit Types (t : Order.table) (r : Order.row) (NEW : Order.candidate)
  (day today : string).

Lemma lpad_length (s fill : string) (len : nat) :
  fill <> "" -> String.length (lpad s len fill) = len.
Proof.
intros Hfill. unfold lpad.
destruct (len <=? String.length s)%nat eqn:Hle.
- apply Nat.leb_le in Hle. clear Hfill. revert s Hle.
  induction len as [|len IH]; intros s Hle; [reflexivity|].
  destruct s as [|c s]; cbn in *; [lia|]. rewrite IH by lia. reflexivity.
- apply Nat.leb_gt in Hle.
  destruct (String.length fill =? 0)%nat eqn:Hz.
  + apply Nat.eqb_eq in Hz. destruct fill; [contradiction|discriminate].
  + rewrite append_length.
    assert (Hpad : forall n rest,
              String.length (fill_with fill rest n) = n).
    { induction n as [|n IHn]; intros rest; [reflexivity|]. cbn.
      destruct rest as [|c rest]; [|cbn; now rewrite IHn].
      destruct fill as [|c fill']; [contradiction|]. cbn. now rewrite IHn. }
    rewrite Hpad. lia.
Qed.

(** The insert of the next order of a day. *)
Lemma insert_next_of_day day t (n : nat) NEW :
  is_YYYYMMDD day = true ->
  Permutation (numbers_of_day day t) (map (order_number_of day) (seq 1 n)) ->
  Z.of_nat n <= 9998 ->
  null_or_empty (Order.order_number NEW) = true ->
  existsb (has_order_id (Order.id NEW)) t = false ->
  insert_order day NEW t
  = Ok (Order.with_order_number (order_number_of day (n + 1)) NEW,
        t ++ [Order.with_order_number (order_number_of day (n + 1)) NEW]).
Proof.
intros Hday Hperm Hn Hnull Hid.
unfold insert_order, set_order_number, generated_order_number.
rewrite Hnull.
rewrite (next_order_counter_of_day day t n Hday Hperm) by lia.
cbn [bind].
replace (Z.of_nat n + 1) with (Z.of_nat (n + 1)) by lia.
rewrite lpad_counter by lia.
change ("ORD-" ++ day ++ "-" ++ zero_padded_4 (n + 1))%string
  with (order_number_of day (n + 1)).
cbn [Order.order_number Order.with_order_number Order.id].
rewrite Hid, (next_number_is_new day t n Hday Hperm Hn). reflexivity.
Qed.

Lemma numbers_of_day_snoc day t r :
  String.prefix (day_prefix day) (Order.order_number r) = true ->
  numbers_of_day day (t ++ [r]) = numbers_of_day day t ++ [Order.order_number r].
Proof.
intros Hp. unfold numbers_of_day. rewrite map_app, filter_app.
cbn [map filter]. now rewrite Hp.
Qed.

Lemma insert_orders_from day (NEWs : list Order.candidate) :
  forall t (k : nat),
    is_YYYYMMDD day = true ->
    numbers_of_day day t = map (order_number_of day) (seq 1 k) ->
    (forall NEW, In NEW NEWs -> null_or_empty (Order.order_number NEW) = true) ->
    NoDup (map Order.id NEWs) ->
    (forall NEW, In NEW NEWs -> ~ In (Order.id NEW) (map Order.id t)) ->
    Z.of_nat (k + List.length NEWs) <= 9999 ->
    exists new,
      insert_orders day NEWs t = Ok (t ++ new)
      /\ map Order.order_number new
         = map (order_number_of day) (seq (1 + k) (List.length NEWs))
      /\ map Order.id new = map Order.id NEWs.
Proof.
induction NEWs as [|NEW NEWs IH]; intros t k Hday Hnums Hnull Hnd Hfresh Hk.
- exists []. cbn. now rewrite app_nil_r.
- cbn [insert_orders].
  assert (Hid : existsb (has_order_id (Order.id NEW)) t = false).
  { destruct (existsb _ t) eqn:Hex; [|reflexivity].
    apply existsb_has_order_id in Hex. exfalso.
    apply (Hfresh NEW); [now left|exact Hex]. }
  assert (Hperm : Permutation (numbers_of_day day t)
                    (map (order_number_of day) (seq 1 k)))
    by (rewrite Hnums; apply Permutation_refl).
  cbn [List.length] in Hk.
  rewrite (insert_next_of_day day t k NEW Hday Hperm) by
    (try lia; try exact Hid; apply Hnull; now left).
  cbn [bind snd].
  set (stored := Order.with_order_number (order_number_of day (k + 1)) NEW).
  inversion Hnd as [|? ? Hnotin Hnd']; subst.
  destruct (IH (t ++ [stored]) (S k) Hday) as [new [Hrun [Hnumbers Hids]]].
  + rewrite numbers_of_day_snoc.
    * rewrite Hnums. cbn [Order.order_number stored Order.with_order_number].
      replace (k + 1)%nat with (S k) by lia.
      rewrite seq_S, map_app. reflexivity.
    * unfold stored. cbn [Order.order_number Order.with_order_number].
      rewrite order_number_of_split. apply prefix_append.
  + intros x Hx. apply Hnull. now right.
  + exact Hnd'.
  + intros x Hx. rewrite map_app. intros Hin.
    apply in_app_or in Hin as [Hin | [Heq | []]].
    * apply (Hfresh x); [now right|exact Hin].
    * apply Hnotin. cbn in Heq. rewrite Heq. now apply in_map.
  + lia.
  + exists (stored :: new). split; [|split].
    * rewrite Hrun. now rewrite <- app_assoc.
    * cbn [map List.length seq]. rewrite Hnumbers.
      cbn [Order.order_number stored Order.with_order_number].
      replace (k + 1)%nat with (S k) by lia. reflexivity.
    * cbn [map]. now rewrite Hids.
Qed.


End OrderNumberSequence.

(** X3.  On a day without orders, orders inserted one after the other
    without a number, up to 9999 of them, all commit and are numbered
    0001, 0002, ... in the order of the inserts, without a gap.  The
    inserts are those whose trigger reads all orders of the day; X13 and
    X19 tell what the policy on reading orders makes of this for inserts
    sent by signed-in users. *)
Theorem orders_of_a_day_are_numbered_in_sequence :
  forall (day : string) (NEWs : list Order.candidate) (t : Order.table),
    is_YYYYMMDD day = true ->
    numbers_of_day day t = [] ->
    (forall NEW, In NEW NEWs -> null_or_empty (Order.order_number NEW) = true) ->
    NoDup (map Order.id NEWs) ->
    (forall NEW, In NEW NEWs -> ~ In (Order.id NEW) (map Order.id t)) ->
    Z.of_nat (List.length NEWs) <= 9999 ->
    exists new,
      insert_orders day NEWs t = Ok (t ++ new)
      /\ map Order.order_number new
         = map (order_number_of day) (seq 1 (List.length NEWs))
      /\ map Order.id new = map Order.id NEWs.
Proof.
intros day NEWs t Hday Hnone Hnull Hnd Hfresh Hlen.
apply (insert_orders_from day NEWs t 0); auto.
Qed.

Lemma orders_of_a_day_are_numbered_in_sequence_witness :
  exists new,
    insert_orders "20250917"
      [plain_order 1%N None; plain_order 2%N (Some ""); plain_order 3%N None]
      [plain_order 9%N "ORD-20250916-0005"]
    = Ok ([plain_order 9%N "ORD-20250916-0005"] ++ new)
    /\ map Order.order_number new
       = ["ORD-20250917-0001"; "ORD-20250917-0002"; "ORD-20250917-0003"]
    /\ map Order.id new = [1%N; 2%N; 3%N].
Proof.
apply (orders_of_a_day_are_numbered_in_sequence "20250917"
         [plain_order 1%N None; plain_order 2%N (Some ""); plain_order 3%N None]
         [plain_order 9%N "ORD-20250916-0005"]).
- reflexivity.
- reflexivity.
- intros NEW [<- | [<- | [<- | []]]]; reflexivity.
- simpl. repeat constructor; simpl; intuition discriminate.
- intros NEW [<- | [<- | [<- | []]]]; simpl; intuition discriminate.
- simpl. lia.
Defined.



Lemma generated_number_split (today x : string) :
  ("ORD-" ++ today ++ "-" ++ x)%string = (day_prefix today ++ x)%string.
Proof.
unfold day_prefix.
change ("ORD-" ++ today ++ "-" ++ x)%string
  with ("ORD-" ++ (today ++ ("-" ++ x)))%string.
rewrite <- (append_assoc today "-"). reflexivity.
Qed.

Lemma generated_order_number_shape (today : string) (t : Order.table)
  (n : string) :
  generated_order_number today t = Ok n ->
  exists suffix,
    n = ("ORD-" ++ today ++ "-" ++ suffix)%string
    /\ String.length suffix = 4%nat.
Proof.
unfold generated_order_number.
destruct (next_order_counter today t) as [k|e]; [|discriminate].
cbn [bind]. intros [= <-].
exists (lpad (int_to_text k) 4 "0"). split; [reflexivity|].
apply lpad_length. discriminate.
Qed.

(** X5.  Whatever the orders stored, a number the trigger assigns is
    [ORD-], the day, a hyphen and exactly four more characters, also when
    the counter has more than four digits or is negative; on a day written
    with eight digits it has 17 characters and is one of the numbers the
    next allocation selects. *)
Theorem assigned_order_number_has_the_format :
  forall (today : string) (t : Order.table) (NEW NEW' : Order.candidate),
    null_or_empty (Order.order_number NEW) = true ->
    set_order_number today t NEW = Ok NEW' ->
    exists suffix,
      Order.order_number NEW' = Some ("ORD-" ++ today ++ "-" ++ suffix)%string
      /\ String.length suffix = 4%nat
      /\ (is_YYYYMMDD today = true ->
          String.length ("ORD-" ++ today ++ "-" ++ suffix)%string = 17%nat
          /\ sql_like (today_pattern today)
               ("ORD-" ++ today ++ "-" ++ suffix)%string = true).
Proof.
intros today t NEW NEW' Hnull. unfold set_order_number. rewrite Hnull.
destruct (generated_order_number today t) as [n|e] eqn:Hgen; [|discriminate].
cbn [bind]. intros [= <-].
destruct (generated_order_number_shape today t n Hgen) as [suffix [-> Hlen]].
exists suffix. split; [reflexivity|]. split; [exact Hlen|].
intros Hday. rewrite generated_number_split. split.
- rewrite append_length, (day_prefix_length today Hday), Hlen. reflexivity.
- rewrite (like_today_is_prefix today _ Hday). apply prefix_append.
Qed.

Lemma assigned_order_number_has_the_format_witness :
  exists suffix,
    Some "ORD-20250917-00-4" = Some ("ORD-20250917-" ++ suffix)%string
    /\ String.length suffix = 4%nat.
Proof.
destruct (assigned_order_number_has_the_format "20250917"
            [plain_order 1%N "ORD-20250917--5"] (plain_order 9%N None)
            (plain_order 9%N (Some "ORD-20250917-00-4")) eq_refl eq_refl)
  as [suffix [Hnum [Hlen _]]].
exists suffix. split; [exact Hnum|exact Hlen].
Defined.

(** X6.  The function of the migration "Create order number function" is
    the function of the schema migration run on the row with its order
    number taken away: the two agree on a row that has no order number,
    and the older one replaces a number the row came with by a generated
    one. *)
Theorem older_function_always_assigns :
  forall (today : string) (t : Order.table) (NEW : Order.candidate),
    CreateOrderNumberFunction.set_order_number today t NEW
    = set_order_number today t (Order.with_order_number None NEW)
    /\ (null_or_empty (Order.order_number NEW) = true ->
        CreateOrderNumberFunction.set_order_number today t NEW
        = set_order_number today t NEW)
    /\ (forall NEW',
          CreateOrderNumberFunction.set_order_number today t NEW = Ok NEW' ->
          exists suffix,
            Order.order_number NEW'
            = Some ("ORD-" ++ today ++ "-" ++ suffix)%string
            /\ String.length suffix = 4%nat).
Proof.
intros today t NEW.
unfold CreateOrderNumberFunction.set_order_number, set_order_number.
split; [|split].
- cbn [Order.order_number Order.with_order_number null_or_empty].
  destruct (generated_order_number today t); reflexivity.
- intros ->. reflexivity.
- intros NEW'.
  destruct (generated_order_number today t) as [n|e] eqn:Hgen; [|discriminate].
  cbn [bind]. intros [= <-].
  destruct (generated_order_number_shape today t n Hgen) as [suffix [-> Hlen]].
  exists suffix. split; [reflexivity|exact Hlen].
Qed.

Lemma older_function_always_assigns_witness :
  CreateOrderNumberFunction.set_order_number "20250917"
    (day_orders "20250917" 2) (plain_order 9%N (Some ""))
  = set_order_number "20250917" (day_orders "20250917" 2)
      (plain_order 9%N (Some "")).
Proof.
exact (proj1 (proj2 (older_function_always_assigns "20250917"
                       (day_orders "20250917" 2)
                       (plain_order 9%N (Some "")))) eq_refl).
Defined.


(* ===================================================================== *)
(** * Properties of the card form *)
(* ===================================================================== *)

Section CardForm.

Lemma remove_where_free p s : free_of p (remove_where p s) = true.
Proof.
unfold free_of. induction s as [|c s IH]; [reflexivity|]. cbn [remove_where].
destruct (p c) eqn:Hc; [exact IH|]. cbn. now rewrite Hc, IH.
Qed.

Lemma remove_where_of_free p s : free_of p s = true -> remove_where p s = s.
Proof.
unfold free_of. induction s as [|c s IH]; [reflexivity|]. cbn.
intros H. apply andb_true_iff in H as [Hc Hs].
apply negb_true_iff in Hc. now rewrite Hc, IH.
Qed.

Lemma remove_where_twice p s :
  remove_where p (remove_where p s) = remove_where p s.
Proof. apply remove_where_of_free, remove_where_free. Qed.

Lemma space_is_not_dot_free c : isspace c = false -> dot c = true.
Proof.
destruct c as [[] [] [] [] [] [] [] []]; vm_compute; congruence.
Qed.

Lemma trim_end_nonblank c s :
  isspace c = false -> trim_end (String c s) = String c (trim_end s).
Proof. intros Hc. cbn [trim_end]. rewrite Hc. now destruct (trim_end s). Qed.

Lemma remove_blanks_trim_end s :
  remove_where isspace (trim_end s) = remove_where isspace s.
Proof.
induction s as [|c s IH]; [reflexivity|].
change (remove_where isspace (String c s))
  with (if isspace c then remove_where isspace s
        else String c (remove_where isspace s)).
rewrite <- IH. cbn [trim_end].
destruct (trim_end s) as [|d r]; destruct (isspace c) eqn:Hc;
  cbn [remove_where]; rewrite ?Hc; reflexivity.
Qed.

Lemma remove_blanks_skip_spaces s :
  remove_where isspace (skip_spaces s) = remove_where isspace s.
Proof.
induction s as [|c s IH]; [reflexivity|]. cbn [skip_spaces remove_where].
destruct (isspace c) eqn:Hc; [exact IH|]. cbn. now rewrite Hc.
Qed.

Lemma remove_blanks_trim s :
  remove_where isspace (trim s) = remove_where isspace s.
Proof. unfold trim. now rewrite remove_blanks_trim_end, remove_blanks_skip_spaces. Qed.

(** induction four characters at a time *)
Lemma string_ind4 (P : string -> Prop) :
  (forall s, (String.length s < 4)%nat -> P s) ->
  (forall a b c d rest, P rest -> P (String a (String b (String c (String d rest))))) ->
  forall s, P s.
Proof.
intros Hshort Hstep s.
assert (H : forall n s, (String.length s <= n)%nat -> P s).
{ induction n as [|n IH]; intros s0 Hn.
  - apply Hshort. lia.
  - destruct s0 as [|a [|b [|c [|d rest]]]]; try (apply Hshort; cbn; lia).
    apply Hstep. apply IH. cbn in Hn. 
    assert (String.length rest <= n)%nat by lia. exact H. }
apply (H (String.length s)). lia.
Qed.

Lemma group_of_four_step a b c d rest :
  free_of isspace (String a (String b (String c (String d rest)))) = true ->
  group_of_four (String a (String b (String c (String d rest))))
  = String a (String b (String c (String d (String " " (group_of_four rest))))).
Proof.
unfold free_of. cbn [list_ascii_of_string forallb].
intros H. repeat (apply andb_true_iff in H as [?H H]).
repeat match goal with Hx : negb (isspace _) = true |- _ =>
  apply negb_true_iff, space_is_not_dot_free in Hx end.
cbn [group_of_four]. now rewrite H0, H1, H2, H3.
Qed.

Lemma group_of_four_short s :
  (String.length s < 4)%nat -> group_of_four s = s.
Proof.
destruct s as [|a [|b [|c [|d rest]]]]; cbn; try reflexivity; lia.
Qed.

Lemma free_of_tail4 p a b c d rest :
  free_of p (String a (String b (String c (String d rest)))) = true ->
  p a = false /\ p b = false /\ p c = false /\ p d = false
  /\ free_of p rest = true.
Proof.
unfold free_of. cbn [list_ascii_of_string forallb].
intros H. repeat (apply andb_true_iff in H as [?H H]).
repeat match goal with Hx : negb _ = true |- _ => apply negb_true_iff in Hx end.
auto.
Qed.

(** blanks taken out of the grouped text give the text back *)
Lemma remove_blanks_group_of_four s :
  free_of isspace s = true ->
  remove_where isspace (group_of_four s) = s.
Proof.
induction s as [s Hs|a b c d rest IH] using string_ind4; intros Hfree.
- rewrite group_of_four_short by exact Hs. now apply remove_where_of_free.
- rewrite group_of_four_step by exact Hfree.
  destruct (free_of_tail4 _ _ _ _ _ _ Hfree) as [Ha [Hb [Hc [Hd Hrest]]]].
  cbn [remove_where]. rewrite Ha, Hb, Hc, Hd.
  change (isspace " ") with true. cbn iota. now rewrite IH.
Qed.

Lemma skip_spaces_nonblank_head s :
  free_of isspace s = true -> skip_spaces (group_of_four s) = group_of_four s.
Proof.
intros Hfree. destruct s as [|a s]; [reflexivity|].
unfold free_of in Hfree. cbn [list_ascii_of_string forallb] in Hfree.
apply andb_true_iff in Hfree as [Ha _]. apply negb_true_iff in Ha.
assert (Hhead : exists r, group_of_four (String a s) = String a r).
{ cbn [group_of_four]. destruct s as [|b [|c [|d rest]]]; eauto.
  destruct (dot a && dot b && dot c && dot d); eauto. }
destruct Hhead as [r ->]. cbn [skip_spaces]. now rewrite Ha.
Qed.

(** length of the trimmed grouping of a text without blanks *)
Lemma trim_end_group_length s :
  free_of isspace s = true ->
  String.length (trim_end (group_of_four s))
  = (String.length s + (String.length s - 1) / 4)%nat
  /\ (trim_end (group_of_four s) = "" -> s = "").
Proof.
induction s as [s Hs|a b c d rest IH] using string_ind4; intros Hfree.
- rewrite group_of_four_short by exact Hs.
  assert (Hte : forall x, free_of isspace x = true -> trim_end x = x).
  { clear. induction x as [|c x IHx]; [reflexivity|]. intros H.
    unfold free_of in H. cbn [list_ascii_of_string forallb] in H.
    apply andb_true_iff in H as [Hc Hx]. apply negb_true_iff in Hc.
    rewrite trim_end_nonblank by exact Hc. now rewrite IHx. }
  rewrite Hte by exact Hfree. split; [|auto].
  rewrite Nat.div_small by lia. lia.
- rewrite group_of_four_step by exact Hfree.
  destruct (free_of_tail4 _ _ _ _ _ _ Hfree) as [Ha [Hb [Hc [Hd Hrest]]]].
  rewrite !trim_end_nonblank by assumption.
  destruct (IH Hrest) as [Hlen Hempty].
  split; [|discriminate].
  cbn [trim_end String.length].
  destruct (trim_end (group_of_four rest)) as [|e r] eqn:Ht.
  + rewrite (Hempty eq_refl). reflexivity.
  + change (isspace " ") with true. cbn [String.length] in *.
    destruct rest as [|x rest']; [discriminate Ht|].
    cbn [String.length] in *.
    replace (S (S (S (S (S (String.length rest'))))) - 1)%nat
      with (S (String.length rest') - 1 + 1 * 4)%nat by lia.
    rewrite Nat.div_add by lia. lia.
Qed.

Lemma take_length (n : nat) (s : string) :
  String.length (take n s) = Nat.min n (String.length s).
Proof.
revert s. induction n as [|n IH]; intros s; [reflexivity|].
destruct s as [|c s]; [reflexivity|]. cbn. now rewrite IH.
Qed.

Lemma free_of_take p (n : nat) (s : string) :
  free_of p s = true -> free_of p (take n s) = true.
Proof.
unfold free_of. revert s. induction n as [|n IH]; intros s; [reflexivity|].
destruct s as [|c s]; [reflexivity|]. cbn.
intros H. apply andb_true_iff in H as [Hc Hs]. now rewrite Hc, IH.
Qed.

Lemma free_of_drop p (n : nat) (s : string) :
  free_of p s = true -> free_of p (drop n s) = true.
Proof.
unfold free_of. revert s. induction n as [|n IH]; intros s; [auto|].
destruct s as [|c s]; [reflexivity|]. cbn.
intros H. apply andb_true_iff in H as [Hc Hs]. now apply IH.
Qed.

Lemma remove_where_append p (a b : string) :
  remove_where p (a ++ b) = (remove_where p a ++ remove_where p b)%string.
Proof.
induction a as [|c a IH]; [reflexivity|]. cbn.
destruct (p c); [exact IH|]. cbn. now rewrite IH.
Qed.

Lemma take_take_drop (s : string) :
  (take 2 s ++ take 2 (drop 2 s))%string = take 4 s.
Proof. destruct s as [|a [|b [|c [|d rest]]]]; reflexivity. Qed.

End CardForm.

(** X7.  The card-number input shows what was typed, blanks aside, in
    groups of four separated by one blank: taking the blanks out of the
    shown value gives the typed characters back, [n] characters are shown
    in [n + (n - 1) / 4], the shown value is empty only when nothing but
    blanks was typed, and formatting it again changes nothing. *)
Theorem card_number_is_grouped_in_fours :
  forall (value : string),
    let typed := remove_where isspace value in
    let shown := format_card_number value in
    remove_where isspace shown = typed
    /\ String.length shown
       = (String.length typed + (String.length typed - 1) / 4)%nat
    /\ (shown = "" <-> typed = "")
    /\ format_card_number shown = shown.
Proof.
intros value typed shown.
assert (Hfree : free_of isspace typed = true) by apply remove_where_free.
assert (Hshown : shown = trim_end (group_of_four typed)).
{ unfold shown, format_card_number, trim. fold typed.
  now rewrite skip_spaces_nonblank_head. }
assert (Hback : remove_where isspace shown = typed).
{ rewrite Hshown, remove_blanks_trim_end.
  now apply remove_blanks_group_of_four. }
destruct (trim_end_group_length typed Hfree) as [Hlen Hempty].
split; [exact Hback|]. split; [now rewrite Hshown|]. split.
- split.
  + rewrite Hshown. exact Hempty.
  + intros Ht. rewrite Hshown, Ht. reflexivity.
- unfold format_card_number at 1. rewrite Hback. reflexivity.
Qed.

(** X8.  The expiry input shows the first four digits typed, with a slash
    after the second from two digits on: the shown value has at most five
    characters, its digits are the first four digits typed, and
    formatting it again changes nothing. *)
Theorem expiry_date_is_MM_slash_YY :
  forall (value : string),
    let typed := remove_where not_digit value in
    let shown := format_expiry_date value in
    (String.length shown <= 5)%nat
    /\ remove_where not_digit shown = take 4 typed
    /\ ((2 <= String.length typed)%nat ->
        shown = (take 2 typed ++ "/" ++ take 2 (drop 2 typed))%string)
    /\ ((String.length typed < 2)%nat -> shown = typed)
    /\ format_expiry_date shown = shown.
Proof.
intros value typed shown.
assert (Hfree : free_of not_digit typed = true) by apply remove_where_free.
assert (Hdigits : remove_where not_digit shown = take 4 typed).
{ unfold shown, format_expiry_date. fold typed.
  destruct (2 <=? String.length typed)%nat eqn:Hlen.
  - rewrite !remove_where_append.
    rewrite (remove_where_of_free _ (take 2 typed))
      by now apply free_of_take.
    rewrite (remove_where_of_free _ (take 2 (drop 2 typed)))
      by now apply free_of_take, free_of_drop.
    change (remove_where not_digit "/") with "".
    cbn [append]. apply take_take_drop.
  - apply Nat.leb_gt in Hlen. rewrite remove_where_of_free by exact Hfree.
    destruct typed as [|a [|b rest]]; cbn in *; try reflexivity; lia. }
split.
{ unfold shown, format_expiry_date. fold typed.
  destruct (2 <=? String.length typed)%nat eqn:Hlen.
  - rewrite !append_length, !take_length. cbn [String.length]. lia.
  - apply Nat.leb_gt in Hlen. lia. }
split; [exact Hdigits|]. split.
{ intros Hlen. unfold shown, format_expiry_date. fold typed.
  apply Nat.leb_le in Hlen. now rewrite Hlen. }
split.
{ intros Hlen. unfold shown, format_expiry_date. fold typed.
  apply Nat.leb_gt in Hlen. now rewrite Hlen. }
unfold format_expiry_date at 1. rewrite Hdigits.
unfold shown, format_expiry_date. fold typed.
destruct typed as [|a [|b [|c [|d rest]]]]; reflexivity.
Qed.

(* ===================================================================== *)
(** * Properties of the checkout page *)
(* ===================================================================== *)

Section CheckoutWrites.

Lemma orders_insert_row (env : environment) (d : OrderData.json)
  (base : database) (order : Order.row) (db1 : database) :
  orders_insert env d base = Ok (order, db1) ->
  Order.id order = new_order_id env
  /\ Order.status order = OrderData.status d
  /\ Order.payment_status order = OrderData.payment_status d
  /\ Order.payment_method order = Some (OrderData.payment_method d).
Proof.
intros Hins.
destruct (orders_insert_committed _ _ _ _ _ Hins)
  as [total [shipping [tax [discount [n [_ [_ [_ [_ [-> _]]]]]]]]]].
cbn. auto.
Qed.

Lemma stored_items_reference (order : Order.row) (items : list CartItem.json)
  (rows : list OrderItem.row) :
  Forall2 stored_as (map (order_item_of order) items) rows ->
  forall r, In r rows -> OrderItem.order_id (OrderItem.item r) = Order.id order.
Proof.
revert rows. induction items as [|item items IH]; intros rows Hall r Hr;
  inversion Hall as [|x y xs ys Hxy Hrest]; subst; [contradiction|].
destruct Hr as [<- | Hr]; [|eauto].
destruct Hxy as [Hid _]. exact Hid.
Qed.

End CheckoutWrites.

Section CheckoutPageFacts.

Lemma insert_listed_perm (a : Address.row) (l : list Address.row) :
  Permutation (insert_listed a l) (a :: l).
Proof.
induction l as [|b l IH]; cbn [insert_listed]; [apply Permutation_refl|].
destruct (listed_before a b); [apply Permutation_refl|].
eapply Permutation_trans; [apply perm_skip, IH|apply perm_swap].
Qed.

Lemma order_addresses_perm (l : list Address.row) :
  Permutation (order_addresses l) l.
Proof.
induction l as [|a l IH]; cbn; [constructor|].
eapply Permutation_trans; [apply insert_listed_perm|now apply perm_skip].
Qed.

(** In a list with one row of a kind, [find] gets that row wherever it
    stands. *)
Lemma find_the_only_one {A : Type} (kind : A -> bool) (xs ys : list A) (x : A) :
  Permutation xs ys -> filter kind xs = [x] -> find kind ys = Some x.
Proof.
intros Hperm Hone.
assert (Hx : In x (filter kind xs)) by (rewrite Hone; now left).
apply filter_In in Hx as [Hin Hk].
destruct (find kind ys) as [y|] eqn:Hfind.
- apply find_some in Hfind as [Hy Hky].
  apply (Permutation_in _ (Permutation_sym Hperm)) in Hy.
  assert (Hy' : In y (filter kind xs)) by (apply filter_In; auto).
  rewrite Hone in Hy'. destruct Hy' as [<- | []]. reflexivity.
- apply (Permutation_in _ Hperm) in Hin.
  rewrite (find_none _ _ Hfind x Hin) in Hk. discriminate.
Qed.

Lemma find_none_of_a_kind {A : Type} (kind : A -> bool) (xs ys : list A) :
  Permutation xs ys -> filter kind xs = [] -> find kind ys = None.
Proof.
intros Hperm Hnone.
destruct (find kind ys) as [y|] eqn:Hfind; [|reflexivity].
apply find_some in Hfind as [Hy Hky].
apply (Permutation_in _ (Permutation_sym Hperm)) in Hy.
assert (Hy' : In y (filter kind xs)) by (apply filter_In; auto).
rewrite Hnone in Hy'. contradiction.
Qed.

Lemma defaults_among_own_rows (user : uuid) (t : Address.table) :
  filter (fun addr => is_true (Address.is_default addr))
    (filter (fun r => N.eqb (Address.user_id r) user) t)
  = filter (is_default_of user) t.
Proof.
induction t as [|r t IH]; [reflexivity|]. cbn [filter].
unfold is_default_of at 1.
destruct (N.eqb (Address.user_id r) user); cbn [filter andb];
  [destruct (is_true (Address.is_default r))|]; now rewrite IH.
Qed.

Context {cart : Type} `{CartContext cart}.

Ltac settle_page :=
  repeat split; intros; try discriminate; try congruence; try tauto; auto.

(** The page after handlePaymentSubmit: not loading, and either on the
    step it was on, or on the confirmation. *)
Lemma handlePaymentSubmit_page (env : environment) (user : uuid)
  (selected : Address.row) (method : string) (form : payment_form)
  (w0 : world cart) :
  let p := ui (handlePaymentSubmit env user selected method form w0) in
  loading p = false
  /\ ((currentStep p = currentStep (ui w0)
       /\ orderPlaced p = orderPlaced (ui w0))
      \/ (currentStep p = 3 /\ orderPlaced p = true)).
Proof.
destruct (card_details_missing method form) eqn:Hcard.
{ rewrite handlePaymentSubmit_card_details_missing by exact Hcard.
  cbn. auto. }
destruct (orders_insert env (make_orderData user selected method (cart_state w0))
            (db w0)) as [[order db1]|e] eqn:Horder.
2:{ rewrite (handlePaymentSubmit_order_rejected _ _ _ _ _ _ e Hcard Horder).
    cbn. auto. }
destruct (order_items_insert env (make_orderItems order (cart_state w0)) db1)
  as [db2|e] eqn:Hitems.
- rewrite (handlePaymentSubmit_completed _ _ _ _ _ _ order db1 db2
             Hcard Horder Hitems).
  cbn. auto.
- rewrite (handlePaymentSubmit_items_rejected _ _ _ _ _ _ order db1 e
             Hcard Horder Hitems).
  cbn. auto.
Qed.

Lemma loadAddresses_page (user : uuid) (fetched : bool)
  (st : CheckoutPage.state cart) :
  page_of (loadAddresses user fetched st) = page_of st
  /\ (CheckoutPage.selectedAddress st <> None ->
      CheckoutPage.selectedAddress (loadAddresses user fetched st) <> None).
Proof.
unfold loadAddresses. destruct fetched; [|auto]. cbn. split; [reflexivity|].
destruct (find _ _); [discriminate|auto].
Qed.

Lemma checkout_handle_ok (user : uuid) (type_error : string)
  (ev : checkout_event) (st st' : CheckoutPage.state cart) :
  checkout_page_ok st ->
  checkout_handle user type_error ev st = Some st' ->
  checkout_page_ok st'.
Proof.
intros [Hstep [Hsel [Hplaced Hload]]]. unfold checkout_handle.
assert (Hloaded : forall fetched,
          checkout_page_ok (loadAddresses user fetched st)).
{ intros fetched.
  destruct (loadAddresses_page user fetched st) as [Hp Hs].
  unfold checkout_page_ok. rewrite Hp. repeat split; auto; apply Hplaced. }
destruct (orderPlaced (page_of st)) eqn:Hop.
{ destruct ev; try discriminate. intros [= <-]. apply Hloaded. }
assert (Hnot3 : currentStep (page_of st) <> 3).
{ intros H3. apply Hplaced in H3. congruence. }
destruct ev.
- intros [= <-]. apply Hloaded.
- destruct (nth_error _ _) as [address|]; [|discriminate].
  destruct (_ =? _) eqn:H1; [|discriminate]. intros [= <-].
  apply Z.eqb_eq in H1.
  unfold checkout_page_ok, page_of in *. cbn. settle_page.
- destruct (_ && _) eqn:Hc; [|discriminate]. intros [= <-].
  apply andb_true_iff in Hc as [H1 _]. apply Z.eqb_eq in H1.
  unfold handleAddressSubmit.
  destruct (CheckoutPage.selectedAddress st) as [a|] eqn:Ha;
    unfold checkout_page_ok, page_of, with_page in *; cbn; rewrite ?Ha;
    settle_page.
- destruct (_ =? _) eqn:Hc; [|discriminate]. intros [= <-].
  unfold checkout_page_ok, page_of, with_page in *. cbn. settle_page.
- destruct (_ && _) eqn:Hc; [|discriminate]. intros [= <-].
  unfold checkout_page_ok, page_of in *. cbn. settle_page.
- destruct (_ && _) eqn:Hc; [|discriminate]. intros [= <-].
  unfold checkout_page_ok, page_of, with_form in *. cbn. settle_page.
- destruct (_ && _) eqn:Hc; [|discriminate]. intros [= <-].
  unfold checkout_page_ok, page_of, with_form in *. cbn. settle_page.
- destruct (_ && _) eqn:Hc; [|discriminate]. intros [= <-].
  unfold checkout_page_ok, page_of, with_form in *. cbn. settle_page.
- destruct (_ && _) eqn:Hc; [|discriminate]. intros [= <-].
  unfold checkout_page_ok, page_of, with_form in *. cbn. settle_page.
- destruct (_ && _) eqn:Hc; [|discriminate]. intros [= <-].
  apply andb_true_iff in Hc as [H2 _]. apply Z.eqb_eq in H2.
  assert (Hsome : CheckoutPage.selectedAddress st <> None)
    by (apply Hsel; rewrite H2; discriminate).
  unfold submit_payment.
  destruct (CheckoutPage.selectedAddress st) as [a|] eqn:Ha;
    [|contradiction].
  pose proof (handlePaymentSubmit_page env user a
                (CheckoutPage.paymentMethod st) (CheckoutPage.paymentForm st)
                (CheckoutPage.site st)) as [Hl Hcases].
  unfold checkout_page_ok, page_of in *.
  cbn [CheckoutPage.site CheckoutPage.selectedAddress].
  destruct Hcases as [[Hs Ho] | [Hs Ho]]; rewrite Hs, Ho; settle_page.
Qed.

Lemma checkout_reachable_ok (user : uuid) (type_error : string)
  (st : CheckoutPage.state cart) :
  checkout_reachable user type_error st -> checkout_page_ok st.
Proof.
induction 1 as [base c|ev st st' _ IH Hstep].
- unfold checkout_page_ok, checkout_start, page_of. cbn. settle_page.
- eapply checkout_handle_ok; eauto.
Qed.

Lemma select_addresses_of_own (user : uuid) (t : Address.table) :
  Forall (fun a => Address.user_id a = user) (select_addresses_of user t).
Proof.
apply Forall_forall. intros a Ha. unfold select_addresses_of in Ha.
apply (Permutation_in _ (order_addresses_perm _)) in Ha.
apply filter_In in Ha as [_ Hu]. now apply N.eqb_eq in Hu.
Qed.

Lemma checkout_handle_own (user : uuid) (type_error : string)
  (ev : checkout_event) (st st' : CheckoutPage.state cart) :
  own_addresses user st ->
  checkout_handle user type_error ev st = Some st' ->
  own_addresses user st'.
Proof.
intros [Hlist Hsel]. unfold checkout_handle.
assert (Hloaded : forall fetched,
          own_addresses user (loadAddresses user fetched st)).
{ intros [|]; unfold loadAddresses, own_addresses; [|auto].
  cbn [CheckoutPage.addresses CheckoutPage.selectedAddress].
  split; [apply select_addresses_of_own|].
  intros a. destruct (find _ _) as [d|] eqn:Hfind; [|auto].
  intros [= <-]. apply find_some in Hfind as [Hin _].
  pose proof (select_addresses_of_own user
                (addresses (db (CheckoutPage.site st)))) as Hown.
  rewrite Forall_forall in Hown. auto. }
assert (Hsame : forall (site : world cart) method form,
          own_addresses user
            (CheckoutPage.mk site (CheckoutPage.addresses st)
               (CheckoutPage.selectedAddress st) method form))
  by (intros; split; auto).
destruct (orderPlaced (page_of st)).
{ destruct ev; try discriminate. intros [= <-]. apply Hloaded. }
destruct ev.
- intros [= <-]. apply Hloaded.
- destruct (nth_error _ _) as [address|] eqn:Hnth; [|discriminate].
  destruct (_ =? _); [|discriminate]. intros [= <-].
  split; [exact Hlist|]. cbn. intros a [= <-].
  apply nth_error_In in Hnth. rewrite Forall_forall in Hlist. auto.
- destruct (_ && _); [|discriminate]. intros [= <-].
  unfold handleAddressSubmit.
  destruct (CheckoutPage.selectedAddress st) eqn:Ha; unfold with_page;
    rewrite ?Ha; apply Hsame.
- destruct (_ =? _); [|discriminate]. intros [= <-]. apply Hsame.
- destruct (_ && _); [|discriminate]. intros [= <-]. apply Hsame.
- destruct (_ && _); [|discriminate]. intros [= <-]. apply Hsame.
- destruct (_ && _); [|discriminate]. intros [= <-]. apply Hsame.
- destruct (_ && _); [|discriminate]. intros [= <-]. apply Hsame.
- destruct (_ && _); [|discriminate]. intros [= <-]. apply Hsame.
- destruct (_ && _); [|discriminate]. intros [= <-].
  unfold submit_payment.
  destruct (CheckoutPage.selectedAddress st) eqn:Ha.
  + apply Hsame.
  + destruct (card_details_missing _ _); unfold with_page; rewrite ?Ha;
      apply Hsame.
Qed.

Lemma checkout_reachable_own (user : uuid) (type_error : string)
  (st : CheckoutPage.state cart) :
  checkout_reachable user type_error st -> own_addresses user st.
Proof.
induction 1 as [base c|ev st st' _ IH Hstep].
- split; [constructor|discriminate].
- eapply checkout_handle_own; eauto.
Qed.

(** On a page reached from its mounting, a submission of the payment
    form finds an address selected. *)
Lemma payment_submitted_runs_handler (user : uuid) (type_error : string)
  (st st' : CheckoutPage.state cart) (env : environment) :
  checkout_reachable user type_error st ->
  checkout_handle user type_error (payment_submitted env) st = Some st' ->
  exists selected,
    CheckoutPage.selectedAddress st = Some selected
    /\ CheckoutPage.site st'
       = handlePaymentSubmit env user selected
           (CheckoutPage.paymentMethod st) (CheckoutPage.paymentForm st)
           (CheckoutPage.site st).
Proof.
intros Hreach Hstep.
pose proof (checkout_reachable_ok _ _ _ Hreach) as [_ [Hsel _]].
unfold checkout_handle in Hstep.
destruct (orderPlaced (page_of st)) eqn:Hop; [discriminate|].
destruct (_ && _) eqn:Hc; [|discriminate]. injection Hstep as <-.
apply andb_true_iff in Hc as [H2 _]. apply Z.eqb_eq in H2.
assert (Hsome : CheckoutPage.selectedAddress st <> None)
  by (apply Hsel; rewrite H2; discriminate).
destruct (CheckoutPage.selectedAddress st) as [selected|] eqn:Ha;
  [|contradiction].
exists selected. split; [reflexivity|].
unfold submit_payment. now rewrite Ha.
Qed.

Lemma checkout_reachable_method (user : uuid) (type_error : string)
  (st : CheckoutPage.state cart) :
  checkout_reachable user type_error st ->
  CheckoutPage.paymentMethod st = "cod"
  \/ CheckoutPage.paymentMethod st = "card".
Proof.
induction 1 as [base c|ev st st' _ IH Hstep]; [now left|].
unfold checkout_handle in Hstep.
assert (Hload : forall fetched,
          CheckoutPage.paymentMethod (loadAddresses user fetched st)
          = CheckoutPage.paymentMethod st)
  by (intros [|]; reflexivity).
destruct (orderPlaced (page_of st)).
{ destruct ev; try discriminate. injection Hstep as <-. now rewrite Hload. }
destruct ev.
- injection Hstep as <-. now rewrite Hload.
- destruct (nth_error _ _); [|discriminate].
  destruct (_ =? _); [|discriminate]. now injection Hstep as <-.
- destruct (_ && _); [|discriminate]. injection Hstep as <-.
  unfold handleAddressSubmit.
  now destruct (CheckoutPage.selectedAddress st).
- destruct (_ =? _); [|discriminate]. now injection Hstep as <-.
- destruct (_ && _) eqn:Hc; [|discriminate]. injection Hstep as <-.
  apply andb_true_iff in Hc as [_ Hv]. apply orb_true_iff in Hv.
  cbn. destruct Hv as [Hv | Hv]; apply String.eqb_eq in Hv; auto.
- destruct (_ && _); [|discriminate]. now injection Hstep as <-.
- destruct (_ && _); [|discriminate]. now injection Hstep as <-.
- destruct (_ && _); [|discriminate]. now injection Hstep as <-.
- destruct (_ && _); [|discriminate]. now injection Hstep as <-.
- destruct (_ && _); [|discriminate]. injection Hstep as <-.
  unfold submit_payment.
  destruct (CheckoutPage.selectedAddress st); [exact IH|].
  now destruct (card_details_missing _ _).
Qed.

(** The order a submission adds: the card test has passed, and the order
    carries the payment method and the payment status the handler
    derives from it. *)
Lemma handlePaymentSubmit_new_order (env : environment) (user : uuid)
  (selected : Address.row) (method : string) (form : payment_form)
  (w0 : world cart) (order : Order.row) :
  In order (orders (db (handlePaymentSubmit env user selected method form w0))) ->
  ~ In order (orders (db w0)) ->
  card_details_missing method form = false
  /\ Order.payment_method order = Some method
  /\ Order.payment_status order
     = (if String.eqb method "cod" then payment_pending else payment_paid).
Proof.
intros Hin Hnew.
destruct (card_details_missing method form) eqn:Hcard.
{ rewrite handlePaymentSubmit_card_details_missing in Hin by exact Hcard.
  contradiction. }
destruct (orders_insert env (make_orderData user selected method (cart_state w0))
            (db w0)) as [[stored db1]|e] eqn:Horder.
2:{ rewrite (handlePaymentSubmit_order_rejected _ _ _ _ _ _ e Hcard Horder)
      in Hin. contradiction. }
destruct (orders_insert_stores _ _ _ _ _ Horder) as [_ [_ [_ [_ Hdb1]]]].
destruct (orders_insert_row _ _ _ _ _ Horder) as [_ [_ [Hstatus Hmethod]]].
assert (Hstored : In order (orders (db w0) ++ [stored]) -> order = stored).
{ intros Hi. apply in_app_or in Hi as [Hi | [<- | []]];
    [contradiction|reflexivity]. }
destruct (order_items_insert env (make_orderItems stored (cart_state w0)) db1)
  as [db2|e] eqn:Hitems.
- rewrite (handlePaymentSubmit_completed _ _ _ _ _ _ stored db1 db2
             Hcard Horder Hitems) in Hin.
  destruct (order_items_insert_stores _ _ _ _ Hitems) as [rows [-> _]].
  subst db1. cbn in Hin. rewrite (Hstored Hin). auto.
- rewrite (handlePaymentSubmit_items_rejected _ _ _ _ _ _ stored db1 e
             Hcard Horder Hitems) in Hin.
  subst db1. cbn in Hin. rewrite (Hstored Hin). auto.
Qed.

End CheckoutPageFacts.

(** X9.  On the checkout page the payment form is only ever submitted
    with a shipping address selected, and that address is one of the
    signed-in user's own: whatever the user did since the page was
    mounted, a submission of the payment form runs handlePaymentSubmit on
    the selected address (the case of no selected address, in which
    building the order would throw, does not arise), and afterwards the
    page is on the payment step or on the confirmation, the confirmation
    being shown exactly when the order is marked as placed. *)
Theorem payment_is_submitted_with_an_own_address :
  forall {cart : Type} `{CartContext cart} (user : uuid)
    (type_error : string) (st st' : CheckoutPage.state cart)
    (env : environment),
    checkout_reachable user type_error st ->
    checkout_handle user type_error (payment_submitted env) st = Some st' ->
    exists selected,
      CheckoutPage.selectedAddress st = Some selected
      /\ Address.user_id selected = user
      /\ CheckoutPage.site st'
         = handlePaymentSubmit env user selected
             (CheckoutPage.paymentMethod st) (CheckoutPage.paymentForm st)
             (CheckoutPage.site st)
      /\ (currentStep (page_of st') = 2 \/ currentStep (page_of st') = 3)
      /\ (orderPlaced (page_of st') = true <-> currentStep (page_of st') = 3).
Proof.
intros cart Hcart user type_error st st' env Hreach Hstep.
pose proof (checkout_reachable_own _ _ _ Hreach) as [_ Hown].
assert (Hnext : checkout_reachable user type_error st')
  by (eapply checkout_next; eauto).
pose proof (checkout_reachable_ok _ _ _ Hnext) as [_ [_ [Hplaced' _]]].
destruct (payment_submitted_runs_handler _ _ _ _ _ Hreach Hstep)
  as [selected [Ha Hsite]].
exists selected. split; [exact Ha|]. split; [now apply Hown|].
split; [exact Hsite|]. split; [|exact Hplaced'].
pose proof (handlePaymentSubmit_page env user selected
              (CheckoutPage.paymentMethod st) (CheckoutPage.paymentForm st)
              (CheckoutPage.site st)) as [_ Hcases].
pose proof (checkout_reachable_ok _ _ _ Hreach) as [_ [_ [Hplaced _]]].
unfold checkout_handle in Hstep.
destruct (orderPlaced (page_of st)) eqn:Hop; [discriminate|].
destruct (_ && _) eqn:Hc; [|discriminate].
apply andb_true_iff in Hc as [H2 _]. apply Z.eqb_eq in H2.
unfold page_of in *. rewrite Hsite.
destruct Hcases as [[Hstay _] | [Hdone _]]; rewrite ?Hstay, ?Hdone; auto.
Qed.

Lemma payment_is_submitted_with_an_own_address_witness :
  exists selected,
    CheckoutPage.selectedAddress checkout_page_on_payment = Some selected
    /\ Address.user_id selected = 1%N
    /\ CheckoutPage.site (submit_payment checkout_env 1%N "" checkout_page_on_payment)
       = handlePaymentSubmit checkout_env 1%N selected
           (CheckoutPage.paymentMethod checkout_page_on_payment)
           (CheckoutPage.paymentForm checkout_page_on_payment)
           (CheckoutPage.site checkout_page_on_payment)
    /\ (currentStep (page_of (submit_payment checkout_env 1%N ""
                                checkout_page_on_payment)) = 2
        \/ currentStep (page_of (submit_payment checkout_env 1%N ""
                                   checkout_page_on_payment)) = 3)
    /\ (orderPlaced (page_of (submit_payment checkout_env 1%N ""
                                checkout_page_on_payment)) = true
        <-> currentStep (page_of (submit_payment checkout_env 1%N ""
                                    checkout_page_on_payment)) = 3).
Proof.
assert (Hreach : checkout_reachable 1%N "" checkout_page_on_payment).
{ apply (checkout_next 1%N "" address_submitted
           (loadAddresses 1%N true checkout_page_mounted)); [|reflexivity].
  apply (checkout_next 1%N "" (addresses_loaded true) checkout_page_mounted);
    [|reflexivity].
  apply checkout_mounted. }
apply (payment_is_submitted_with_an_own_address 1%N "" checkout_page_on_payment
         (submit_payment checkout_env 1%N "" checkout_page_on_payment)
         checkout_env Hreach).
reflexivity.
Defined.

Section DefaultFirst.

Lemma the_only_default (user : uuid) (t : Address.table) (a : Address.row) :
  (default_count user t <= 1)%nat -> In a t ->
  Address.user_id a = user -> Address.is_default a = Some true ->
  filter (is_default_of user) t = [a].
Proof.
intros Hcount Hin Hu Hd. unfold default_count in Hcount.
assert (Ha : In a (filter (is_default_of user) t)).
{ apply filter_In. split; [exact Hin|]. unfold is_default_of.
  rewrite Hu, Hd, N.eqb_refl. reflexivity. }
destruct (filter (is_default_of user) t) as [|x [|y l]];
  cbn [List.length] in Hcount; [contradiction| |lia].
destruct Ha as [-> | []]. reflexivity.
Qed.

Lemma listed_before_itself (a : Address.row) :
  flag_rank a = 1%nat -> listed_before a a = true.
Proof.
intros Hr. unfold listed_before. rewrite Hr. cbn.
unfold created_not_before. destruct (Address.created_at a); [|reflexivity].
apply Z.leb_refl.
Qed.

(** A flagged row among rows that are otherwise not flagged and not NULL
    is put at the head of the list. *)
Lemma flagged_row_is_listed_first (a : Address.row) (l : list Address.row) :
  flag_rank a = 1%nat ->
  (forall r, In r l -> r = a \/ flag_rank r = 2%nat) ->
  In a l -> exists rest, order_addresses l = a :: rest.
Proof.
intros Ha. induction l as [|b l IH]; intros Hall Hin; [contradiction|].
cbn [order_addresses fold_right]. fold (order_addresses l).
assert (Hall' : forall r, In r l -> r = a \/ flag_rank r = 2%nat)
  by (intros r Hr; apply Hall; now right).
destruct (Hall b (or_introl eq_refl)) as [-> | Hb].
- destruct (order_addresses l) as [|x s] eqn:Hs; cbn [insert_listed]; eauto.
  assert (Hx : In x l).
  { apply (Permutation_in _ (order_addresses_perm l)). rewrite Hs. now left. }
  destruct (Hall' x Hx) as [-> | Hx2].
  + rewrite (listed_before_itself a Ha). eauto.
  + unfold listed_before. rewrite Ha, Hx2. cbn. eauto.
- destruct Hin as [-> | Hin]; [congruence|].
  destruct (IH Hall' Hin) as [rest ->]. cbn [insert_listed].
  unfold listed_before. rewrite Ha, Hb. cbn. eauto.
Qed.

End DefaultFirst.

(** X10.  When the addresses of the checkout page are loaded and the user
    has a default address, that address is the one selected, whatever was
    selected before; the list shown holds the user's rows and no others;
    and if none of these rows has a NULL flag, the default address is the
    first of the list. *)
Theorem default_address_is_preselected :
  forall {cart : Type} (user : uuid) (st : CheckoutPage.state cart)
    (a : Address.row),
    addresses_ok (addresses (db (CheckoutPage.site st))) ->
    In a (addresses (db (CheckoutPage.site st))) ->
    Address.user_id a = user ->
    Address.is_default a = Some true ->
    CheckoutPage.selectedAddress (loadAddresses user true st) = Some a
    /\ Permutation (CheckoutPage.addresses (loadAddresses user true st))
         (filter (fun r => N.eqb (Address.user_id r) user)
            (addresses (db (CheckoutPage.site st))))
    /\ ((forall r, In r (addresses (db (CheckoutPage.site st))) ->
                   Address.user_id r = user -> Address.is_default r <> None) ->
        hd_error (CheckoutPage.addresses (loadAddresses user true st))
        = Some a).
Proof.
intros cart user st a [_ Hcount] Hin Hu Hd.
set (t := addresses (db (CheckoutPage.site st))) in *.
set (own := filter (fun r => N.eqb (Address.user_id r) user) t).
pose proof (the_only_default user t a (Hcount user) Hin Hu Hd) as Hone.
rewrite <- defaults_among_own_rows in Hone. fold own in Hone.
unfold loadAddresses.
cbn [CheckoutPage.selectedAddress CheckoutPage.addresses].
fold t. unfold select_addresses_of. fold own.
split.
{ now rewrite (find_the_only_one _ own (order_addresses own) a
                 (Permutation_sym (order_addresses_perm own)) Hone). }
split; [apply order_addresses_perm|].
intros Hflags.
assert (Hrank : flag_rank a = 1%nat) by (unfold flag_rank; now rewrite Hd).
assert (Hown : In a own).
{ apply filter_In. split; [exact Hin|]. rewrite Hu. apply N.eqb_refl. }
destruct (flagged_row_is_listed_first a own Hrank) as [rest ->];
  [|exact Hown|reflexivity].
intros r Hr.
assert (Hr' := Hr). apply filter_In in Hr' as [Hrt Hru].
apply N.eqb_eq in Hru.
destruct (Address.is_default r) as [[|]|] eqn:Hrd.
- left.
  assert (Hrin : In r (filter (fun addr => is_true (Address.is_default addr))
                         own)).
  { apply filter_In. split; [exact Hr|]. now rewrite Hrd. }
  rewrite Hone in Hrin. destruct Hrin as [<- | []]. reflexivity.
- right. unfold flag_rank. now rewrite Hrd.
- exfalso. now apply (Hflags r Hrt Hru).
Qed.

Lemma default_address_is_preselected_witness :
  CheckoutPage.selectedAddress (loadAddresses 1%N true checkout_page_mounted)
  = Some address_A
  /\ hd_error (CheckoutPage.addresses
                 (loadAddresses 1%N true checkout_page_mounted))
     = Some address_A.
Proof.
assert (Hok : addresses_ok [address_A; address_B; address_C]).
{ split.
  - simpl. repeat constructor; simpl; intuition discriminate.
  - intros u. unfold default_count.
    destruct (N.eq_dec u 1) as [->|H1]; [vm_compute; lia|].
    destruct (N.eq_dec u 2) as [->|H2]; [vm_compute; lia|].
    cbn [filter].
    change (is_default_of u address_A) with (N.eqb 1 u && true).
    change (is_default_of u address_B) with (N.eqb 1 u && false).
    change (is_default_of u address_C) with (N.eqb 2 u && true).
    rewrite (proj2 (N.eqb_neq 1 u)), (proj2 (N.eqb_neq 2 u)) by congruence.
    cbn. lia. }
destruct (default_address_is_preselected 1%N checkout_page_mounted address_A
            Hok) as [Hsel [_ Hfirst]].
- simpl. auto.
- reflexivity.
- reflexivity.
- split; [exact Hsel|]. apply Hfirst.
  intros r [<- | [<- | [<- | []]]] _; discriminate.
Defined.

(** X11.  Whatever a submission of the payment form runs into, it writes
    nothing but its own order: the tables [addresses] and [products] are
    as they were; the rows of [orders] and [order_items] stored before are
    still there, in place; at most one order is added, which is of the
    signed-in user, confirmed, and carries in the eight fields of its
    shipping address what the same fields of the selected address hold;
    and every order item added references that order. *)
Theorem checkout_writes_only_its_order :
  forall (cart : Type) (C : CartContext cart) (env : environment)
         (user : uuid) (selectedAddress : Address.row)
         (paymentMethod : string) (paymentForm : payment_form)
         (w0 : world cart),
    let w1 :=
      handlePaymentSubmit env user selectedAddress paymentMethod paymentForm
        w0 in
    addresses (db w1) = addresses (db w0)
    /\ products (db w1) = products (db w0)
    /\ exists new_orders new_items,
         orders (db w1) = orders (db w0) ++ new_orders
         /\ order_items (db w1) = order_items (db w0) ++ new_items
         /\ (List.length new_orders <= 1)%nat
         /\ (forall order, In order new_orders ->
               Order.user_id order = user
               /\ Order.status order = status_confirmed
               /\ ShippingAddress.name (Order.shipping_address order)
                  = Address.name selectedAddress
               /\ ShippingAddress.address_line_1 (Order.shipping_address order)
                  = Address.address_line_1 selectedAddress
               /\ ShippingAddress.address_line_2 (Order.shipping_address order)
                  = Address.address_line_2 selectedAddress
               /\ ShippingAddress.city (Order.shipping_address order)
                  = Address.city selectedAddress
               /\ ShippingAddress.state (Order.shipping_address order)
                  = Address.state selectedAddress
               /\ ShippingAddress.postal_code (Order.shipping_address order)
                  = Address.postal_code selectedAddress
               /\ ShippingAddress.country (Order.shipping_address order)
                  = Address.country selectedAddress
               /\ ShippingAddress.phone (Order.shipping_address order)
                  = Address.phone selectedAddress)
         /\ (forall r, In r new_items ->
               exists order,
                 In order new_orders
                 /\ OrderItem.order_id (OrderItem.item r) = Order.id order).
Proof.
intros cart C env user selectedAddress paymentMethod paymentForm w0 w1.
unfold w1. clear w1.
assert (Hnone : forall base : database,
          exists new_orders new_items,
            orders base = orders base ++ new_orders
            /\ order_items base = order_items base ++ new_items
            /\ (List.length new_orders <= 1)%nat
            /\ (forall order, In order new_orders ->
                  Order.user_id order = user
                  /\ Order.status order = status_confirmed
                  /\ ShippingAddress.name (Order.shipping_address order)
                     = Address.name selectedAddress
                  /\ ShippingAddress.address_line_1 (Order.shipping_address order)
                     = Address.address_line_1 selectedAddress
                  /\ ShippingAddress.address_line_2 (Order.shipping_address order)
                     = Address.address_line_2 selectedAddress
                  /\ ShippingAddress.city (Order.shipping_address order)
                     = Address.city selectedAddress
                  /\ ShippingAddress.state (Order.shipping_address order)
                     = Address.state selectedAddress
                  /\ ShippingAddress.postal_code (Order.shipping_address order)
                     = Address.postal_code selectedAddress
                  /\ ShippingAddress.country (Order.shipping_address order)
                     = Address.country selectedAddress
                  /\ ShippingAddress.phone (Order.shipping_address order)
                     = Address.phone selectedAddress)
            /\ (forall r, In r new_items ->
                  exists order,
                    In order new_orders
                    /\ OrderItem.order_id (OrderItem.item r) = Order.id order)).
{ intros base. exists [], []. rewrite !app_nil_r. cbn.
  repeat split; auto; contradiction. }
destruct (card_details_missing paymentMethod paymentForm) eqn:Hcard.
{ rewrite handlePaymentSubmit_card_details_missing by exact Hcard.
  cbn [db]. auto. }
destruct (orders_insert env
            (make_orderData user selectedAddress paymentMethod (cart_state w0))
            (db w0)) as [[order db1]|e] eqn:Horder.
2:{ rewrite (handlePaymentSubmit_order_rejected _ _ _ _ _ _ e Hcard Horder).
    cbn [placing_failed db]. auto. }
destruct (orders_insert_stores _ _ _ _ _ Horder)
  as [_ [_ [Hship [Huser Hdb1]]]].
destruct (orders_insert_row _ _ _ _ _ Horder) as [_ [Hstatus _]].
assert (Hthe : forall o, In o [order] ->
          Order.user_id o = user
          /\ Order.status o = status_confirmed
          /\ ShippingAddress.name (Order.shipping_address o)
             = Address.name selectedAddress
          /\ ShippingAddress.address_line_1 (Order.shipping_address o)
             = Address.address_line_1 selectedAddress
          /\ ShippingAddress.address_line_2 (Order.shipping_address o)
             = Address.address_line_2 selectedAddress
          /\ ShippingAddress.city (Order.shipping_address o)
             = Address.city selectedAddress
          /\ ShippingAddress.state (Order.shipping_address o)
             = Address.state selectedAddress
          /\ ShippingAddress.postal_code (Order.shipping_address o)
             = Address.postal_code selectedAddress
          /\ ShippingAddress.country (Order.shipping_address o)
             = Address.country selectedAddress
          /\ ShippingAddress.phone (Order.shipping_address o)
             = Address.phone selectedAddress).
{ intros o [<- | []]. rewrite Huser, Hstatus, Hship. cbn. auto 12. }
destruct (order_items_insert env
            (make_orderItems order (cart_state w0)) db1)
  as [db2|e] eqn:Hitems.
- rewrite (handlePaymentSubmit_completed _ _ _ _ _ _ order db1 db2
             Hcard Horder Hitems).
  destruct (order_items_insert_stores _ _ _ _ Hitems) as [rows [-> Hrows]].
  subst db1. cbn. split; [reflexivity|]. split; [reflexivity|].
  exists [order], rows. repeat split; auto; try apply Hthe; auto.
  intros r Hr. exists order. split; [now left|].
  eapply stored_items_reference; eauto.
- rewrite (handlePaymentSubmit_items_rejected _ _ _ _ _ _ order db1 e
             Hcard Horder Hitems).
  subst db1. cbn. split; [reflexivity|]. split; [reflexivity|].
  exists [order], []. rewrite app_nil_r.
  repeat split; auto; try apply Hthe; auto. contradiction.
Qed.

(** X12.  An order placed from the checkout page is stored as paid only
    if the card form was filled in: the order a submission adds is either
    a cash-on-delivery order with payment status pending, or a card order
    with payment status paid, and then none of the card number, the expiry
    date, the CVV and the name on the card was blank. *)
Theorem order_is_paid_only_with_card_details :
  forall {cart : Type} `{CartContext cart} (user : uuid)
    (type_error : string) (st st' : CheckoutPage.state cart)
    (env : environment) (order : Order.row),
    checkout_reachable user type_error st ->
    checkout_handle user type_error (payment_submitted env) st = Some st' ->
    In order (orders (db (CheckoutPage.site st'))) ->
    ~ In order (orders (db (CheckoutPage.site st))) ->
    (Order.payment_method order = Some "cod"
     /\ Order.payment_status order = payment_pending)
    \/ (Order.payment_method order = Some "card"
        /\ Order.payment_status order = payment_paid
        /\ blank (cardNumber (CheckoutPage.paymentForm st)) = false
        /\ blank (expiryDate (CheckoutPage.paymentForm st)) = false
        /\ blank (cvv (CheckoutPage.paymentForm st)) = false
        /\ blank (cardName (CheckoutPage.paymentForm st)) = false).
Proof.
intros cart Hcart user type_error st st' env order Hreach Hstep Hin Hnew.
destruct (payment_submitted_runs_handler _ _ _ _ _ Hreach Hstep)
  as [selected [_ Hsite]].
rewrite Hsite in Hin.
destruct (handlePaymentSubmit_new_order _ _ _ _ _ _ _ Hin Hnew)
  as [Hcard [Hmethod Hstatus]].
destruct (checkout_reachable_method _ _ _ Hreach) as [Hm | Hm];
  rewrite Hm in *.
- left. split; [exact Hmethod|exact Hstatus].
- right. unfold card_details_missing in Hcard. cbn [String.eqb] in Hcard.
  change (String.eqb "card" "card") with true in Hcard.
  cbn [andb] in Hcard.
  apply orb_false_iff in Hcard as [Hcard H4].
  apply orb_false_iff in Hcard as [Hcard H3].
  apply orb_false_iff in Hcard as [H1 H2]. auto 10.
Qed.

Lemma order_is_paid_only_with_card_details_witness :
  (Order.payment_method yoga_order = Some "cod"
   /\ Order.payment_status yoga_order = payment_pending)
  \/ (Order.payment_method yoga_order = Some "card"
      /\ Order.payment_status yoga_order = payment_paid
      /\ blank (cardNumber (CheckoutPage.paymentForm checkout_page_on_payment))
         = false
      /\ blank (expiryDate (CheckoutPage.paymentForm checkout_page_on_payment))
         = false
      /\ blank (cvv (CheckoutPage.paymentForm checkout_page_on_payment)) = false
      /\ blank (cardName (CheckoutPage.paymentForm checkout_page_on_payment))
         = false).
Proof.
assert (Hreach : checkout_reachable 1%N "" checkout_page_on_payment).
{ apply (checkout_next 1%N "" address_submitted
           (loadAddresses 1%N true checkout_page_mounted)); [|reflexivity].
  apply (checkout_next 1%N "" (addresses_loaded true) checkout_page_mounted);
    [|reflexivity].
  apply checkout_mounted. }
apply (order_is_paid_only_with_card_details 1%N "" checkout_page_on_payment
         (submit_payment checkout_env 1%N "" checkout_page_on_payment)
         checkout_env yoga_order Hreach).
- reflexivity.
- vm_compute. auto.
- intros [].
Defined.

(* ===================================================================== *)
(** * Properties of order numbers under row-level security *)
(* ===================================================================== *)

Section OwnOrders.

Lemma no_own_order_of_the_day (user : uuid) (today : string)
  (t : Order.table) :
  (forall r, In r t -> Order.user_id r = user ->
             sql_like (today_pattern today) (Order.order_number r) = false) ->
  filter (fun r => sql_like (today_pattern today) (Order.order_number r))
    (own_orders user t) = [].
Proof.
intros Hnone. unfold own_orders.
induction t as [|r t IH]; [reflexivity|]. cbn [filter].
assert (IH' := IH (fun x Hx => Hnone x (or_intror Hx))).
destruct (N.eqb (Order.user_id r) user) eqn:Hu; [|exact IH'].
cbn [filter]. apply N.eqb_eq in Hu.
now rewrite (Hnone r (or_introl eq_refl) Hu).
Qed.

Lemma first_number_of_the_day (today : string) :
  order_number_of today 1 = ("ORD-" ++ today ++ "-0001")%string.
Proof. reflexivity. Qed.

End OwnOrders.

(** X13.  The query of set_order_number runs as the signed-in user and so
    reads only that user's orders.  Hence the first order of a day of a
    user is given the counter 0001 whatever the other users have ordered,
    and once another user's order holds [ORD-<day>-0001] the insert is
    rejected by [order_number UNIQUE]; as the rejected insert stores
    nothing, every further attempt of that day ends the same way. *)
Theorem first_order_after_another_user_is_rejected :
  forall (user : uuid) (today : string) (NEW : Order.candidate)
         (t : Order.table) (taken : Order.row),
    null_or_empty (Order.order_number NEW) = true ->
    Order.user_id NEW = user ->
    (forall r, In r t -> Order.user_id r = user ->
               sql_like (today_pattern today) (Order.order_number r) = false) ->
    In taken t ->
    Order.order_number taken = order_number_of today 1 ->
    insert_order_as user today NEW t = ran (Error unique_violation).
Proof.
intros user today NEW t taken Hnull Huser Hnone Hin Hnumber.
unfold insert_order_as, set_order_number. rewrite Hnull.
unfold generated_order_number, next_order_counter.
rewrite (no_own_order_of_the_day user today t Hnone).
cbn [mapM bind sql_max coalesce].
change (int4pl 0 1) with (Ok 1 : result Z). cbn [bind].
change (lpad (int_to_text 1) 4 "0") with "0001".
cbn [Order.user_id Order.with_order_number Order.order_number Order.id].
rewrite Huser, N.eqb_refl. cbn [negb].
rewrite <- first_number_of_the_day.
assert (Htaken : existsb (has_order_number (order_number_of today 1)) t = true).
{ apply existsb_exists. exists taken. split; [exact Hin|].
  unfold has_order_number. rewrite Hnumber. apply String.eqb_refl. }
rewrite Htaken, orb_true_r. reflexivity.
Qed.

Lemma first_order_after_another_user_is_rejected_witness :
  insert_order_as 2%N "20250917" candidate_of_user_2 [order_of_user_1]
  = ran (Error unique_violation).
Proof.
apply (first_order_after_another_user_is_rejected 2%N "20250917"
         candidate_of_user_2 [order_of_user_1] order_of_user_1).
- reflexivity.
- reflexivity.
- intros r [<- | []] Hu. discriminate.
- now left.
- reflexivity.
Defined.

(* ===================================================================== *)
(** * Properties of the address page *)
(* ===================================================================== *)

Section AddressPageFacts.

Implicit Types (t : Address.table) (r a OLD : Address.row) (user : uuid).

(** A property of rows that clearing the flag keeps, and that the SET
    clause establishes, holds of all rows after an update. *)
Lemma update_rows_all (P : Address.row -> Prop)
  (set : Address.row -> Address.row) (targets : list uuid) :
  (forall r, P r -> P (Address.with_is_default (Some false) r)) ->
  (forall OLD, P OLD -> P (Address.with_id (Address.id OLD) (set OLD))) ->
  forall written t t',
    Forall P t -> update_rows set targets written t = Ok t' -> Forall P t'.
Proof.
intros Hclear Hset.
induction targets as [|i rest IH]; intros written t t' Hall;
  cbn [update_rows].
- now intros [= <-].
- destruct (existsb (N.eqb i) written); [discriminate|].
  destruct (find (has_id i) t) as [OLD|] eqn:Hfind; [|now apply IH].
  set (NEW := Address.with_id (Address.id OLD) (set OLD)).
  destruct (ensure_single_default_address NEW t) as [NEW' t1] eqn:Htrig.
  apply IH. rewrite Forall_forall in *.
  assert (HOLD : P OLD) by (apply Hall; eapply find_some; eauto).
  assert (HNEW : NEW' = NEW)
    by (rewrite <- (ensure_single_default_address_row NEW t);
        now rewrite Htrig).
  assert (Ht1 : forall r, In r t1 -> P r).
  { intros r Hr. unfold ensure_single_default_address in Htrig.
    destruct (is_true (Address.is_default NEW)); injection Htrig as _ <-;
      [|auto].
    unfold clear_default_where in Hr.
    apply in_map_iff in Hr as [x [<- Hx]].
    destruct (sibling_of NEW x); auto. }
  intros r Hr. unfold replace_row in Hr.
  apply in_map_iff in Hr as [x [<- Hx]].
  destruct (has_id i x); [|auto]. subst NEW' NEW. auto.
Qed.

Lemma required_filled_flag (v : nullable bool) r :
  required_filled r -> required_filled (Address.with_is_default v r).
Proof. intros H. exact H. Qed.

Lemma setAsDefault_all (P : Address.row -> Prop) user (addressId : uuid) t t' :
  (forall r v, P r -> P (Address.with_is_default v r)) ->
  Forall P t -> setAsDefault user addressId t = Ok t' -> Forall P t'.
Proof.
intros Hflag Hall. unfold setAsDefault.
assert (Hset : forall v OLD, P OLD ->
          P (Address.with_id (Address.id OLD)
               (Address.with_is_default v OLD))).
{ intros v OLD HOLD. destruct OLD. cbn. apply (Hflag _ v) in HOLD.
  exact HOLD. }
destruct (update_addresses (fun r => N.eqb (Address.user_id r) user)
            (Address.with_is_default (Some false)) t) as [t1|e] eqn:Hfirst.
- apply (update_rows_all P _ _ (fun r => Hflag r _) (Hset _)).
  apply (update_rows_all P _ _ (fun r => Hflag r _) (Hset _) _ _ _ Hall Hfirst).
- now apply (update_rows_all P _ _ (fun r => Hflag r _) (Hset _)).
Qed.

Lemma setAsDefault_inv user (addressId : uuid) t t' :
  addresses_ok t -> setAsDefault user addressId t = Ok t' -> addresses_ok t'.
Proof.
intros Hok. unfold setAsDefault.
destruct (update_addresses (fun r => N.eqb (Address.user_id r) user)
            (Address.with_is_default (Some false)) t) as [t1|e] eqn:Hfirst.
- apply update_rows_inv. exact (update_rows_inv _ _ _ _ _ Hok Hfirst).
- now apply update_rows_inv.
Qed.

(** What handleSubmit does to the table: nothing, an update of the row
    being edited with the content of the form, or an insert of a row with
    that content; the latter two only for a form with its required fields
    filled in. *)
Lemma handleSubmit_table (env : address_environment) user t
  (st : AddressesPage.state) :
  let f := AddressesPage.formData st in
  fst (handleSubmit env user t st) = t
  \/ (required_missing f = false
      /\ ((exists editing,
             update_addresses
               (fun r => own_row user r && has_id (Address.id editing) r)
               (updated_row env f) t
             = Ok (fst (handleSubmit env user t st)))
          \/ insert_address (inserted_row env user f) t
             = Ok (fst (handleSubmit env user t st)))).
Proof.
intros f. unfold handleSubmit. fold f.
destruct (required_missing f); [now left|].
destruct (AddressesPage.editingAddress st) as [editing|].
- destruct (update_addresses _ _ t) as [t'|e] eqn:Hup; [|now left].
  right. split; [reflexivity|]. left. exists editing. exact Hup.
- destruct (insert_address _ t) as [t'|e] eqn:Hins; [|now left].
  right. split; [reflexivity|]. right. reflexivity.
Qed.

Lemma required_missing_false (f : AddressForm.data) :
  required_missing f = false ->
  blank (AddressForm.name f) = false
  /\ blank (AddressForm.address_line_1 f) = false
  /\ blank (AddressForm.city f) = false
  /\ blank (AddressForm.postal_code f) = false.
Proof.
unfold required_missing. intros H.
apply orb_false_iff in H as [H H4].
apply orb_false_iff in H as [H H3].
apply orb_false_iff in H as [H1 H2]. auto.
Qed.

Lemma insert_address_all (P : Address.row -> Prop) (NEW : Address.row) t t' :
  (forall r, P r -> P (Address.with_is_default (Some false) r)) ->
  P NEW -> Forall P t -> insert_address NEW t = Ok t' -> Forall P t'.
Proof.
intros Hclear HNEW Hall. unfold insert_address, ensure_single_default_address.
destruct (is_true (Address.is_default NEW)).
- destruct (existsb _ _); [discriminate|]. intros [= <-].
  apply Forall_app. split; [|now constructor].
  unfold clear_default_where. rewrite Forall_forall in *.
  intros r Hr. apply in_map_iff in Hr as [x [<- Hx]].
  destruct (sibling_of NEW x); auto.
- destruct (existsb _ _); [discriminate|]. intros [= <-].
  apply Forall_app. split; [exact Hall|now constructor].
Qed.

Lemma run_address_page_write_ok (w : address_page_write) t :
  addresses_ok t -> addresses_ok (run_address_page_write w t).
Proof.
intros Hok. destruct w as [env user st|env user addressId st|user addressId];
  cbn [run_address_page_write].
- destruct (handleSubmit_table env user t st)
    as [-> | [_ [[editing Hup] | Hins]]]; [exact Hok| |].
  + exact (update_rows_inv _ _ _ _ _ Hok Hup).
  + exact (insert_address_inv _ _ _ Hok Hins).
- cbn. now apply delete_addresses_inv.
- destruct (setAsDefault user addressId t) as [t'|e] eqn:Hset; [|exact Hok].
  exact (setAsDefault_inv _ _ _ _ Hok Hset).
Qed.

Lemma run_address_page_write_filled (w : address_page_write) t :
  Forall required_filled t ->
  Forall required_filled (run_address_page_write w t).
Proof.
intros Hall. destruct w as [env user st|env user addressId st|user addressId];
  cbn [run_address_page_write].
- destruct (handleSubmit_table env user t st)
    as [-> | [Hform [[editing Hup] | Hins]]]; [exact Hall| |].
  + apply required_missing_false in Hform.
    unfold update_addresses in Hup.
    apply (update_rows_all required_filled
             (updated_row env (AddressesPage.formData st)) _
             (required_filled_flag (Some false))
             (fun OLD _ => Hform) _ _ _ Hall Hup).
  + apply required_missing_false in Hform.
    exact (insert_address_all required_filled
             (inserted_row env user (AddressesPage.formData st)) _ _
             (required_filled_flag (Some false)) Hform Hall Hins).
- cbn. unfold delete_addresses. rewrite Forall_forall in *.
  intros r Hr. apply filter_In in Hr as [Hr _]. auto.
- destruct (setAsDefault user addressId t) as [t'|e] eqn:Hset; [|exact Hall].
  exact (setAsDefault_all required_filled _ _ _ _
           (fun r v => required_filled_flag v r) Hall Hset).
Qed.

End AddressPageFacts.

(** X14.  In a table of addresses written through the address page only,
    by whichever users and with whatever was typed into the form, every
    row has a name, a first address line, a city and a postal code that
    are not blank, no two rows share an identifier, and no user has more
    than one default address. *)
Theorem address_page_stores_only_filled_in_rows :
  forall t : Address.table,
    written_by_address_page t ->
    Forall required_filled t /\ addresses_ok t.
Proof.
induction 1 as [|w t _ [Hfilled Hok]].
- split; [constructor|]. split; [constructor|]. intros u. cbn. lia.
- split.
  + now apply run_address_page_write_filled.
  + now apply run_address_page_write_ok.
Qed.

Lemma address_page_stores_only_filled_in_rows_witness :
  Forall required_filled
    (run_address_page_write (form_submitted address_page_env 1%N ada_form_open)
       [])
  /\ addresses_ok
       (run_address_page_write
          (form_submitted address_page_env 1%N ada_form_open) []).
Proof.
apply (address_page_stores_only_filled_in_rows
         (run_address_page_write
            (form_submitted address_page_env 1%N ada_form_open) [])).
apply address_page_next. apply address_page_empty.
Defined.

Section AddressPageEdits.

Implicit Types (t : Address.table) (r a OLD : Address.row) (user : uuid).

Lemma update_own_row (set : Address.row -> Address.row) t OLD user :
  NoDup (map Address.id t) -> In OLD t -> Address.user_id OLD = user ->
  update_addresses (fun r => own_row user r && has_id (Address.id OLD) r) set t
  = Ok (map (after_row_update (Address.with_id (Address.id OLD) (set OLD))) t).
Proof.
intros Hnd Hin Hu. rewrite <- (update_one_row set t OLD Hnd Hin).
unfold update_addresses. f_equal. f_equal. apply filter_ext_in.
intros r Hr. destruct (has_id (Address.id OLD) r) eqn:Hid;
  [|apply andb_false_r].
apply has_id_true in Hid.
rewrite (same_id_same_row t r OLD Hnd Hr Hin Hid).
unfold own_row. rewrite Hu, N.eqb_refl. reflexivity.
Qed.

Lemma flag_false_again r :
  Address.is_default r = Some false ->
  Address.with_is_default (Some false) r = r.
Proof. destruct r. cbn. now intros ->. Qed.

Lemma not_the_default user t a r :
  (default_count user t <= 1)%nat -> In a t -> In r t ->
  Address.user_id a = user -> Address.is_default a = Some true ->
  Address.user_id r = user -> r <> a ->
  is_true (Address.is_default r) = false.
Proof.
intros Hcount Ha Hr Hua Hda Hur Hne.
pose proof (the_only_default user t a Hcount Ha Hua Hda) as Hone.
destruct (is_true (Address.is_default r)) eqn:Hd; [|reflexivity].
assert (Hin : In r (filter (is_default_of user) t)).
{ apply filter_In. split; [exact Hr|]. unfold is_default_of.
  now rewrite Hur, N.eqb_refl, Hd. }
rewrite Hone in Hin. destruct Hin as [<- | []]. contradiction.
Qed.

End AddressPageEdits.

(** X15.  Opening an address of one's own in the form and saving it
    without a change is accepted and rewrites that row only: its columns
    stay as they were, except that [updated_at] takes the time of the
    browser and that an optional text that was NULL (second address line,
    state, phone) is stored as the empty text.  The rows are the same, in
    the same order; every other row is as it was, or, when the saved
    address is the default and the other row is of the same user with a
    NULL flag, has its flag set to false. *)
Theorem unchanged_edit_rewrites_one_row :
  forall (env : address_environment) (user : uuid) (t : Address.table)
         (st : AddressesPage.state) (a : Address.row),
    addresses_ok t ->
    In a t ->
    Address.user_id a = user ->
    required_filled a ->
    let after := handleSubmit env user t (handleEdit a st) in
    AddressesPage.message (snd after) = "Address updated successfully!"
    /\ AddressesPage.showForm (snd after) = false
    /\ map Address.id (fst after) = map Address.id t
    /\ In (saved_unchanged env a) (fst after)
    /\ (forall r, In r t -> Address.id r <> Address.id a ->
          In r (fst after)
          \/ (Address.is_default a = Some true
              /\ Address.user_id r = user
              /\ Address.is_default r = None
              /\ In (Address.with_is_default (Some false) r) (fst after))).
Proof.
intros env user t st a [Hnd Hcount] Hin Hu [H1 [H2 [H3 H4]]] after.
assert (Hform : required_missing (AddressesPage.formData (handleEdit a st))
                = false).
{ unfold required_missing, handleEdit.
  cbn [AddressesPage.formData AddressForm.name AddressForm.address_line_1
       AddressForm.city AddressForm.postal_code].
  now rewrite H1, H2, H3, H4. }
assert (Hafter : after
          = (map (after_row_update (saved_unchanged env a)) t,
             saving_done env user "Address updated successfully!"
               (map (after_row_update (saved_unchanged env a)) t)
               (handleEdit a st))).
{ unfold after, handleSubmit. rewrite Hform.
  cbn [handleEdit AddressesPage.editingAddress].
  rewrite (update_own_row _ t a user Hnd Hin Hu). reflexivity. }
rewrite Hafter. cbn [fst snd].
split; [reflexivity|]. split; [reflexivity|].
split.
{ rewrite map_map. apply map_ext. intros r. unfold after_row_update.
  destruct (has_id (Address.id (saved_unchanged env a)) r) eqn:Hid.
  - apply has_id_true in Hid. now rewrite Hid.
  - now destruct (_ && _). }
split.
{ apply in_map_iff. exists a. split; [|exact Hin].
  unfold after_row_update, has_id. cbn. now rewrite N.eqb_refl. }
intros r Hr Hne.
assert (Hmap : In (after_row_update (saved_unchanged env a) r)
                 (map (after_row_update (saved_unchanged env a)) t))
  by now apply in_map.
unfold after_row_update in Hmap at 1.
assert (Hid : has_id (Address.id (saved_unchanged env a)) r = false)
  by (apply has_id_false; exact Hne).
rewrite Hid in Hmap.
destruct (is_true (Address.is_default (saved_unchanged env a))
          && sibling_of (saved_unchanged env a) r) eqn:Hs; [|now left].
apply andb_true_iff in Hs as [Hda Hsib].
cbn [saved_unchanged Address.is_default] in Hda.
unfold sibling_of in Hsib. cbn [saved_unchanged Address.user_id] in Hsib.
apply andb_true_iff in Hsib as [Hur _]. apply N.eqb_eq in Hur.
rewrite Hu in Hur.
assert (Hda' : Address.is_default a = Some true)
  by (destruct (Address.is_default a) as [[|]|]; try discriminate; reflexivity).
assert (Hra : r <> a) by (intros ->; now apply Hne).
pose proof (not_the_default user t a r (Hcount user) Hin Hr Hu Hda' Hur Hra)
  as Hrd.
destruct (Address.is_default r) as [[|]|] eqn:Hflag; [discriminate| |].
- left. now rewrite (flag_false_again r Hflag) in Hmap.
- right. auto.
Qed.

Lemma sample_addresses_ok : addresses_ok [address_A; address_B; address_C].
Proof.
split.
- simpl. repeat constructor; simpl; intuition discriminate.
- intros u. unfold default_count.
  destruct (N.eq_dec u 1) as [->|H1]; [vm_compute; lia|].
  destruct (N.eq_dec u 2) as [->|H2]; [vm_compute; lia|].
  cbn [filter].
  change (is_default_of u address_A) with (N.eqb 1 u && true).
  change (is_default_of u address_B) with (N.eqb 1 u && false).
  change (is_default_of u address_C) with (N.eqb 2 u && true).
  rewrite (proj2 (N.eqb_neq 1 u)), (proj2 (N.eqb_neq 2 u)) by congruence.
  cbn. lia.
Qed.

Lemma unchanged_edit_rewrites_one_row_witness :
  AddressesPage.message
    (snd (handleSubmit address_page_env 1%N [address_A; address_B; address_C]
            (handleEdit address_B address_page_start)))
  = "Address updated successfully!"
  /\ In (saved_unchanged address_page_env address_B)
       (fst (handleSubmit address_page_env 1%N
               [address_A; address_B; address_C]
               (handleEdit address_B address_page_start))).
Proof.
assert (Hfilled : required_filled address_B) by (repeat split).
destruct (unchanged_edit_rewrites_one_row address_page_env 1%N
            [address_A; address_B; address_C] address_page_start address_B
            sample_addresses_ok)
  as [Hmessage [_ [_ [Hrow _]]]].
- simpl. auto.
- reflexivity.
- exact Hfilled.
- split; [exact Hmessage|exact Hrow].
Defined.

(** X16.  Deleting one's default address from the address page removes
    that row and nothing else, and promotes no other address: the user
    has no default address afterwards, and the page reports the deletion. *)
Theorem deleting_the_default_leaves_no_default :
  forall (env : address_environment) (user : uuid) (t : Address.table)
         (st : AddressesPage.state) (a : Address.row),
    addresses_ok t ->
    In a t ->
    Address.user_id a = user ->
    Address.is_default a = Some true ->
    let after := handleDelete env user true (Address.id a) t st in
    default_count user (fst after) = 0%nat
    /\ (forall r, In r (fst after) <-> In r t /\ r <> a)
    /\ AddressesPage.message (snd after) = "Address deleted successfully!".
Proof.
intros env user t st a [Hnd Hcount] Hin Hu Hd after.
assert (Hrows : forall r, In r (fst after) <-> In r t /\ r <> a).
{ intros r. unfold after, handleDelete, delete_addresses. cbn [fst].
  rewrite filter_In. split.
  - intros [Hr Hkeep]. split; [exact Hr|]. intros ->.
    unfold own_row, has_id in Hkeep. now rewrite Hu, !N.eqb_refl in Hkeep.
  - intros [Hr Hne]. split; [exact Hr|].
    apply negb_true_iff, andb_false_iff. right. apply N.eqb_neq.
    intros Hid. apply Hne. eapply same_id_same_row; eauto. }
split; [|split; [exact Hrows|reflexivity]].
unfold default_count.
destruct (filter (is_default_of user) (fst after)) as [|r l] eqn:Hf;
  [reflexivity|exfalso].
assert (Hr : In r (filter (is_default_of user) (fst after)))
  by (rewrite Hf; now left).
apply filter_In in Hr as [Hr Hdr]. apply Hrows in Hr as [Hr Hne].
assert (Hone : In r (filter (is_default_of user) t))
  by (apply filter_In; auto).
rewrite (the_only_default user t a (Hcount user) Hin Hu Hd) in Hone.
destruct Hone as [<- | []]. now apply Hne.
Qed.

Lemma deleting_the_default_leaves_no_default_witness :
  default_count 1%N
    (fst (handleDelete address_page_env 1%N true 10%N
            [address_A; address_B; address_C] address_page_start))
  = 0%nat.
Proof.
destruct (deleting_the_default_leaves_no_default address_page_env 1%N
            [address_A; address_B; address_C] address_page_start address_A
            sample_addresses_ok)
  as [Hnone _].
- simpl. auto.
- reflexivity.
- reflexivity.
- exact Hnone.
Defined.

(** X17.  setAsDefault for an address that is not stored any more (the
    list on the page is out of date) is not rejected, and leaves the user
    without any default address: the first request has cleared the flag on
    all rows of the user, the second finds no row to set it on.  The rows
    are the same, and those of other users are as they were. *)
Theorem default_for_a_missing_row_leaves_no_default :
  forall (user : uuid) (addressId : uuid) (t : Address.table),
    NoDup (map Address.id t) ->
    ~ In addressId (map Address.id t) ->
    exists t',
      setAsDefault user addressId t = Ok t'
      /\ default_count user t' = 0%nat
      /\ map Address.id t' = map Address.id t
      /\ (forall r, In r t -> Address.user_id r <> user -> In r t').
Proof.
intros user addressId t Hnd Hmissing.
set (clear := fun r : Address.row =>
                if N.eqb (Address.user_id r) user
                then Address.with_id (Address.id r)
                       (Address.with_is_default (Some false) r)
                else r).
assert (Hfirst :
  update_addresses (fun r => N.eqb (Address.user_id r) user)
    (Address.with_is_default (Some false)) t = Ok (map clear t)).
{ apply update_addresses_not_default; [exact Hnd|]. reflexivity. }
assert (Hids : map Address.id (map clear t) = map Address.id t).
{ rewrite map_map. apply map_ext. intros r. unfold clear.
  now destruct (N.eqb (Address.user_id r) user). }
exists (map clear t). unfold setAsDefault. rewrite Hfirst.
split.
{ unfold update_addresses. rewrite rows_with_id_none; [reflexivity|].
  now rewrite Hids. }
split.
{ unfold default_count.
  destruct (filter (is_default_of user) (map clear t)) as [|r l] eqn:Hf;
    [reflexivity|exfalso].
  assert (Hr : In r (filter (is_default_of user) (map clear t)))
    by (rewrite Hf; now left).
  apply filter_In in Hr as [Hr Hdr].
  apply in_map_iff in Hr as [x [<- Hx]].
  unfold is_default_of, clear in Hdr.
  destruct (N.eqb (Address.user_id x) user) eqn:Hu.
  - cbn in Hdr. rewrite andb_false_r in Hdr. discriminate.
  - rewrite Hu in Hdr. discriminate. }
split; [exact Hids|].
intros r Hr Hne. apply in_map_iff. exists r. split; [|exact Hr].
unfold clear. apply N.eqb_neq in Hne. now rewrite Hne.
Qed.

Lemma default_for_a_missing_row_leaves_no_default_witness :
  exists t',
    setAsDefault 1%N 99%N [address_A; address_B; address_C] = Ok t'
    /\ default_count 1%N t' = 0%nat
    /\ map Address.id t' = [10%N; 11%N; 12%N]
    /\ (forall r, In r [address_A; address_B; address_C] ->
                  Address.user_id r <> 1%N -> In r t').
Proof.
apply (default_for_a_missing_row_leaves_no_default 1%N 99%N
         [address_A; address_B; address_C]).
- simpl. repeat constructor; simpl; intuition discriminate.
- simpl. intuition discriminate.
Defined.

Section AddressPageBanner.

Lemma failure_is_shown_as_error (text : string) :
  shown_as_error ("Error: " ++ text) = true.
Proof. reflexivity. Qed.

End AddressPageBanner.

(** X18.  handleSubmit of the address page ends in one of two ways, and
    the banner is drawn accordingly.  Either nothing is written: the
    table is as it was, the form stays as it is with what was typed, and
    the message is drawn as an error; this is what happens, with the
    message [Error: Please fill in all required fields], whenever the
    name, the first address line, the city or the postal code is empty or
    holds blanks only.  Or the update or the insert has committed: the
    form is closed and reset, and the message is drawn as a success. *)
Theorem address_form_banner_tells_the_outcome :
  forall (env : address_environment) (user : uuid) (t : Address.table)
         (st : AddressesPage.state),
    let f := AddressesPage.formData st in
    let after := handleSubmit env user t st in
    (required_missing f = true ->
       AddressesPage.message (snd after)
       = "Error: Please fill in all required fields")
    /\ ((shown_as_error (AddressesPage.message (snd after)) = true
         /\ fst after = t
         /\ AddressesPage.formData (snd after) = f
         /\ AddressesPage.showForm (snd after) = AddressesPage.showForm st
         /\ AddressesPage.editingAddress (snd after)
            = AddressesPage.editingAddress st)
        \/ (shown_as_error (AddressesPage.message (snd after)) = false
            /\ required_missing f = false
            /\ AddressesPage.formData (snd after) = blank_form
            /\ AddressesPage.showForm (snd after) = false
            /\ AddressesPage.editingAddress (snd after) = None
            /\ ((exists editing,
                   AddressesPage.editingAddress st = Some editing
                   /\ update_addresses
                        (fun r =>
                           own_row user r && has_id (Address.id editing) r)
                        (updated_row env f) t
                      = Ok (fst after))
                \/ (AddressesPage.editingAddress st = None
                    /\ insert_address (inserted_row env user f) t
                       = Ok (fst after))))).
Proof.
intros env user t st f after. unfold after, handleSubmit. fold f.
destruct (required_missing f) eqn:Hform.
{ split; [reflexivity|]. left. cbn [fst snd saving_failed
    AddressesPage.message AddressesPage.formData AddressesPage.showForm
    AddressesPage.editingAddress].
  split; [apply failure_is_shown_as_error|auto]. }
split; [discriminate|].
destruct (AddressesPage.editingAddress st) as [editing|] eqn:Hediting.
- destruct (update_addresses _ _ t) as [t'|e] eqn:Hup.
  + right. cbn [fst snd]. repeat split; try reflexivity.
    left. exists editing. auto.
  + left. cbn [fst snd saving_failed AddressesPage.message
      AddressesPage.formData AddressesPage.showForm
      AddressesPage.editingAddress].
    split; [apply failure_is_shown_as_error|auto].
- destruct (insert_address _ t) as [t'|e] eqn:Hins.
  + right. cbn [fst snd]. repeat split; try reflexivity. right. auto.
  + left. cbn [fst snd saving_failed AddressesPage.message
      AddressesPage.formData AddressesPage.showForm
      AddressesPage.editingAddress].
    split; [apply failure_is_shown_as_error|auto].
Qed.

Section OneUserADay.

Lemma own_orders_of_the_day (user : uuid) (today : string) (t : Order.table) :
  (forall r, In r t ->
             sql_like (today_pattern today) (Order.order_number r) = true ->
             Order.user_id r = user) ->
  filter (fun r => sql_like (today_pattern today) (Order.order_number r))
    (own_orders user t)
  = filter (fun r => sql_like (today_pattern today) (Order.order_number r)) t.
Proof.
intros Hown. unfold own_orders.
induction t as [|r t IH]; [reflexivity|]. cbn [filter].
assert (IH' := IH (fun x Hx => Hown x (or_intror Hx))).
destruct (sql_like (today_pattern today) (Order.order_number r)) eqn:Hlike.
- rewrite (Hown r (or_introl eq_refl) Hlike), N.eqb_refl. cbn [filter].
  rewrite Hlike. now rewrite IH'.
- destruct (N.eqb (Order.user_id r) user); cbn [filter]; rewrite ?Hlike;
    exact IH'.
Qed.

Lemma set_order_number_user (today : string) (t : Order.table)
  (NEW NEW' : Order.candidate) :
  set_order_number today t NEW = Ok NEW' ->
  Order.user_id NEW' = Order.user_id NEW.
Proof.
unfold set_order_number.
destruct (null_or_empty (Order.order_number NEW)); [|now intros [= <-]].
destruct (generated_order_number today t); [|discriminate].
cbn [bind]. now intros [= <-].
Qed.

End OneUserADay.

(** X19.  As long as the orders of the day are all of one user, an insert
    sent by that user runs as an insert that reads the whole table does:
    the policy on reading hides no order of the day from the query of
    set_order_number, so the number assigned, the rejections and the
    stored row are the same. *)
Theorem insert_by_the_only_user_of_the_day :
  forall (user : uuid) (today : string) (NEW : Order.candidate)
         (t : Order.table),
    Order.user_id NEW = user ->
    (forall r, In r t ->
               sql_like (today_pattern today) (Order.order_number r) = true ->
               Order.user_id r = user) ->
    insert_order_as user today NEW t = ran (insert_order today NEW t).
Proof.
intros user today NEW t Hu Hown.
assert (Hsame : set_order_number today (own_orders user t) NEW
                = set_order_number today t NEW).
{ unfold set_order_number, generated_order_number, next_order_counter.
  now rewrite (own_orders_of_the_day user today t Hown). }
unfold insert_order_as, insert_order. rewrite Hsame.
destruct (set_order_number today t NEW) as [NEW'|e] eqn:Hset; [|reflexivity].
cbn [bind]. rewrite (set_order_number_user _ _ _ _ Hset), Hu, N.eqb_refl.
cbn [negb]. destruct (Order.order_number NEW') as [n|]; [|reflexivity].
now destruct (_ || _).
Qed.

Lemma insert_by_the_only_user_of_the_day_witness :
  insert_order_as 2%N "20250918" candidate_of_user_2 [order_of_user_1]
  = ran (insert_order "20250918" candidate_of_user_2 [order_of_user_1]).
Proof.
apply (insert_by_the_only_user_of_the_day 2%N "20250918" candidate_of_user_2
         [order_of_user_1]).
- reflexivity.
- intros r [<- | []] Hlike. discriminate.
Defined.
